(** * scamp-go: connection engine, service cache and record serialisation

    A shallow embedding of the parts of the Go package [scamp] that carry
    the protocol logic:

    - [stringToRows] (src/scamp/service.go): the wrapping of the base64
      signature;
    - [ServiceCache] (src/scamp/service_stats.go, second part): the two
      indexes, [DoScan] and the lookups;
    - [Connection] (src/unnamed/part_000): [routePacket], [ackBytes] and
      [Send].

    Go values are represented as follows.  A Go [string] and a Go [[]byte]
    are both finite sequences of bytes; they are modelled by [string], whose
    characters are 8-bit [ascii] values, so that [string(b)] and [[]byte(s)]
    are the identity.  [uint64] is [N] with the wrap-around written out,
    [int] is [Z].  Go maps are [gmap]s.  A pointer to a record that is never
    mutated after it has been published (a [*ServiceProxy]) is modelled by
    the record itself. *)

From Equations Require Import Equations.
From Stdlib Require Import Ascii.
From stdpp Require Import gmap strings list fin_maps pretty.

(** ** Byte sequences *)

Module GoString.

(** [s[:n]] for [n <= len(s)]. *)
Fixpoint take (n : nat) (s : string) : string :=
  match n, s with
  | S n', String c s' => String c (take n' s')
  | _, _ => ""
  end.

(** [s[n:]] for [n <= len(s)]. *)
Fixpoint drop (n : nat) (s : string) : string :=
  match n, s with
  | S n', String _ s' => drop n' s'
  | _, _ => s
  end.

(** [s[0:hi]] with Go's bounds check: a slice expression whose upper
    bound lies outside [0 .. len(s)] is a run-time panic. *)
Definition sliceTo (s : string) (hi : Z) : option string :=
  if decide (0 ≤ hi ≤ Z.of_nat (String.length s))%Z
  then Some (take (Z.to_nat hi) s)
  else None.

(** Concatenation of a list of rows. *)
Definition join (rows : list string) : string :=
  foldr String.app "" rows.

End GoString.

(** ** [stringToRows] *)

Module Rows.

(** The body of the [for] loop of [stringToRows]: [output] is the slice
    built so far, [substr] the part of the input not yet emitted.  The
    loop runs again only after [substr] has lost 76 bytes. *)
Equations? stringToRows_loop (output : list string) (substr : string)
  : list string by wf (String.length substr) lt :=
  stringToRows_loop output substr with decide (76 < String.length substr) => {
    | left _ :=
        stringToRows_loop (output ++ [GoString.take 76 substr])
                          (GoString.drop 76 substr);
    | right _ := output ++ [substr] }.
Proof.
  assert (∀ n s, String.length (GoString.drop n s) ≤ String.length s - n) as Hdrop.
  { induction n as [|n IH]; intros [|c s]; cbn; try lia. apply IH. }
  specialize (Hdrop 76 substr). lia.
Qed.

(** [stringToRows(input, rowlen)]; the parameter [rowlen] is never read. *)
Definition stringToRows (input : string) (rowlen : Z) : list string :=
  let output := [] in
  if decide (String.length input ≤ 76)
  then output ++ [input]
  else stringToRows_loop output input.

End Rows.

(** ** bufio.Scanner *)

Module bufio.

Definition newlineChar : ascii := "010"%char.
Definition crChar : ascii := "013"%char.

(** [dropCR] of the Go library: a trailing carriage return is dropped. *)
Fixpoint dropCR (data : string) : string :=
  match data with
  | "" => ""
  | String c "" => if decide (c = crChar) then "" else String c ""
  | String c rest => String c (dropCR rest)
  end.

(** [bufio.MaxScanTokenSize], the size the buffer of a scanner made by
    [NewScanner] grows to. *)
Definition MaxScanTokenSize : Z := 64 * 1024.

(** A line the scanner can deliver: with what ends it, it fits the
    buffer. *)
Definition fitsBuffer (line : string) : bool :=
  bool_decide (Z.of_nat (String.length line) < MaxScanTokenSize)%Z.

(** What [Scan] finds in a text with the split function [ScanLines]: a
    token per newline-terminated line, and for the last line if it is not
    empty, as long as the lines fit the buffer.  At the first line that
    does not, [Scan] gives up with [ErrTooLong]; the second component is
    then what the buffer holds, the first [MaxScanTokenSize] bytes of that
    line, as the split function cuts it at the end of the input.  Nothing
    behind it is read.  [line] holds the bytes read since the last
    newline. *)
Fixpoint scanLines (line data : string) : list string * option string :=
  match data with
  | "" =>
      if decide (line = "") then ([], None)
      else if fitsBuffer line then ([dropCR line], None)
      else ([], Some (dropCR (GoString.take (Z.to_nat MaxScanTokenSize) line)))
  | String c rest =>
      if decide (c = newlineChar) then
        if fitsBuffer line then
          let '(tokens, overflow) := scanLines "" rest in
          (dropCR line :: tokens, overflow)
        else ([], Some (dropCR (GoString.take (Z.to_nat MaxScanTokenSize) line)))
      else scanLines (line +:+ String c "") rest
  end.

(** A scanner over a reader: the tokens it has not delivered yet, the
    token of the last call of [Scan], and, if a line too long for the
    buffer follows the unread tokens, what the buffer holds of it. *)
Record Scanner := scanning {
  unread : list string;
  token : string;
  overflow : option string }.

(** A scanner over lines that all fit the buffer. *)
Abbreviation mkScanner lines tok := (scanning lines tok None).

Definition NewScanner (text : string) : Scanner :=
  let '(tokens, overflow) := scanLines "" text in
  {| unread := tokens; token := ""; overflow := overflow |}.

(** What a call of [Scan] leaves when the unread tokens are exhausted: an
    empty token, and what the buffer holds as the one token still to
    come. *)
Definition exhausted (overflow : option string) : Scanner :=
  {| unread := option_list overflow; token := ""; overflow := None |}.

(** [s.Scan()]: advance to the next token.  At the end of the input the
    call returns [false] and leaves an empty token (as of Go 1.5, where the
    split function is consulted once more at the end of the input and
    yields the nil token), however often it is repeated.  At a line too
    long for the buffer the call returns [false] with [ErrTooLong] and
    leaves an empty token as well; but the buffer is not dropped, and
    since the error makes the next call consult the split function as at
    the end of the input, that call delivers what the buffer holds as one
    more token, and the calls after it return [false]. *)
Definition Scan (s : Scanner) : bool * Scanner :=
  match unread s with
  | [] => (false, exhausted (overflow s))
  | line :: rest =>
      (true, {| unread := rest; token := line; overflow := overflow s |})
  end.

(** [s.Bytes()] *)
Definition Bytes (s : Scanner) : string := token s.

End bufio.

(** ** The service cache: [ServiceCache] *)

(** Go's [error] values are represented by their message; [None] is [nil]. *)
Abbreviation error := (option string).

(** The declaration of [ServiceProxy] is not part of the sources.  The three
    records below give it as the spec's data model has it, under the field
    names by which [storeNoLock] reads them. *)

(** Modelled from the spec: the action record of a [ServiceProxy] class,
    [{actionName, version, crudTags}]. *)
Record ActionDescription := mkAction {
  actionName : string;
  crudTags : string;
  version : Z }.

(** Modelled from the spec: the class record of a [ServiceProxy],
    [{className, actions}]. *)
Record ServiceProxyClass := mkClass {
  className : string;
  actions : list ActionDescription }.

(** Modelled from the spec: the declaration of [ServiceProxy], the cache
    entry [{ident, sector, classes, protocols, certificate, signature,
    classRecordsRaw}]. *)
Record ServiceProxy := mkProxy {
  ident : string;
  sector : string;
  classes : list ServiceProxyClass;
  protocols : list string;
  rawCertPem : string;
  rawSig : string;
  rawClassRecords : string }.

Global Instance ActionDescription_eq_dec : EqDecision ActionDescription.
Proof. solve_decision. Defined.
Global Instance ServiceProxyClass_eq_dec : EqDecision ServiceProxyClass.
Proof. solve_decision. Defined.
Global Instance ServiceProxy_eq_dec : EqDecision ServiceProxy.
Proof. solve_decision. Defined.

(** The two functions on proxies that [DoScan] calls.  Their code is not
    part of the sources, so the cache is verified for every implementation
    of them: [NewServiceProxy] builds a proxy from the three blobs of a
    record block or fails, [Validate] checks the signature. *)
Class ProxyCodec := {
  NewServiceProxy : string → string → string → ServiceProxy + string;
  Validate : ServiceProxy → error }.

Module Cache.

Record ServiceCache := mkCache {
  path : string;
  identIndex : gmap string ServiceProxy;
  actionIndex : gmap string (list ServiceProxy);
  verifyRecords : bool }.

Definition NewServiceCache (path : string) : ServiceCache :=
  {| path := path; identIndex := ∅; actionIndex := ∅; verifyRecords := true |}.

Definition DisableRecordVerification (cache : ServiceCache) : ServiceCache :=
  {| path := path cache; identIndex := identIndex cache;
     actionIndex := actionIndex cache; verifyRecords := true |}.

Definition EnableRecordVerification (cache : ServiceCache) : ServiceCache :=
  {| path := path cache; identIndex := identIndex cache;
     actionIndex := actionIndex cache; verifyRecords := false |}.

(** [fmt.Sprintf("%s:%s.%s~%d#%s", sector, className, actionName, version, protocol)] *)
Definition storeKey (sector className actionName : string) (version : Z)
    (protocol : string) : string :=
  sector +:+ ":" +:+ className +:+ "." +:+ actionName +:+ "~"
    +:+ pretty version +:+ "#" +:+ protocol.

(** The body of the innermost loop of [storeNoLock]. *)
Definition indexUnder (instance : ServiceProxy)
    (index : gmap string (list ServiceProxy)) (mungedName : string)
    : gmap string (list ServiceProxy) :=
  let serviceProxies :=
    match index !! mungedName with
    | Some serviceProxies => serviceProxies ++ [instance]
    | None => [instance]
    end in
  <[mungedName := serviceProxies]> index.

Definition storeNoLock (cache : ServiceCache) (instance : ServiceProxy)
    : ServiceCache :=
  let identIndex' :=
    match identIndex cache !! ident instance with
    | None => <[ident instance := instance]> (identIndex cache)
    | Some _ => <[ident instance := instance]> (identIndex cache)
    end in
  let actionIndex' :=
    foldl (λ index class,
      foldl (λ index action,
        foldl (λ index protocol,
          indexUnder instance index
            (storeKey (sector instance) (className class)
                      (actionName action) (version action) protocol))
          index (protocols instance))
        index (actions class))
      (actionIndex cache) (classes instance) in
  {| path := path cache; identIndex := identIndex';
     actionIndex := actionIndex'; verifyRecords := verifyRecords cache |}.

Definition Store (cache : ServiceCache) (instance : ServiceProxy) : ServiceCache :=
  storeNoLock cache instance.

Definition removeNoLock (cache : ServiceCache) (instance : ServiceProxy)
    : ServiceCache * error :=
  match identIndex cache !! ident instance with
  | None =>
      (cache, Some ("tried removing an ident which was not being tracked: "
                      +:+ ident instance))
  | Some _ =>
      ({| path := path cache;
          identIndex := delete (ident instance) (identIndex cache);
          actionIndex := actionIndex cache;
          verifyRecords := verifyRecords cache |}, None)
  end.

Definition clearNoLock (cache : ServiceCache) : ServiceCache :=
  {| path := path cache; identIndex := ∅;
     actionIndex := actionIndex cache; verifyRecords := verifyRecords cache |}.

(** [nil] is [None]. *)
Definition Retrieve (cache : ServiceCache) (ident : string) : option ServiceProxy :=
  identIndex cache !! ident.

(** A key that is not in the map yields the nil slice, here [[]]. *)
Definition SearchByAction (cache : ServiceCache) (sector action : string)
    (version : Z) (envelope : string) : list ServiceProxy :=
  let mungedName :=
    sector +:+ ":" +:+ action +:+ "~" +:+ pretty version +:+ "#" +:+ envelope in
  default [] (actionIndex cache !! mungedName).

Definition Size (cache : ServiceCache) : nat := size (identIndex cache).

(** The order in which Go ranges over a map is not specified; the model
    lists the proxies in the order of [map_to_list]. *)
Definition All (cache : ServiceCache) : list ServiceProxy :=
  (map_to_list (identIndex cache)).*2.

Definition sep : string := "%%%".
Definition newline : string := String bufio.newlineChar "".

(** How a call ends: it returns, or a run-time panic unwinds it.  The
    cache is updated in place, so both carry the state it is left in. *)
Inductive Outcome :=
| Returned (err : error) (cache : ServiceCache)
| Panicked (reason : string) (cache : ServiceCache).

Definition sliceBoundsPanic : string :=
  "runtime error: slice bounds out of range [:-1]".

(** The three inner loops of [DoScan].  Each call of [s.Scan()] either
    finds the unread lines exhausted or takes the first of them, which is
    how the loops are written: by recursion on the unread lines. *)

(** [for { didScan = s.Scan(); if bytes.Equal(s.Bytes(), sep) || !didScan { break } }] *)
Fixpoint skipSlop (unread : list string) (overflow : option string)
    : bool * bufio.Scanner :=
  match unread with
  | [] => (false, bufio.exhausted overflow)
  | line :: rest =>
      if bool_decide (line = sep) then (true, bufio.scanning rest line overflow)
      else skipSlop rest overflow
  end.

(** [for s.Scan() { if len(s.Bytes()) == 0 { break };
     certBuffer.Write(s.Bytes()); certBuffer.Write(newline) }] *)
Fixpoint readCert (unread : list string) (overflow : option string)
    (certBuffer : string) : string * bufio.Scanner :=
  match unread with
  | [] => (certBuffer, bufio.exhausted overflow)
  | line :: rest =>
      if bool_decide (String.length line = 0)
      then (certBuffer, bufio.scanning rest line overflow)
      else readCert rest overflow ((certBuffer +:+ line) +:+ newline)
  end.

(** [for s.Scan() { if len(s.Bytes()) == 0 { break }
     else if bytes.Equal(s.Bytes(), sep) { break };
     sigBuffer.Write(s.Bytes()); sigBuffer.Write(newline) }] *)
Fixpoint readSig (unread : list string) (overflow : option string)
    (sigBuffer : string) : string * bufio.Scanner :=
  match unread with
  | [] => (sigBuffer, bufio.exhausted overflow)
  | line :: rest =>
      if bool_decide (String.length line = 0)
      then (sigBuffer, bufio.scanning rest line overflow)
      else if bool_decide (line = sep)
      then (sigBuffer, bufio.scanning rest line overflow)
      else readSig rest overflow ((sigBuffer +:+ line) +:+ newline)
  end.

(** The outer [for] loop of [DoScan]; one unit of [fuel] per iteration,
    [None] when it is used up. *)
Fixpoint scanBlocks {codec : ProxyCodec} (fuel : nat) (cache : ServiceCache)
    (s : bufio.Scanner) : option Outcome :=
  match fuel with
  | 0 => None
  | S fuel =>
    let '(didScan, s) := skipSlop (bufio.unread s) (bufio.overflow s) in
    if negb didScan then Some (Returned None cache) else
    let '(_, s) := bufio.Scan s in
    if bool_decide (String.length (bufio.Bytes s) = 0)
    then Some (Returned None cache) else
    let classRecordsRaw := bufio.Bytes s in
    let '(_, s) := bufio.Scan s in
    if bool_decide (String.length (bufio.Bytes s) ≠ 0)
    then Some (Returned (Some "expected newline after class records") cache) else
    let '(certBuffer, s) := readCert (bufio.unread s) (bufio.overflow s) "" in
    match GoString.sliceTo certBuffer (Z.of_nat (String.length certBuffer) - 1) with
    | None => Some (Panicked sliceBoundsPanic cache)
    | Some certRaw =>
      let '(sigBuffer, s) := readSig (bufio.unread s) (bufio.overflow s) "" in
      match GoString.sliceTo sigBuffer (Z.of_nat (String.length sigBuffer) - 1) with
      | None => Some (Panicked sliceBoundsPanic cache)
      | Some sigRaw =>
        match NewServiceProxy classRecordsRaw certRaw sigRaw with
        | inr err => Some (Returned (Some ("NewServiceProxy: " +:+ err)) cache)
        | inl serviceProxy =>
          if verifyRecords cache then
            match Validate serviceProxy with
            | Some _ =>
                let '(cache, _) := removeNoLock cache serviceProxy in
                scanBlocks fuel cache s
            | None => scanBlocks fuel (storeNoLock cache serviceProxy) s
            end
          else scanBlocks fuel (storeNoLock cache serviceProxy) s
        end
      end
    end
  end.

(** Every iteration that does not leave the loop takes at least the
    separator and the class-records line from the unread lines, so one
    more unit of fuel than there are unread lines is never used up
    ([scanBlocks_fuel] below). *)
Definition scanFuel (s : bufio.Scanner) : nat := S (length (bufio.unread s)).

Definition DoScan {codec : ProxyCodec} (cache : ServiceCache) (s : bufio.Scanner)
    : option Outcome :=
  scanBlocks (scanFuel s) (clearNoLock cache) s.

(** What [os.Stat] and [os.Open] find at the cache's path. *)
Inductive PathState :=
| StatFails (err : string)
| IsDirectory
| OpenFails (err : string)
| RegularFile (contents : string).

Definition Refresh {codec : ProxyCodec} (cache : ServiceCache) (at_path : PathState)
    : option Outcome :=
  match at_path with
  | StatFails err => Some (Returned (Some err) cache)
  | IsDirectory =>
      Some (Returned (Some ("cannot use cache path: `" +:+ path cache
                              +:+ "` is a directory")) cache)
  | OpenFails err => Some (Returned (Some err) cache)
  | RegularFile contents => DoScan cache (bufio.NewScanner contents)
  end.

End Cache.

(** ** The connection engine: [Connection] *)

Definition wrap64 (n : N) : N := (n mod 2 ^ 64)%N.

(** The declarations of packets, packet headers and messages are not part
    of the sources.  They are given below as the spec's data model has
    them, under the names the connection engine uses. *)

(** Modelled from the spec: the packet types,
    [type ∈ {HEADER, DATA, EOF, TXERR, ACK}]. *)
Inductive PacketType := HEADER | DATA | EOF | TXERR | ACK.

(** Modelled from the spec: the envelope tag, [envelope ∈ {JSON, …}]. *)
Inductive envelopeFormat := EnvelopeJSON | EnvelopeJSONStore.

(** Modelled from the spec: [messageType ∈ {Request, Reply}]. *)
Inductive messageType := MessageTypeRequest | MessageTypeReply.

Module PacketHeader.
(** Modelled from the spec: the header record of a HEADER packet,
    [MessageHeader]. *)
Record t := mk {
  Action : string;
  Envelope : envelopeFormat;
  Version : Z;
  MessageType : messageType;
  RequestId : N;
  Error : string;
  ErrorCode : string;
  Ticket : string }.

(** The zero value of the record. *)
Definition zero : t :=
  mk "" EnvelopeJSON 0 MessageTypeRequest 0 "" "" "".
End PacketHeader.

(** Modelled from the spec: the declaration of [Packet],
    [{type, msgNo, body, header?}]. *)
Record Packet := mkPacket {
  packetType : PacketType;
  msgNo : N;
  packetHeader : PacketHeader.t;
  body : string }.

(** Modelled from the spec: the declaration of [Message]: the header
    fields, an append-only body buffer and [bytesWritten]. *)
Record Message := mkMessage {
  Action : string;
  Envelope : envelopeFormat;
  Version : Z;
  MessageType : messageType;
  RequestId : N;
  Error : string;
  ErrorCode : string;
  Ticket : string;
  bytes : string;
  bytesWritten : N }.

Global Instance PacketType_eq_dec : EqDecision PacketType.
Proof. solve_decision. Defined.

Module Msg.

(** Modelled from the spec: [NewMessage], a message with nothing set and
    nothing written. *)
Definition NewMessage : Message :=
  mkMessage "" EnvelopeJSON 0 MessageTypeRequest 0 "" "" "" "" 0.

(** Modelled from the spec: the setter of [Action]. *)
Definition SetAction (msg : Message) (v : string) : Message :=
  mkMessage v (Envelope msg) (Version msg) (MessageType msg) (RequestId msg)
            (Error msg) (ErrorCode msg) (Ticket msg) (bytes msg) (bytesWritten msg).

(** Modelled from the spec: the setter of [Envelope]. *)
Definition SetEnvelope (msg : Message) (v : envelopeFormat) : Message :=
  mkMessage (Action msg) v (Version msg) (MessageType msg) (RequestId msg)
            (Error msg) (ErrorCode msg) (Ticket msg) (bytes msg) (bytesWritten msg).

(** Modelled from the spec: the setter of [Version]. *)
Definition SetVersion (msg : Message) (v : Z) : Message :=
  mkMessage (Action msg) (Envelope msg) v (MessageType msg) (RequestId msg)
            (Error msg) (ErrorCode msg) (Ticket msg) (bytes msg) (bytesWritten msg).

(** Modelled from the spec: the setter of [MessageType]. *)
Definition SetMessageType (msg : Message) (v : messageType) : Message :=
  mkMessage (Action msg) (Envelope msg) (Version msg) v (RequestId msg)
            (Error msg) (ErrorCode msg) (Ticket msg) (bytes msg) (bytesWritten msg).

(** Modelled from the spec: the setter of [RequestId]. *)
Definition SetRequestId (msg : Message) (v : N) : Message :=
  mkMessage (Action msg) (Envelope msg) (Version msg) (MessageType msg) v
            (Error msg) (ErrorCode msg) (Ticket msg) (bytes msg) (bytesWritten msg).

(** Modelled from the spec: the setter of [Error]. *)
Definition SetError (msg : Message) (v : string) : Message :=
  mkMessage (Action msg) (Envelope msg) (Version msg) (MessageType msg) (RequestId msg)
            v (ErrorCode msg) (Ticket msg) (bytes msg) (bytesWritten msg).

(** Modelled from the spec: the setter of [ErrorCode]. *)
Definition SetErrorCode (msg : Message) (v : string) : Message :=
  mkMessage (Action msg) (Envelope msg) (Version msg) (MessageType msg) (RequestId msg)
            (Error msg) v (Ticket msg) (bytes msg) (bytesWritten msg).

(** Modelled from the spec: the setter of [Ticket]. *)
Definition SetTicket (msg : Message) (v : string) : Message :=
  mkMessage (Action msg) (Envelope msg) (Version msg) (MessageType msg) (RequestId msg)
            (Error msg) (ErrorCode msg) v (bytes msg) (bytesWritten msg).

(** Modelled from the spec: [Message.Write], which appends
    [blob] to the body buffer and adds its length to [bytesWritten]. *)
Definition Write (msg : Message) (blob : string) : Message :=
  mkMessage (Action msg) (Envelope msg) (Version msg) (MessageType msg) (RequestId msg)
            (Error msg) (ErrorCode msg) (Ticket msg)
            (bytes msg +:+ blob)
            (wrap64 (bytesWritten msg + N.of_nat (String.length blob))).

(** Modelled from the spec: [Message.BytesWritten], the count of the bytes
    written so far. *)
Definition BytesWritten (msg : Message) : N := bytesWritten msg.

End Msg.

(** What the connection engine uses without defining it: the buffered
    writer over the TLS stream, the packet codec's [Write] on it, and the
    split of a message into packets.  [Writer] is the state of the write
    half, including the debugger's tee when [enableWriteTee] is set;
    [pktWrite tee w pkt] is [pkt.Write] on [conn.readWriter] or, with [tee],
    on the [io.MultiWriter] over it and the debugger, and yields the state
    after the call and the error it returned. *)
Class Wire := {
  Writer : Type;
  enableWriteTee : bool;
  pktWrite : bool → Writer → Packet → Writer * error;
  debuggerNewline : Writer → Writer;
  Flush : Writer → Writer;
  toPackets : Message → N → list Packet }.

Module Conn.

(** The fields of [Connection] that the packet router and [Send] read or
    write.  [msgs] lists the messages sent on the channel so far, oldest
    first. *)
Record Connection {wire : Wire} := mkConnection {
  readWriter : Writer;
  incomingmsgno : N;
  outgoingmsgno : N;
  pktToMsg : gmap N Message;
  msgs : list Message;
  isClosed : bool }.

Section Engine.
Context {wire : Wire}.

Definition setReadWriter (conn : Connection) (w : Writer) : Connection :=
  mkConnection _ w (incomingmsgno conn) (outgoingmsgno conn)
               (pktToMsg conn) (msgs conn) (isClosed conn).

Definition setPktToMsg (conn : Connection) (m : gmap N Message) : Connection :=
  mkConnection _ (readWriter conn) (incomingmsgno conn) (outgoingmsgno conn)
               m (msgs conn) (isClosed conn).

(** [conn.msgs <- msg] *)
Definition deliver (conn : Connection) (msg : Message) : Connection :=
  mkConnection _ (readWriter conn) (incomingmsgno conn) (outgoingmsgno conn)
               (pktToMsg conn) (msgs conn ++ [msg]) (isClosed conn).

(** [atomic.AddUint64(&conn.incomingmsgno, 1)] *)
Definition bumpIncoming (conn : Connection) : Connection :=
  mkConnection _ (readWriter conn) (wrap64 (incomingmsgno conn + 1))
               (outgoingmsgno conn) (pktToMsg conn) (msgs conn) (isClosed conn).

(** [atomic.AddUint64(&conn.outgoingmsgno, 1)] *)
Definition bumpOutgoing (conn : Connection) : Connection :=
  mkConnection _ (readWriter conn) (incomingmsgno conn)
               (wrap64 (outgoingmsgno conn + 1)) (pktToMsg conn) (msgs conn)
               (isClosed conn).

Definition ackPacketFor (msgno unackedByteCount : N) : Packet :=
  {| packetType := ACK; msgNo := msgno; packetHeader := PacketHeader.zero;
     body := pretty unackedByteCount |}.

Definition ackBytes (conn : Connection) (msgno unackedByteCount : N)
    : Connection * error :=
  let ackPacket := ackPacketFor msgno unackedByteCount in
  let '(w, err) := pktWrite enableWriteTee (readWriter conn) ackPacket in
  match err with
  | Some e => (setReadWriter conn w, Some e)
  | None => (setReadWriter conn (Flush w), None)
  end.

Definition unknownError : string :=
  "There was an unkown error with the connection".

Definition routePacket (conn : Connection) (pkt : Packet) : Connection * error :=
  match packetType pkt with
  | HEADER =>
      let incomingmsgno := incomingmsgno conn in
      if bool_decide (msgNo pkt ≠ incomingmsgno) then
        (conn, Some ("out of sequence msgno: expected " +:+ pretty incomingmsgno
                       +:+ " but got " +:+ pretty (msgNo pkt)))
      else
      match pktToMsg conn !! msgNo pkt with
      | Some _ =>
          (conn, Some ("Bad HEADER; already tracking msgno " +:+ pretty (msgNo pkt)))
      | None =>
          let msg := Msg.NewMessage in
          let msg := Msg.SetAction msg (PacketHeader.Action (packetHeader pkt)) in
          let msg := Msg.SetEnvelope msg (PacketHeader.Envelope (packetHeader pkt)) in
          let msg := Msg.SetVersion msg (PacketHeader.Version (packetHeader pkt)) in
          let msg :=
            Msg.SetMessageType msg (PacketHeader.MessageType (packetHeader pkt)) in
          let msg := Msg.SetRequestId msg (PacketHeader.RequestId (packetHeader pkt)) in
          let msg := Msg.SetError msg (PacketHeader.Error (packetHeader pkt)) in
          let msg := Msg.SetErrorCode msg (PacketHeader.ErrorCode (packetHeader pkt)) in
          let msg := Msg.SetTicket msg (PacketHeader.Ticket (packetHeader pkt)) in
          let conn := setPktToMsg conn (<[msgNo pkt := msg]> (pktToMsg conn)) in
          (bumpIncoming conn, None)
      end
  | DATA =>
      match pktToMsg conn !! msgNo pkt with
      | None =>
          (conn, Some ("not tracking message number " +:+ pretty (msgNo pkt)))
      | Some msg =>
          let msg := Msg.Write msg (body pkt) in
          let conn := setPktToMsg conn (<[msgNo pkt := msg]> (pktToMsg conn)) in
          let '(conn, _) := ackBytes conn (msgNo pkt) (Msg.BytesWritten msg) in
          (conn, None)
      end
  | EOF =>
      match pktToMsg conn !! msgNo pkt with
      | None =>
          (conn, Some ("cannot process EOF for unknown msgno " +:+ pretty (msgNo pkt)))
      | Some msg =>
          let conn := setPktToMsg conn (delete (msgNo pkt) (pktToMsg conn)) in
          (deliver conn msg, None)
      end
  | TXERR =>
      match pktToMsg conn !! msgNo pkt with
      | None =>
          (conn, Some ("cannot process EOF for unknown msgno " +:+ pretty (msgNo pkt)))
      | Some msg =>
          let msg :=
            if bool_decide (0 < String.length (body pkt))
            then Msg.SetError msg (body pkt)
            else Msg.SetError msg unknownError in
          let msg := Msg.Write msg (body pkt) in
          let conn := setPktToMsg conn (<[msgNo pkt := msg]> (pktToMsg conn)) in
          let '(conn, _) := ackBytes conn (msgNo pkt) (Msg.BytesWritten msg) in
          let conn := setPktToMsg conn (delete (msgNo pkt) (pktToMsg conn)) in
          (deliver conn msg, None)
      end
  | ACK => (conn, None)
  end.

(** The retry loop of [Send] for one packet: [None] when [fuel]
    attempts have all failed. *)
Fixpoint writeRetrying (fuel : nat) (w : Writer) (pkt : Packet) : option Writer :=
  match fuel with
  | 0 => None
  | S fuel =>
      let '(w, err) := pktWrite false w pkt in
      match err with
      | Some _ => writeRetrying fuel w pkt
      | None => Some w
      end
  end.

(** The [range] loop of [Send] over the packets of the message. *)
Fixpoint sendPackets (fuel : nat) (w : Writer) (pkts : list Packet)
    : option (Writer * error) :=
  match pkts with
  | [] => Some (w, None)
  | pkt :: rest =>
      if enableWriteTee then
        let '(w, err) := pktWrite true w pkt in
        let w := debuggerNewline w in
        match err with
        | Some e => Some (w, Some e)
        | None => sendPackets fuel w rest
        end
      else
        match writeRetrying fuel w pkt with
        | None => None
        | Some w => sendPackets fuel w rest
        end
  end.

Definition missingRequestId : string :=
  "must specify `ReqestId` on msg before sending".

(** [Send]; [None] when a retry loop used up its [fuel]. *)
Definition Send (fuel : nat) (conn : Connection) (msg : Message)
    : option (Connection * error) :=
  if bool_decide (RequestId msg = 0%N) then Some (conn, Some missingRequestId)
  else
    let outgoingmsgno := outgoingmsgno conn in
    let conn := bumpOutgoing conn in
    match sendPackets fuel (readWriter conn) (toPackets msg outgoingmsgno) with
    | None => None
    | Some (w, Some e) => Some (setReadWriter conn w, Some e)
    | Some (w, None) => Some (setReadWriter conn (Flush w), None)
    end.

(** The loop of [packetReader] over the packets the codec reads, up to
    the first that [routePacket] rejects. *)
Fixpoint routeAll (conn : Connection) (pkts : list Packet) : Connection * error :=
  match pkts with
  | [] => (conn, None)
  | pkt :: rest =>
      match routePacket conn pkt with
      | (conn, Some e) => (conn, Some e)
      | (conn, None) => routeAll conn rest
      end
  end.

End Engine.

End Conn.

(** ** The write half of a connection

    [NewConnection] wraps the TLS connection in a [bufio.Writer], and
    [Send] and [ackBytes] write through it.  The writer and the connection
    under it are Go's; they are modelled here as far as [Send] depends on
    them, from the documented behaviour of the library: writes are
    collected in a buffer of [defaultBufSize] bytes, reach the connection
    when the buffer overflows or is flushed, and the first error of the
    connection is kept by the writer, which returns it for every later
    [Write] and [Flush]. *)

Module Stream.

(** The connection under the writer, as far as writing goes: whether it
    has been closed, and the bytes it has taken. *)
Record TlsConn := mkTlsConn { closed : bool; sent : string }.

Definition closedError : string := "use of closed network connection".

(** [c.Write(p)]: an open connection takes [p]; a closed one takes nothing
    and returns the error. *)
Definition connWrite (c : TlsConn) (p : string) : TlsConn * nat * error :=
  if closed c then (c, 0, Some closedError)
  else (mkTlsConn (closed c) (sent c +:+ p), String.length p, None).

Definition defaultBufSize : nat := 4096.

(** [bufio.Writer]: the connection, the bytes buffered ([b.buf[0:b.n]])
    and the error kept ([b.err]). *)
Record bufioWriter := mkWriter { wr : TlsConn; buf : string; err : error }.

Definition Buffered (b : bufioWriter) : nat := String.length (buf b).
Definition Available (b : bufioWriter) : nat := defaultBufSize - Buffered b.

Definition ErrShortWrite : string := "short write".

(** [b.Flush()] *)
Definition Flush (b : bufioWriter) : bufioWriter * error :=
  match err b with
  | Some e => (b, Some e)
  | None =>
      if decide (Buffered b = 0) then (b, None) else
      let '(c, n, e) := connWrite (wr b) (buf b) in
      let e :=
        if decide (n < Buffered b ∧ e = None) then Some ErrShortWrite else e in
      match e with
      | Some e => (mkWriter c (GoString.drop n (buf b)) (Some e), Some e)
      | None => (mkWriter c "" None, None)
      end
  end.

(** What decreases in the loop of [Write]: it goes on only without an
    error, after a direct write that took bytes or after a flush that
    emptied the buffer. *)
Definition writeMeasure (b : bufioWriter) (p : string) : nat :=
  match err b with
  | Some _ => 0
  | None => 1 + 2 * String.length p + (if decide (Buffered b = 0) then 0 else 1)
  end.

Definition inspect {A} (a : A) : {b | a = b} := exist _ a eq_refl.

(** The loop of [b.Write(p)]:
    [for len(p) > b.Available() && b.err == nil {
       if b.Buffered() == 0 { n, b.err = b.wr.Write(p) }
       else { n = copy(b.buf[b.n:], p); b.n += n; b.Flush() }
       nn += n; p = p[n:] }] *)
Equations? writeLoop (b : bufioWriter) (p : string) (nn : nat)
  : bufioWriter * string * nat by wf (writeMeasure b p) lt :=
  writeLoop b p nn with decide (Available b < String.length p ∧ err b = None) => {
    | right _ := (b, p, nn);
    | left _ with decide (Buffered b = 0) => {
      | left _ with inspect (connWrite (wr b) p) => {
        | exist _ (c, n, e) _ :=
            writeLoop (mkWriter c (buf b) e) (GoString.drop n p) (nn + n) };
      | right _
          with inspect (Flush (mkWriter (wr b)
                                 (buf b +:+ GoString.take (Available b) p)
                                 (err b))) => {
        | exist _ (b', _) _ :=
            writeLoop b' (GoString.drop (Available b) p) (nn + Available b) } } }.
Proof.
  all: assert (∀ k s, String.length (GoString.drop k s) ≤ String.length s - k)
    as Hdrop
    by (intros k; induction k as [|k IH]; intros [|c' s]; cbn; try lia;
        apply IH).
  all: match goal with H : _ ∧ err _ = None |- _ => destruct H as [Hlen Herr] end;
    remember (Available b) as free eqn:Hfree; clear Hfree;
    unfold writeMeasure; rewrite Herr in *.
  - match goal with H : connWrite _ _ = _ |- _ => rename H into Hw end.
    unfold connWrite in Hw. destruct (closed (wr b)); simplify_eq.
    + cbn [err]. lia.
    + cbn [err]. unfold Buffered in *. cbn [buf].
      pose proof (Hdrop (String.length p) p).
      rewrite decide_True by done. lia.
  - match goal with H : Flush _ = _ |- _ => rename H into Hf end.
    pose proof (Hdrop free p).
    assert (err b' ≠ None ∨ (err b' = None ∧ Buffered b' = 0)) as [Hstop|[Hgo Hempty]].
    { unfold Flush, connWrite, Buffered in Hf. cbn [err buf wr] in Hf.
      destruct (decide (String.length (buf b +:+ GoString.take free p) = 0));
        [simplify_eq; by right|].
      destruct (closed (wr b)).
      - rewrite decide_False in Hf by (by intros [_ ?]). simplify_eq. by left.
      - rewrite decide_False in Hf by lia. simplify_eq. by right. }
    + destruct (err b'); [lia|done].
    + rewrite Hgo. rewrite decide_True by done.
      rewrite decide_False by done. lia.
Qed.

(** [b.Write(p)]: after the loop, the error kept if there is one, else
    the rest of [p] goes into the buffer. *)
Definition Write (b : bufioWriter) (p : string) : bufioWriter * nat * error :=
  let '(b, p, nn) := writeLoop b p 0 in
  match err b with
  | Some e => (b, nn, Some e)
  | None =>
      let n := String.length p `min` Available b in
      (mkWriter (wr b) (buf b +:+ GoString.take n p) None, nn + n, None)
  end.

(** Modelled from the spec: [writePacket(writer, Packet) → Error].  The
    codec is not in the sources: [frames] are the byte slices it hands to
    [Write] for a packet, one after the other, and it is taken to stop at
    the first [Write] that fails and to return its error. *)
Fixpoint writeFrames (b : bufioWriter) (frames : list string)
    : bufioWriter * error :=
  match frames with
  | [] => (b, None)
  | frame :: rest =>
      let '(b, _, e) := Write b frame in
      match e with
      | Some e => (b, Some e)
      | None => writeFrames b rest
      end
  end.

End Stream.

(** The stream of a connection as [NewConnection] builds it.  With the
    write tee, [io.MultiWriter] writes to the buffered writer first and
    returns its error; the debugger behind it, which is not in the sources,
    is taken to accept what it is given, and its file is not modelled.
    [Send] and [ackBytes] drop the error of [Flush]. *)
Definition bufioWire (tee : bool) (frames : Packet → list string)
    (packets : Message → N → list Packet) : Wire :=
  {| Writer := Stream.bufioWriter;
     enableWriteTee := tee;
     pktWrite := λ _ b pkt, Stream.writeFrames b (frames pkt);
     debuggerNewline := λ b, b;
     Flush := λ b, (Stream.Flush b).1;
     toPackets := packets |}.

(** ** Sample collaborators

    Concrete stand-ins for the code the models above are parameterised by;
    the examples and the concrete runs below are evaluated with them. *)

Module Sample.

(** The text of a file, from its lines. *)
Definition unlines (lines : list string) : string :=
  foldr (λ line text, line +:+ Cache.newline +:+ text) "" lines.

(** A proxy constructor that never fails: it takes the class-records line
    as the identity of the service and announces one action, [Cls.do]
    version 1 over json in sector main. *)
Definition proxyOf (classRecordsRaw certRaw sigRaw : string) : ServiceProxy :=
  {| ident := classRecordsRaw; sector := "main";
     classes := [ {| className := "Cls";
                     actions := [ {| actionName := "do"; crudTags := "";
                                     version := 1 |} ] |} ];
     protocols := ["json"];
     rawCertPem := certRaw; rawSig := sigRaw;
     rawClassRecords := classRecordsRaw |}.

Definition proxyA : ServiceProxy := proxyOf "A" "CERT" "SIG".

(** The same service announced again, with a new certificate. *)
Definition proxyA' : ServiceProxy := proxyOf "A" "CERT2" "SIG2".

(** A well-formed block for [proxyA], then a block whose class-records
    line is followed by a line that is not empty. *)
Definition goodThenMalformed : string :=
  unlines ["%%%"; "A"; ""; "CERT"; ""; "SIG"; ""; "%%%"; "B"; "oops"].

(** Two well-formed blocks. *)
Definition twoRecords : string :=
  unlines ["%%%"; "A"; ""; "CERT"; ""; "SIG"; "";
           "%%%"; "B"; ""; "CERT-B1"; "CERT-B2"; ""; "SIG-B1"; "SIG-B2"; ""].

(** Blocks that end where the certificate or the signature should
    start. *)
Definition blankForCertificate : string := unlines ["%%%"; "{}"; ""; ""].
Definition endsBeforeCertificate : string := unlines ["%%%"; "{}"; ""].
Definition endsBeforeSignature : string :=
  unlines ["%%%"; "{}"; ""; "CERT"; ""].

(** Every signature verifies. *)
Definition trustingCodec : ProxyCodec :=
  {| NewServiceProxy := λ classRecordsRaw certRaw sigRaw,
       inl (proxyOf classRecordsRaw certRaw sigRaw);
     Validate := λ _, None |}.

(** One HEADER, one DATA packet with the whole body if there is one, one
    EOF. *)
Definition packetsOf (msg : Message) (msgno : N) : list Packet :=
  [ {| packetType := HEADER; msgNo := msgno;
       packetHeader :=
         PacketHeader.mk (Action msg) (Envelope msg) (Version msg)
           (MessageType msg) (RequestId msg) (Error msg) (ErrorCode msg)
           (Ticket msg);
       body := "" |} ]
  ++ (if bool_decide (bytes msg = "") then []
      else [ {| packetType := DATA; msgNo := msgno;
                packetHeader := PacketHeader.zero; body := bytes msg |} ])
  ++ [ {| packetType := EOF; msgNo := msgno;
          packetHeader := PacketHeader.zero; body := "" |} ].

(** A stream that takes every packet: its state is the list of the
    packets written, oldest first. *)
Definition openWire : Wire :=
  {| Writer := list Packet;
     enableWriteTee := false;
     pktWrite := λ _ w pkt, (w ++ [pkt], None);
     debuggerNewline := λ w, w;
     Flush := λ w, w;
     toPackets := packetsOf |}.

(** A stream whose writer has kept an error, as the buffered writer of a
    connection does from the first write that reached the closed
    connection: every write fails, and nothing more is taken.  (A writer
    that has not met the error yet still buffers small packets without
    one: see [bufioWire].) *)
Definition closedWire (tee : bool) : Wire :=
  {| Writer := list Packet;
     enableWriteTee := tee;
     pktWrite := λ _ w pkt, (w, Some "use of closed network connection");
     debuggerNewline := λ w, w;
     Flush := λ w, w;
     toPackets := packetsOf |}.

(** A connection as [NewConnection] leaves it. *)
Definition freshConnection (wire : Wire) (w : Writer) : Conn.Connection :=
  Conn.mkConnection wire w 0 0 ∅ [] false.

Definition request (requestId : N) (payload : string) : Message :=
  mkMessage "Foo.bar" EnvelopeJSON 1 MessageTypeRequest requestId "" "" ""
            payload (N.of_nat (String.length payload)).

Definition headerOf (requestId : N) : PacketHeader.t :=
  PacketHeader.mk "Foo.bar" EnvelopeJSON 1 MessageTypeRequest requestId "" "" "".

Definition headerPacket (msgno : N) : Packet :=
  {| packetType := HEADER; msgNo := msgno; packetHeader := headerOf 42;
     body := "" |}.

Definition bodyPacket (type : PacketType) (msgno : N) (payload : string) : Packet :=
  {| packetType := type; msgNo := msgno; packetHeader := PacketHeader.zero;
     body := payload |}.

(** A connection that has accepted the header of message 0 and seven
    bytes of its body. *)
Definition midMessage : Conn.Connection :=
  Conn.mkConnection openWire [] 1 0 {[ 0%N := request 42 "partial" ]} [] false.

(** A rendering of a packet in three writes: the type, the number and
    the length of the body; the body; and a closing mark. *)
Definition typeName (type : PacketType) : string :=
  match type with
  | HEADER => "HEADER" | DATA => "DATA" | EOF => "EOF" | TXERR => "TXERR"
  | ACK => "ACK"
  end.

Definition frames (pkt : Packet) : list string :=
  [ typeName (packetType pkt) +:+ " " +:+ pretty (msgNo pkt) +:+ " "
      +:+ pretty (String.length (body pkt)) +:+ ":";
    body pkt; ";" ].

(** The buffered writer of a new connection whose TLS connection has been
    closed, as [Close] leaves it. *)
Definition closedStream : Stream.bufioWriter :=
  Stream.mkWriter (Stream.mkTlsConn true "") "" None.

End Sample.

(** ** Vocabulary of the statements *)

(** Rows no longer than the wrap width. *)
Definition rowsOk (rows : list string) : Prop :=
  Forall (λ row, String.length row ≤ 76) rows.

(** Every proxy listed in [index] is [instance] or was listed under the
    same key in [index0]. *)
Definition listsOnly (instance : ServiceProxy)
    (index0 index : gmap string (list ServiceProxy)) : Prop :=
  ∀ key proxies proxy,
    index !! key = Some proxies → proxy ∈ proxies →
    proxy = instance
    ∨ ∃ proxies0, index0 !! key = Some proxies0 ∧ proxy ∈ proxies0.

(** [instance] is listed under [key]. *)
Definition listedUnder (instance : ServiceProxy) (key : string)
    (index : gmap string (list ServiceProxy)) : Prop :=
  ∃ proxies, index !! key = Some proxies ∧ instance ∈ proxies.

(** The proxies of [actionIndex] are among [stored], and the ident of
    every proxy of [stored] is bound in [identIndex] to a proxy of
    [stored] with that ident. *)
Definition indexed (stored : list ServiceProxy) (cache : Cache.ServiceCache) : Prop :=
  (∀ key proxies proxy,
     Cache.actionIndex cache !! key = Some proxies → proxy ∈ proxies →
     proxy ∈ stored)
  ∧ (∀ proxy, proxy ∈ stored →
       ∃ latest, Cache.identIndex cache !! ident proxy = Some latest
                 ∧ ident latest = ident proxy ∧ latest ∈ stored).

(** The buffer [DoScan] builds from the lines of a certificate or of a
    signature: every line followed by a newline. *)
Definition buffered (lines : list string) : string :=
  foldr (λ line buffer, (line +:+ Cache.newline) +:+ buffer) "" lines.

(** The header fields of [msg] are those of the header record [h]. *)
Definition carriesHeader (msg : Message) (h : PacketHeader.t) : Prop :=
  Action msg = PacketHeader.Action h
  ∧ Envelope msg = PacketHeader.Envelope h
  ∧ Version msg = PacketHeader.Version h
  ∧ MessageType msg = PacketHeader.MessageType h
  ∧ RequestId msg = PacketHeader.RequestId h
  ∧ Error msg = PacketHeader.Error h
  ∧ ErrorCode msg = PacketHeader.ErrorCode h
  ∧ Ticket msg = PacketHeader.Ticket h.

(** The write half after [ackBytes] has handed [ack] to the codec: the
    packet written and, when the codec reported no error, flushed. *)
Definition afterAck {wire : Wire} (w : Writer) (ack : Packet) : Writer :=
  match pktWrite enableWriteTee w ack with
  | (w', Some _) => w'
  | (w', None) => Flush w'
  end.

(** The count of a message is the length of its body, in 64 bits. *)
Definition counted (msg : Message) : Prop :=
  bytesWritten msg = wrap64 (N.of_nat (String.length (bytes msg))).

(** Every message the connection tracks or has delivered is [counted]. *)
Definition allCounted {wire : Wire} (conn : Conn.Connection) : Prop :=
  map_Forall (λ _ msg, counted msg) (Conn.pktToMsg conn)
  ∧ Forall counted (Conn.msgs conn).

(** ** More of the sources *)

(** *** [scanCertficates] (src/scamp/service_stats.go) *)

Module Certs.

Definition startCert : string := "-----BEGIN CERTIFICATE-----".
Definition endCert : string := "-----END CERTIFICATE-----".

(** [bytes.HasPrefix(s, prefix)] *)
Fixpoint HasPrefix (s prefix : string) : bool :=
  match prefix, s with
  | "", _ => true
  | String p prefix', String c s' =>
      if decide (p = c) then HasPrefix s' prefix' else false
  | String _ _, "" => false
  end.

(** [bytes.Index(s, sub)]: the index of the first instance of [sub] in [s],
    or -1. *)
Fixpoint Index (s sub : string) : Z :=
  if HasPrefix s sub then 0%Z
  else match s with
       | "" => (-1)%Z
       | String _ s' =>
           let i := Index s' sub in
           if decide (i = -1)%Z then (-1)%Z else (i + 1)%Z
       end.

(** What a split function hands back to the scanner, its error apart
    (this one returns none): how far to advance and the token, [None] for
    the nil token; or the panic of a slice expression out of bounds. *)
Inductive SplitResult :=
| Split (advance : Z) (token : option string)
| SplitPanics.

Definition scanCertficates (data : string) (atEOF : bool) : SplitResult :=
  if atEOF && bool_decide (String.length data = 0) then Split 0 None
  else
    let i := Index data startCert in
    if decide (i = -1)%Z then Split 0 None
    else
      let i := Index data endCert in
      if decide (0 ≤ i)%Z then
        match GoString.sliceTo data (i + Z.of_nat (String.length endCert)) with
        | Some token => Split (i + Z.of_nat (String.length endCert)) (Some token)
        | None => SplitPanics
        end
      else Split 0 None.

End Certs.

(** *** [MarshalText] and [RemoveClient] (src/scamp/service.go) *)

Module Svc.

(** A [*Client] is represented by its address. *)
Definition ClientRef := N.

(** An RSA private key is represented by its encoding. *)
Definition PrivateKey := string.

(** The fields of [Service] that [MarshalText] and [RemoveClient] read or
    write; [privateKey] is [cert.PrivateKey]. *)
Record Service := mkService {
  sector : string;
  name : string;
  humanName : string;
  isRunning : bool;
  clients : list ClientRef;
  pemCert : string;
  privateKey : PrivateKey }.

(** The three functions [MarshalText] calls whose code is not part of the
    sources: the view of a service as a proxy, the JSON of its class
    records, and the base64 signature of a text under a key. *)
Class Announcer := {
  serviceAsServiceProxy : Service → ServiceProxy;
  MarshalJSON : ServiceProxy → string + string;
  signSHA256 : string → PrivateKey → string + string }.

(** [MarshalText]: the text and the error; the text is nil, here empty,
    when there is an error. *)
Definition MarshalText {announcer : Announcer} (serv : Service) : string * error :=
  let buf := "" in
  let serviceProxy := serviceAsServiceProxy serv in
  match MarshalJSON serviceProxy with
  | inr err => ("", Some err)
  | inl classRecord =>
    match signSHA256 classRecord (privateKey serv) with
    | inr err => ("", Some err)
    | inl sig =>
      let sigParts := Rows.stringToRows sig 76 in
      let buf := buf +:+ classRecord in
      let buf := buf +:+ (Cache.newline +:+ Cache.newline) in
      let buf := buf +:+ pemCert serv in
      let buf := buf +:+ (Cache.newline +:+ Cache.newline) in
      let buf :=
        foldl (λ buf part, (buf +:+ part) +:+ Cache.newline) buf sigParts in
      let buf := buf +:+ Cache.newline in
      (buf, None)
    end
  end.

(** The search loop of [RemoveClient]: the index of the first entry that
    is [client], counted from [i], or -1. *)
Fixpoint findClient (client : ClientRef) (entries : list ClientRef) (i : Z) : Z :=
  match entries with
  | [] => (-1)%Z
  | entry :: rest =>
      if decide (client = entry) then i else findClient client rest (i + 1)
  end.

(** [RemoveClient]: the service, the clients it has called [Close] on, and
    the error. *)
Definition RemoveClient (serv : Service) (client : ClientRef)
    : Service * list ClientRef * error :=
  let index := findClient client (clients serv) 0 in
  if decide (index = -1)%Z then (serv, [], Some "unknown client")
  else
    let clients' :=
      take (Z.to_nat index) (clients serv)
        ++ drop (Z.to_nat (index + 1)) (clients serv) in
    (mkService (sector serv) (name serv) (humanName serv) (isRunning serv)
               clients' (pemCert serv) (privateKey serv),
     [client], None).

End Svc.

(** ** Vocabulary of the further statements *)

(** The cache a call of [DoScan] or [Refresh] leaves. *)
Definition cacheOf (outcome : Cache.Outcome) : Cache.ServiceCache :=
  match outcome with
  | Cache.Returned _ cache => cache
  | Cache.Panicked _ cache => cache
  end.

(** [identIndex] binds every proxy under its own ident. *)
Definition keyedByIdent (cache : Cache.ServiceCache) : Prop :=
  ∀ key proxy, Cache.identIndex cache !! key = Some proxy → ident proxy = key.

(** Under every key, the list of [index0] is the beginning of the list of
    [index]. *)
Definition extends (index0 index : gmap string (list ServiceProxy)) : Prop :=
  ∀ key, default [] (index0 !! key) `prefix_of` default [] (index !! key).

(** What the loop of [DoScan] does with the proxy of a block once it has
    been built: with verification on, a proxy that does not validate is
    taken out of [identIndex]; any other proxy is stored. *)
Definition takeIn {codec : ProxyCodec} (cache : Cache.ServiceCache)
    (serviceProxy : ServiceProxy) : Cache.ServiceCache :=
  if Cache.verifyRecords cache then
    match Validate serviceProxy with
    | Some _ => (Cache.removeNoLock cache serviceProxy).1
    | None => Cache.storeNoLock cache serviceProxy
    end
  else Cache.storeNoLock cache serviceProxy.

(** A record block of the cache file, by its lines: the lines before its
    separator, the class-records line, the lines of the certificate and
    the lines of the signature. *)
Record Block := mkBlock {
  blockSlop : list string;
  blockRecords : string;
  blockCert : list string;
  blockSig : list string }.

(** The lines of a block in the file: the separator, the class records, a
    blank line, the certificate, a blank line, the signature, a blank
    line. *)
Definition blockLines (block : Block) : list string :=
  blockSlop block
    ++ Cache.sep :: blockRecords block :: "" :: blockCert block
    ++ "" :: blockSig block ++ [""].

(** No line before the separator is a separator, the class-records line is
    not empty, and the certificate and the signature have at least one line
    each, none of them empty and, in the signature, none a separator. *)
Definition wellFormedBlock (block : Block) : Prop :=
  Forall (λ line, line ≠ Cache.sep) (blockSlop block)
  ∧ blockRecords block ≠ ""
  ∧ blockCert block ≠ []
  ∧ Forall (λ line, line ≠ "") (blockCert block)
  ∧ blockSig block ≠ []
  ∧ Forall (λ line, line ≠ "" ∧ line ≠ Cache.sep) (blockSig block).

(** Lines joined by newlines, with none at the end. *)
Fixpoint joinLines (lines : list string) : string :=
  match lines with
  | [] => ""
  | [line] => line
  | line :: rest => line +:+ Cache.newline +:+ joinLines rest
  end.

(** [c] occurs in [s]. *)
Fixpoint hasChar (c : ascii) (s : string) : bool :=
  match s with
  | "" => false
  | String c' s' => bool_decide (c = c') || hasChar c s'
  end.

(** A string without line feed and carriage return. *)
Definition plain (s : string) : Prop :=
  hasChar bufio.newlineChar s = false ∧ hasChar bufio.crChar s = false.

(** [sub] occurs in [s] at byte [i]. *)
Definition occursAt (sub s : string) (i : nat) : Prop :=
  ∃ before after, s = before +:+ sub +:+ after ∧ String.length before = i.

(** The ACK packets that answer DATA packets with the given bodies on
    message [msgno], [written] bytes having been received before: each
    carries the running total. *)
Fixpoint acksFor (msgno written : N) (bodies : list string) : list Packet :=
  match bodies with
  | [] => []
  | blob :: rest =>
      let written := wrap64 (written + N.of_nat (String.length blob)) in
      Conn.ackPacketFor msgno written :: acksFor msgno written rest
  end.

(** Every tracked message has a number below the next expected one, and
    the next expected number is the count of the messages tracked or
    delivered. *)
Definition inSequence {wire : Wire} (conn : Conn.Connection) : Prop :=
  (∀ n msg, Conn.pktToMsg conn !! n = Some msg → (n < Conn.incomingmsgno conn)%N)
  ∧ Conn.incomingmsgno conn
    = N.of_nat (size (Conn.pktToMsg conn) + length (Conn.msgs conn)).

(** The write half after the packets have been written one after the
    other by [Send], none of the writes failing. *)
Definition afterPackets {wire : Wire} (w : Writer) (pkts : list Packet) : Writer :=
  foldl (λ w pkt,
           if enableWriteTee then debuggerNewline (pktWrite true w pkt).1
           else (pktWrite false w pkt).1) w pkts.

(** ** More sample collaborators *)

Module Demo.

(** Two blocks, the second with a line of slop before its separator. *)
Definition blockA : Block := mkBlock [] "A" ["CERT"] ["SIG"].
Definition blockB : Block :=
  mkBlock ["# next"] "B" ["CERT-B1"; "CERT-B2"] ["SIG-B1"; "SIG-B2"].

(** A signature of 100 bytes, which takes two rows. *)
Definition longSignature : string :=
  "QUJDREVGR0hJSktMTU5PUFFSU1RVVldYWVphYmNkZWZnaGlqa2xtbm9wcXJzdHV2d3h5ejAxMjM0NTY3ODkrL0FCQ0RFRkdISUpL".

(** An announcer whose class records are the name of the service in
    braces and whose signatures are all [longSignature]. *)
Definition announcer : Svc.Announcer :=
  {| Svc.serviceAsServiceProxy := λ serv,
       Sample.proxyOf ("{" +:+ Svc.name serv +:+ "}") (Svc.pemCert serv) "";
     Svc.MarshalJSON := λ proxy, inl (rawClassRecords proxy);
     Svc.signSHA256 := λ text key, inl longSignature |}.

(** A proxy constructor that refuses the class records [BAD]. *)
Definition pickyCodec : ProxyCodec :=
  {| NewServiceProxy := λ classRecordsRaw certRaw sigRaw,
       if decide (classRecordsRaw = "BAD") then inr "no class records"
       else inl (Sample.proxyOf classRecordsRaw certRaw sigRaw);
     Validate := λ _, None |}.

(** A well-formed block for [Sample.proxyA], a block that the picky
    constructor refuses, and a well-formed block behind it. *)
Definition goodThenRefused : string :=
  Sample.unlines ["%%%"; "A"; ""; "CERT"; ""; "SIG"; "";
                  "%%%"; "BAD"; ""; "CERT-X"; ""; "SIG-X"; "";
                  "%%%"; "C"; ""; "CERT-C"; ""; "SIG-C"; ""].

Definition certLines : list string :=
  ["-----BEGIN CERTIFICATE-----"; "TUlJQ0hqQ0NBWWVnQXdJQkFnSUpBS";
   "-----END CERTIFICATE-----"].

Definition service : Svc.Service :=
  Svc.mkService "main" "helloworld-c2NhbXA" "helloworld" false [7%N; 9%N; 7%N]
    (joinLines certLines) "key".

End Demo.

(** What is still to come from a scanner: the unread tokens and, behind
    a line too long for the buffer, the one token the buffer holds. *)
Definition pending (s : bufio.Scanner) : nat :=
  length (bufio.unread s) + length (option_list (bufio.overflow s)).

(** The loop of [DoScan] stores the proxy: verification is off, or the
    proxy validates. *)
Definition accepted {codec : ProxyCodec} (cache : Cache.ServiceCache)
    (proxy : ServiceProxy) : bool :=
  negb (Cache.verifyRecords cache) || bool_decide (Validate proxy = None).

(** The two ways in which a block is malformed for [DoScan], by the lines
    from the end of the block before it, with the error [DoScan] returns:
    the line after the class records is not empty; or the block has all its
    parts and [NewServiceProxy] refuses them. *)
Inductive Malformed {codec : ProxyCodec} : list string → string → Prop :=
| NoBlankLine (slop : list string) (classRecordsRaw junk : string)
      (rest : list string) :
    Forall (λ line, line ≠ Cache.sep) slop →
    classRecordsRaw ≠ "" → junk ≠ "" →
    Malformed (slop ++ Cache.sep :: classRecordsRaw :: junk :: rest)
              "expected newline after class records"
| ProxyRefused (block : Block) (reason : string) (rest : list string) :
    wellFormedBlock block →
    NewServiceProxy (blockRecords block) (joinLines (blockCert block))
                    (joinLines (blockSig block)) = inr reason →
    Malformed (blockLines block ++ rest) ("NewServiceProxy: " +:+ reason).

(** The bytes the codec writes for the packets, in their order. *)
Definition wireBytes (frames : Packet → list string) (pkts : list Packet) : string :=
  GoString.join (pkts ≫= frames).

(** * Properties *)

(** ** Byte sequences *)

Section GoStringFacts.
Import GoString.

Lemma str_app_cons (c : ascii) (s t : string) :
  String c s +:+ t = String c (s +:+ t).
Proof. reflexivity. Qed.

Lemma str_app_nil_r (s : string) : s +:+ "" = s.
Proof. induction s as [|c s IH]; [done|]. by rewrite str_app_cons, IH. Qed.

Lemma str_app_assoc (s t u : string) : (s +:+ t) +:+ u = s +:+ t +:+ u.
Proof. induction s as [|c s IH]; [done|]. by rewrite !str_app_cons, IH. Qed.

Lemma str_length_app (s t : string) :
  String.length (s +:+ t) = String.length s + String.length t.
Proof.
  induction s as [|c s IH]; [done|]. rewrite str_app_cons. cbn. by rewrite IH.
Qed.

Lemma str_length_0 (s : string) : String.length s = 0 ↔ s = "".
Proof. by destruct s. Qed.

Lemma str_app_inv_tail (s s' t : string) : s +:+ t = s' +:+ t → s = s'.
Proof.
  revert s'. induction s as [|c s IH]; intros [|c' s'] Heq; [done| | |].
  - apply (f_equal String.length) in Heq.
    rewrite !str_length_app in Heq. cbn in Heq. lia.
  - apply (f_equal String.length) in Heq.
    rewrite !str_length_app in Heq. cbn in Heq. lia.
  - rewrite !str_app_cons in Heq. injection Heq as -> Heq. f_equal. by apply IH.
Qed.

(** [s[:n] + s[n:] == s] *)
Lemma take_drop_id (n : nat) (s : string) : take n s +:+ drop n s = s.
Proof.
  revert s. induction n as [|n IH]; intros [|c s]; try done.
  cbn. by rewrite str_app_cons, IH.
Qed.

Lemma length_take_min (n : nat) (s : string) :
  String.length (take n s) = n `min` String.length s.
Proof.
  revert s. induction n as [|n IH]; intros [|c s]; try done.
  cbn. by rewrite IH.
Qed.

Lemma take_app_exact (s t : string) : take (String.length s) (s +:+ t) = s.
Proof.
  induction s as [|c s IH]; [by destruct t|].
  rewrite str_app_cons. cbn. by rewrite IH.
Qed.

End GoStringFacts.

(** ** [stringToRows] *)

Section RowsFacts.
Import Rows.

Lemma stringToRows_loop_spec (output : list string) (substr : string) :
  ∃ rows, stringToRows_loop output substr = output ++ rows
          ∧ GoString.join rows = substr
          ∧ rowsOk rows
          ∧ rows ≠ [].
Proof.
  funelim (stringToRows_loop output substr).
  - match goal with
    | IH : ∃ _, _ |- _ => destruct IH as (rows & Hrows & Hjoin & Hok & _)
    end.
    exists (GoString.take 76 substr :: rows). split_and!.
    + rewrite Hrows. by rewrite <- (assoc_L (++)).
    + change (GoString.take 76 substr +:+ GoString.join rows = substr).
      rewrite Hjoin. apply take_drop_id.
    + constructor; [|done]. rewrite length_take_min. lia.
    + done.
  - exists [substr]. split_and!; try done.
    + apply str_app_nil_r.
    + constructor; [lia|constructor].
Qed.

(** C9.  Whatever [rowlen] is, the rows of [stringToRows] are at most 76
    bytes long and their concatenation is the input; an input of at most 76
    bytes comes back as the single row it is. *)
Theorem stringToRows_wraps_at_76 (input : string) (rowlen : Z) :
  Forall (λ row, String.length row ≤ 76) (stringToRows input rowlen)
  ∧ GoString.join (stringToRows input rowlen) = input
  ∧ (String.length input ≤ 76 → stringToRows input rowlen = [input]).
Proof.
  unfold stringToRows. case_decide as Hlen.
  - split_and!; [|apply str_app_nil_r|done].
    constructor; [done|constructor].
  - destruct (stringToRows_loop_spec [] input) as (rows & -> & Hjoin & Hok & _).
    split_and!; [done|done|lia].
Qed.

Lemma stringToRows_wraps_at_76_witness :
  String.length "c2lnbmF0dXJl" ≤ 76
  ∧ stringToRows "c2lnbmF0dXJl" 76 = ["c2lnbmF0dXJl"].
Proof.
  split; [cbn; lia|].
  apply (stringToRows_wraps_at_76 "c2lnbmF0dXJl" 76). cbn. lia.
Defined.

End RowsFacts.

(** ** The service cache *)

Section ScannerFacts.
Import bufio Cache.

(** The inner loops of [DoScan], written by recursion on the unread lines,
    are the loops of the source over [s.Scan()] and [s.Bytes()]. *)
Lemma skipSlop_Scan (s : Scanner) :
  skipSlop (unread s) (overflow s) =
    let '(didScan, s') := Scan s in
    if bool_decide (Bytes s' = sep) || negb didScan then (didScan, s')
    else skipSlop (unread s') (overflow s').
Proof.
  unfold Scan. destruct (unread s) as [|line rest]; [done|].
  cbn. by case_bool_decide.
Qed.

Lemma readCert_Scan (s : Scanner) (certBuffer : string) :
  readCert (unread s) (overflow s) certBuffer =
    let '(more, s') := Scan s in
    if more then
      if bool_decide (String.length (Bytes s') = 0) then (certBuffer, s')
      else readCert (unread s') (overflow s') ((certBuffer +:+ Bytes s') +:+ newline)
    else (certBuffer, s').
Proof. unfold Scan. by destruct (unread s). Qed.

Lemma readSig_Scan (s : Scanner) (sigBuffer : string) :
  readSig (unread s) (overflow s) sigBuffer =
    let '(more, s') := Scan s in
    if more then
      if bool_decide (String.length (Bytes s') = 0) then (sigBuffer, s')
      else if bool_decide (Bytes s' = sep) then (sigBuffer, s')
      else readSig (unread s') (overflow s') ((sigBuffer +:+ Bytes s') +:+ newline)
    else (sigBuffer, s').
Proof. unfold Scan. by destruct (unread s). Qed.

(** No loop puts tokens back, a separator that was found was taken, and
    so was a token that is not empty. *)
Lemma skipSlop_pending (lines : list string) (o : option string) (s' : Scanner) :
  skipSlop lines o = (true, s') →
  pending s' < length lines + length (option_list o).
Proof.
  induction lines as [|line rest IH]; cbn; [done|].
  case_bool_decide; intros Heq.
  - simplify_eq. unfold pending. cbn. lia.
  - specialize (IH Heq). lia.
Qed.

Lemma Scan_pending (s s' : Scanner) (more : bool) :
  Scan s = (more, s') →
  pending s' ≤ pending s ∧ (Bytes s' ≠ "" → pending s' < pending s).
Proof.
  unfold Scan, pending. destruct (unread s); intros; simplify_eq; cbn.
  - split; [lia|done].
  - lia.
Qed.

Lemma readCert_pending (lines : list string) (o : option string)
    (buf buf' : string) (s' : Scanner) :
  readCert lines o buf = (buf', s') →
  pending s' ≤ length lines + length (option_list o).
Proof.
  revert buf. induction lines as [|line rest IH]; intros buf; cbn.
  - intros; simplify_eq. unfold pending. cbn. lia.
  - case_bool_decide; intros Heq.
    + simplify_eq. unfold pending. cbn. lia.
    + apply IH in Heq. lia.
Qed.

Lemma readSig_pending (lines : list string) (o : option string)
    (buf buf' : string) (s' : Scanner) :
  readSig lines o buf = (buf', s') →
  pending s' ≤ length lines + length (option_list o).
Proof.
  revert buf. induction lines as [|line rest IH]; intros buf; cbn.
  - intros; simplify_eq. unfold pending. cbn. lia.
  - repeat case_bool_decide; intros Heq.
    + simplify_eq. unfold pending. cbn. lia.
    + simplify_eq. unfold pending. cbn. lia.
    + apply IH in Heq. lia.
Qed.

End ScannerFacts.

(** Both branches of the test in [storeNoLock] bind the ident to the
    instance. *)
Lemma storeNoLock_identIndex (cache : Cache.ServiceCache) (instance : ServiceProxy) :
  Cache.identIndex (Cache.storeNoLock cache instance)
  = <[ident instance := instance]> (Cache.identIndex cache).
Proof. cbn. by destruct (Cache.identIndex cache !! ident instance). Qed.

Section CacheFacts.
Import bufio Cache.
Context {codec : ProxyCodec}.

(** An iteration of the outer loop that goes on has taken the separator
    and the class-records line, so the loop ends within half as many
    iterations as there are tokens to come, and one. *)
Lemma scanBlocks_pending (fuel : nat) (cache : ServiceCache) (s : Scanner) :
  pending s < 2 * fuel → is_Some (scanBlocks fuel cache s).
Proof.
  revert cache s. induction fuel as [|fuel IH]; intros cache s Hfuel; [lia|].
  cbn [scanBlocks].
  destruct (skipSlop (unread s) (overflow s)) as [didScan s1] eqn:Hslop.
  destruct didScan; cbn [negb]; [|done].
  apply skipSlop_pending in Hslop. fold (pending s) in Hslop.
  destruct (Scan s1) as [more2 s2] eqn:Hrecords.
  case_bool_decide as Hempty; [done|].
  apply Scan_pending in Hrecords as [_ Hrecords].
  specialize (Hrecords ltac:(by intros Hnil; rewrite Hnil in Hempty)).
  destruct (Scan s2) as [more3 s3] eqn:Hblank.
  case_bool_decide; [done|].
  apply Scan_pending in Hblank as [Hblank _].
  destruct (readCert _ _ _) as [certBuffer s4] eqn:Hcert.
  apply readCert_pending in Hcert. fold (pending s3) in Hcert.
  destruct (GoString.sliceTo certBuffer _); [|done].
  destruct (readSig _ _ _) as [sigBuffer s5] eqn:Hsig.
  apply readSig_pending in Hsig. fold (pending s4) in Hsig.
  destruct (GoString.sliceTo sigBuffer _); [|done].
  destruct (NewServiceProxy _ _ _) as [serviceProxy|err]; [|done].
  destruct (verifyRecords cache).
  - destruct (Validate serviceProxy).
    + destruct (removeNoLock cache serviceProxy). apply IH. lia.
    + apply IH. lia.
  - apply IH. lia.
Qed.

(** The outer loop of [DoScan] ends within the fuel [DoScan] gives it. *)
Lemma scanBlocks_fuel (fuel : nat) (cache : ServiceCache) (s : Scanner) :
  length (unread s) < fuel → is_Some (scanBlocks fuel cache s).
Proof.
  intros Hfuel. apply scanBlocks_pending. unfold pending.
  destruct (overflow s); cbn; lia.
Qed.

Lemma DoScan_ends (cache : ServiceCache) (s : Scanner) :
  ∃ outcome, DoScan cache s = Some outcome.
Proof. apply scanBlocks_fuel. unfold scanFuel. lia. Qed.

(** More fuel than needed changes nothing. *)
Lemma scanBlocks_more_fuel (fuel fuel' : nat) (cache : ServiceCache) (s : Scanner)
    (outcome : Outcome) :
  scanBlocks fuel cache s = Some outcome → fuel ≤ fuel' →
  scanBlocks fuel' cache s = Some outcome.
Proof.
  revert fuel' cache s. induction fuel as [|fuel IH]; intros fuel' cache s; [done|].
  destruct fuel' as [|fuel']; [lia|]. intros Hrun Hle.
  cbn [scanBlocks] in *.
  repeat (case_match; simplify_eq/=; try done); eapply IH; eauto; lia.
Qed.

(** C1.  [DisableRecordVerification] leaves the flag set, and
    [EnableRecordVerification] is the call that clears it: the two bodies
    are the wrong way round. *)
Theorem verification_switches_are_swapped (cache : ServiceCache) :
  verifyRecords (DisableRecordVerification cache) = true
  ∧ verifyRecords (EnableRecordVerification cache) = false
  ∧ verifyRecords (DisableRecordVerification (NewServiceCache (path cache)))
      = verifyRecords (NewServiceCache (path cache)).
Proof. done. Qed.

(** C10.  A block that ends, or has a blank line, where its certificate
    should start, and a block that ends where its signature should start,
    make [DoScan] slice an empty buffer to length -1: the scan panics,
    whatever the proxy constructor and the cache are. *)
Theorem DoScan_panics_on_empty_section (cache : ServiceCache) :
  DoScan cache (NewScanner Sample.blankForCertificate)
    = Some (Panicked sliceBoundsPanic (clearNoLock cache))
  ∧ DoScan cache (NewScanner Sample.endsBeforeCertificate)
    = Some (Panicked sliceBoundsPanic (clearNoLock cache))
  ∧ DoScan cache (NewScanner Sample.endsBeforeSignature)
    = Some (Panicked sliceBoundsPanic (clearNoLock cache)).
Proof. split_and!; reflexivity. Qed.

Lemma skipSlop_to_separator (slop rest : list string) (o : option string) :
  Forall (λ line, line ≠ sep) slop →
  skipSlop (slop ++ sep :: rest) o = (true, scanning rest sep o).
Proof.
  induction 1 as [|line slop Hline _ IH]; cbn.
  - by rewrite bool_decide_eq_true_2.
  - by rewrite bool_decide_eq_false_2.
Qed.

(** An iteration of the loop that meets a block whose class-records line
    is followed by a line that is not empty. *)
Lemma scanBlocks_malformed_block (fuel : nat) (cache : ServiceCache)
    (slop : list string) (classRecordsRaw junk : string) (rest : list string)
    (tok : string) :
  Forall (λ line, line ≠ sep) slop → classRecordsRaw ≠ "" → junk ≠ "" →
  scanBlocks (S fuel) cache
      (mkScanner (slop ++ sep :: classRecordsRaw :: junk :: rest) tok)
    = Some (Returned (Some "expected newline after class records") cache).
Proof.
  intros Hslop Hrecords Hjunk. cbn [scanBlocks unread].
  rewrite skipSlop_to_separator by done. cbn.
  rewrite bool_decide_eq_false_2 by (by rewrite str_length_0).
  rewrite bool_decide_eq_true_2 by (by rewrite str_length_0).
  done.
Qed.

(** The panic in general: a block whose class-records line and blank line
    are followed by a blank line, or by nothing, has no certificate line,
    and slicing the empty buffer panics in whatever state the cache is. *)
Lemma scanBlocks_panics_without_certificate (fuel : nat) (cache : ServiceCache)
    (slop : list string) (classRecordsRaw : string) (rest : list string)
    (tok : string) :
  Forall (λ line, line ≠ sep) slop → classRecordsRaw ≠ "" →
  head rest = None ∨ head rest = Some "" →
  scanBlocks (S fuel) cache
      (mkScanner (slop ++ sep :: classRecordsRaw :: "" :: rest) tok)
    = Some (Panicked sliceBoundsPanic cache).
Proof.
  intros Hslop Hrecords Hrest. cbn [scanBlocks unread].
  rewrite skipSlop_to_separator by done. cbn [negb Scan unread Bytes token].
  rewrite bool_decide_eq_false_2 by (by rewrite str_length_0).
  rewrite bool_decide_eq_false_2 by (cbn; lia).
  destruct rest as [|line rest]; [done|].
  destruct Hrest as [?|[= ->]]; done.
Qed.

(** The inner loops on the lines of a well-formed block. *)
Lemma readCert_lines (cert rest : list string) (o : option string)
    (certBuffer : string) :
  Forall (λ line, line ≠ "") cert →
  readCert (cert ++ "" :: rest) o certBuffer
  = (certBuffer +:+ buffered cert, scanning rest "" o).
Proof.
  intros Hcert. revert certBuffer.
  induction Hcert as [|line cert Hline _ IH]; intros certBuffer; cbn.
  - by rewrite str_app_nil_r.
  - rewrite bool_decide_eq_false_2 by (by rewrite str_length_0).
    by rewrite IH, !str_app_assoc.
Qed.

Lemma readSig_lines (sig rest : list string) (o : option string)
    (sigBuffer : string) :
  Forall (λ line, line ≠ "" ∧ line ≠ sep) sig →
  readSig (sig ++ "" :: rest) o sigBuffer
  = (sigBuffer +:+ buffered sig, scanning rest "" o).
Proof.
  intros Hsig. revert sigBuffer.
  induction Hsig as [|line sig [Hline Hsep] _ IH]; intros sigBuffer; cbn.
  - by rewrite str_app_nil_r.
  - rewrite bool_decide_eq_false_2 by (by rewrite str_length_0).
    rewrite bool_decide_eq_false_2 by done.
    by rewrite IH, !str_app_assoc.
Qed.

(** Stripping the last newline of a buffer that holds at least one line. *)
Lemma buffered_strip (lines : list string) :
  lines ≠ [] →
  ∃ raw, raw +:+ newline = buffered lines
         ∧ GoString.sliceTo (buffered lines)
             (Z.of_nat (String.length (buffered lines)) - 1) = Some raw.
Proof.
  intros Hlines.
  assert (∃ raw, raw +:+ newline = buffered lines) as [raw Hraw].
  { induction lines as [|line [|line' lines] IH]; [done| |].
    - exists line. cbn. by rewrite str_app_nil_r.
    - destruct IH as [raw Hraw]; [done|].
      exists ((line +:+ newline) +:+ raw).
      change (buffered (line :: line' :: lines))
        with ((line +:+ newline) +:+ buffered (line' :: lines)).
      by rewrite <- Hraw, !str_app_assoc. }
  exists raw. split; [done|]. rewrite <- Hraw. unfold GoString.sliceTo.
  rewrite str_length_app. cbn [String.length newline].
  rewrite decide_True by lia.
  replace (Z.to_nat (Z.of_nat (String.length raw + 1) - 1))
    with (String.length raw) by lia.
  by rewrite take_app_exact.
Qed.

(** An iteration of the loop on a well-formed block: the three blobs go to
    [NewServiceProxy], and the scan goes on behind the blank line that
    ends the signature. *)
Lemma scanBlocks_block (fuel : nat) (cache : ServiceCache)
    (slop : list string) (classRecordsRaw : string) (cert sig rest : list string)
    (tok : string) :
  Forall (λ line, line ≠ sep) slop → classRecordsRaw ≠ "" →
  cert ≠ [] → Forall (λ line, line ≠ "") cert →
  sig ≠ [] → Forall (λ line, line ≠ "" ∧ line ≠ sep) sig →
  ∃ certRaw sigRaw,
    certRaw +:+ newline = buffered cert
    ∧ sigRaw +:+ newline = buffered sig
    ∧ scanBlocks (S fuel) cache
        (mkScanner (slop ++ sep :: classRecordsRaw :: ""
                      :: cert ++ "" :: sig ++ "" :: rest) tok)
      = match NewServiceProxy classRecordsRaw certRaw sigRaw with
        | inr err => Some (Returned (Some ("NewServiceProxy: " +:+ err)) cache)
        | inl serviceProxy =>
            if verifyRecords cache then
              match Validate serviceProxy with
              | Some _ =>
                  scanBlocks fuel (removeNoLock cache serviceProxy).1
                             (mkScanner rest "")
              | None =>
                  scanBlocks fuel (storeNoLock cache serviceProxy)
                             (mkScanner rest "")
              end
            else scanBlocks fuel (storeNoLock cache serviceProxy)
                            (mkScanner rest "")
        end.
Proof.
  intros Hslop Hrecords Hcert0 Hcert Hsig0 Hsig.
  destruct (buffered_strip cert Hcert0) as (certRaw & HcertRaw & Hcut).
  destruct (buffered_strip sig Hsig0) as (sigRaw & HsigRaw & Hcut').
  exists certRaw, sigRaw. split_and!; [done|done|].
  cbn [scanBlocks unread].
  rewrite skipSlop_to_separator by done. cbn [negb Scan unread Bytes token].
  rewrite bool_decide_eq_false_2 by (by rewrite str_length_0).
  rewrite bool_decide_eq_false_2 by (cbn; lia).
  rewrite readCert_lines by done. cbn [unread].
  change ("" +:+ buffered cert) with (buffered cert). rewrite Hcut.
  rewrite readSig_lines by done.
  change ("" +:+ buffered sig) with (buffered sig). rewrite Hcut'.
  destruct (NewServiceProxy _ _ _) as [serviceProxy|err]; [|done].
  destruct (verifyRecords cache); [|done].
  destruct (Validate serviceProxy); [|done].
  by destruct (removeNoLock cache serviceProxy).
Qed.

(** A well-formed block whose proxy is accepted, then a malformed one: the
    error is returned and the proxy of the first block is in the cache. *)
Lemma DoScan_good_then_malformed (cache : ServiceCache)
    (classRecordsRaw : string) (cert sig slop : list string)
    (classRecordsRaw' junk : string) (rest : list string)
    (certRaw sigRaw : string) (serviceProxy : ServiceProxy) :
  classRecordsRaw ≠ "" →
  cert ≠ [] → Forall (λ line, line ≠ "") cert →
  sig ≠ [] → Forall (λ line, line ≠ "" ∧ line ≠ sep) sig →
  Forall (λ line, line ≠ sep) slop → classRecordsRaw' ≠ "" → junk ≠ "" →
  certRaw +:+ newline = buffered cert →
  sigRaw +:+ newline = buffered sig →
  NewServiceProxy classRecordsRaw certRaw sigRaw = inl serviceProxy →
  (verifyRecords cache = true → Validate serviceProxy = None) →
  DoScan cache
    (mkScanner (sep :: classRecordsRaw :: "" :: cert ++ "" :: sig ++ ""
                  :: slop ++ sep :: classRecordsRaw' :: junk :: rest) "")
  = Some (Returned (Some "expected newline after class records")
                   (storeNoLock (clearNoLock cache) serviceProxy))
  ∧ Retrieve (storeNoLock (clearNoLock cache) serviceProxy) (ident serviceProxy)
    = Some serviceProxy.
Proof.
  intros Hrecords Hcert0 Hcert Hsig0 Hsig Hslop Hrecords' Hjunk
         HcertRaw HsigRaw Hnew Hvalid.
  split.
  2:{ unfold Retrieve. rewrite storeNoLock_identIndex. apply lookup_insert_eq. }
  unfold DoScan, scanFuel. cbn [unread].
  destruct (scanBlocks_block
              (length (sep :: classRecordsRaw :: "" :: cert ++ "" :: sig ++ ""
                         :: slop ++ sep :: classRecordsRaw' :: junk :: rest))
              (clearNoLock cache) [] classRecordsRaw cert sig
              (slop ++ sep :: classRecordsRaw' :: junk :: rest) "")
    as (certRaw' & sigRaw' & HcertRaw' & HsigRaw' & Hstep); try done.
  assert (certRaw' = certRaw) as ->.
  { eapply str_app_inv_tail. by rewrite HcertRaw, HcertRaw'. }
  assert (sigRaw' = sigRaw) as ->.
  { eapply str_app_inv_tail. by rewrite HsigRaw, HsigRaw'. }
  cbn [app] in Hstep. rewrite Hstep, Hnew.
  assert (verifyRecords (clearNoLock cache) = true → Validate serviceProxy = None)
    as Hvalid' by done.
  destruct (verifyRecords (clearNoLock cache));
    [rewrite Hvalid' by done|]; by apply scanBlocks_malformed_block.
Qed.

End CacheFacts.

(** A block that [NewServiceProxy] refuses ends the scan with its error;
    the proxy of the block before it stays in the cache, and the block
    behind it is not read. *)
Example refused_block_keeps_earlier_proxies :
  ∃ cache,
    Cache.Refresh (codec := Demo.pickyCodec)
        (Cache.NewServiceCache "discovery.cache")
        (Cache.RegularFile Demo.goodThenRefused)
      = Some (Cache.Returned (Some "NewServiceProxy: no class records") cache)
    ∧ Cache.Retrieve cache "A" = Some Sample.proxyA
    ∧ Cache.Retrieve cache "C" = None
    ∧ Cache.Size cache = 1
    ∧ Cache.SearchByAction cache "main" "Cls.do" 1 "json" = [Sample.proxyA].
Proof. eexists. split; [vm_compute; reflexivity|]. split_and!; by vm_compute. Qed.

(** C2, as the claim has it, fails: the second block of
    [Sample.goodThenMalformed] is malformed and [Refresh] returns the
    error, yet the proxy of the first block is still found by [Retrieve],
    [Size], [All] and [SearchByAction]. *)
Lemma Refresh_error_keeps_earlier_proxies :
  ∃ cache,
    Cache.Refresh (codec := Sample.trustingCodec)
        (Cache.NewServiceCache "discovery.cache")
        (Cache.RegularFile Sample.goodThenMalformed)
      = Some (Cache.Returned (Some "expected newline after class records") cache)
    ∧ Cache.Retrieve cache "A" = Some Sample.proxyA
    ∧ Cache.Size cache = 1
    ∧ Cache.All cache = [Sample.proxyA]
    ∧ Cache.SearchByAction cache "main" "Cls.do" 1 "json" = [Sample.proxyA].
Proof. eexists. split; [vm_compute; reflexivity|]. split_and!; by vm_compute. Qed.

(** ** The two indexes *)

Section IndexFacts.
Import Cache.

Lemma foldl_keeps {A B} (P : A → Prop) (f : A → B → A) (l : list B) (a : A) :
  P a → (∀ a b, P a → P (f a b)) → P (foldl f a l).
Proof. intros Ha Hf. revert a Ha. induction l; cbn; auto. Qed.

Lemma indexUnder_listsOnly (instance : ServiceProxy)
    (index0 index : gmap string (list ServiceProxy)) (mungedName : string) :
  listsOnly instance index0 index →
  listsOnly instance index0 (indexUnder instance index mungedName).
Proof.
  intros Hidx key proxies proxy. unfold indexUnder.
  destruct (decide (mungedName = key)) as [-> | Hne].
  - rewrite lookup_insert_eq. intros [= <-].
    destruct (index !! key) as [old|] eqn:Hold.
    + rewrite elem_of_app, list_elem_of_singleton. intros [Hin | ->]; [|by left].
      by eapply Hidx.
    + rewrite list_elem_of_singleton. by left.
  - rewrite lookup_insert_ne by done. apply Hidx.
Qed.

Lemma storeNoLock_actionIndex (cache : ServiceCache) (instance : ServiceProxy) :
  listsOnly instance (actionIndex cache) (actionIndex (storeNoLock cache instance)).
Proof.
  cbn. apply foldl_keeps; [by right; eauto|]. intros ? class ?.
  apply foldl_keeps; [done|]. intros ? action ?.
  apply foldl_keeps; [done|]. intros ? protocol ?.
  by apply indexUnder_listsOnly.
Qed.

Lemma storeNoLock_indexed (stored : list ServiceProxy) (cache : ServiceCache)
    (instance : ServiceProxy) :
  indexed stored cache → indexed (stored ++ [instance]) (storeNoLock cache instance).
Proof.
  intros [Hact Hid]. split.
  - intros key proxies proxy Hkey Hin. rewrite elem_of_app, list_elem_of_singleton.
    destruct (storeNoLock_actionIndex cache instance _ _ _ Hkey Hin)
      as [-> | (proxies0 & Hkey0 & Hin0)]; [by right|left; eauto].
  - intros proxy. rewrite storeNoLock_identIndex.
    destruct (decide (ident instance = ident proxy)) as [Heq|Hne].
    + intros _. exists instance. rewrite Heq, lookup_insert_eq.
      split_and!; [done|done|]. rewrite elem_of_app, list_elem_of_singleton. by right.
    + rewrite elem_of_app, list_elem_of_singleton. intros [Hin| ->]; [|done].
      destruct (Hid _ Hin) as (latest & Hl & Hi & Hs).
      exists latest. rewrite lookup_insert_ne by done.
      split_and!; [done|done|]. rewrite elem_of_app. by left.
Qed.

Lemma Store_all_indexed (path : string) (instances : list ServiceProxy) :
  indexed instances (foldl Store (NewServiceCache path) instances).
Proof.
  induction instances as [|instance instances IH] using rev_ind.
  - split; [|by intros ? ?%elem_of_nil]. intros key proxies proxy. cbn.
    by rewrite lookup_empty.
  - rewrite foldl_snoc. by apply storeNoLock_indexed.
Qed.

Lemma foldl_reaches {A B} (Q : A → Prop) (f : A → B → A) (l : list B) (a : A)
    (x : B) :
  x ∈ l → (∀ a, Q (f a x)) → (∀ a b, Q a → Q (f a b)) → Q (foldl f a l).
Proof.
  intros Hx Hset Hkeep. revert a.
  induction l as [|y l IH]; intros a; [by apply elem_of_nil in Hx|].
  apply elem_of_cons in Hx as [<- | Hx]; cbn.
  - by apply foldl_keeps.
  - by apply IH.
Qed.

Lemma indexUnder_lists (instance : ServiceProxy)
    (index : gmap string (list ServiceProxy)) (mungedName : string) :
  listedUnder instance mungedName (indexUnder instance index mungedName).
Proof.
  unfold listedUnder, indexUnder. rewrite lookup_insert_eq. eexists. split; [done|].
  destruct (index !! mungedName); set_solver.
Qed.

Lemma indexUnder_keeps (instance other : ServiceProxy) (key mungedName : string)
    (index : gmap string (list ServiceProxy)) :
  listedUnder other key index →
  listedUnder other key (indexUnder instance index mungedName).
Proof.
  intros (proxies & Hkey & Hin). unfold listedUnder, indexUnder.
  destruct (decide (mungedName = key)) as [-> | Hne].
  - rewrite lookup_insert_eq, Hkey. eexists. split; [done|]. set_solver.
  - rewrite lookup_insert_ne by done. eauto.
Qed.

(** The key [storeNoLock] files an action under is the key
    [SearchByAction] builds from the joined [class.action]. *)
Lemma storeKey_joined (sector className actionName : string) (version : Z)
    (protocol : string) :
  storeKey sector className actionName version protocol
  = sector +:+ ":" +:+ (className +:+ "." +:+ actionName) +:+ "~"
      +:+ pretty version +:+ "#" +:+ protocol.
Proof. unfold storeKey. by rewrite !str_app_assoc. Qed.

Lemma SearchByAction_elem (cache : ServiceCache) (sector action : string)
    (version : Z) (envelope : string) (proxy : ServiceProxy) :
  proxy ∈ SearchByAction cache sector action version envelope →
  ∃ key proxies, actionIndex cache !! key = Some proxies ∧ proxy ∈ proxies.
Proof.
  unfold SearchByAction. cbn zeta.
  destruct (actionIndex cache !! _) as [proxies|] eqn:Hkey; cbn.
  - eauto.
  - by intros ?%elem_of_nil.
Qed.

(** C3, as the code has it.  After any sequence of [Store]s into a new
    cache, the ident of every proxy that [SearchByAction] returns is bound
    in [identIndex]: [Retrieve] finds under it a stored proxy of that
    ident, and finds the proxy itself unless another proxy was stored under
    the same ident. *)
Theorem stored_proxies_stay_indexed (path : string) (instances : list ServiceProxy)
    (sector action : string) (version : Z) (envelope : string)
    (proxy : ServiceProxy) :
  proxy ∈ SearchByAction (foldl Store (NewServiceCache path) instances)
            sector action version envelope →
  ∃ latest,
    Retrieve (foldl Store (NewServiceCache path) instances) (ident proxy)
      = Some latest
    ∧ ident latest = ident proxy
    ∧ latest ∈ instances
    ∧ ((∀ other, other ∈ instances → ident other = ident proxy → other = proxy)
       → latest = proxy).
Proof.
  intros (key & proxies & Hkey & Hin)%SearchByAction_elem.
  destruct (Store_all_indexed path instances) as [Hact Hid].
  destruct (Hid proxy (Hact _ _ _ Hkey Hin)) as (latest & Hl & Hi & Hs).
  exists latest. split_and!; auto.
Qed.

End IndexFacts.

Lemma stored_proxies_stay_indexed_witness :
  ∃ latest,
    Cache.Retrieve
      (foldl Cache.Store (Cache.NewServiceCache "discovery.cache") [Sample.proxyA])
      (ident Sample.proxyA) = Some latest
    ∧ ident latest = ident Sample.proxyA
    ∧ latest ∈ [Sample.proxyA]
    ∧ ((∀ other, other ∈ [Sample.proxyA] →
          ident other = ident Sample.proxyA → other = Sample.proxyA)
       → latest = Sample.proxyA).
Proof.
  apply (stored_proxies_stay_indexed "discovery.cache" [Sample.proxyA]
           "main" "Cls.do" 1 "json" Sample.proxyA).
  vm_compute. constructor.
Defined.

(** C3, as the claim has it, fails.  A refresh empties [identIndex] and
    leaves [actionIndex] as it is: after a refresh from an empty file a
    proxy stored before is still returned by [SearchByAction] while
    [Retrieve] no longer knows its ident.  And a second [Store] under an
    ident replaces the proxy in [identIndex] only: [SearchByAction] still
    returns the first proxy, [Retrieve] of its ident the second. *)
Lemma Refresh_leaves_stale_actions :
  (∃ cache,
     Cache.Refresh (codec := Sample.trustingCodec)
         (Cache.Store (Cache.NewServiceCache "discovery.cache") Sample.proxyA)
         (Cache.RegularFile "")
       = Some (Cache.Returned None cache)
     ∧ Cache.SearchByAction cache "main" "Cls.do" 1 "json" = [Sample.proxyA]
     ∧ Cache.Retrieve cache (ident Sample.proxyA) = None)
  ∧ Cache.SearchByAction
      (foldl Cache.Store (Cache.NewServiceCache "discovery.cache")
             [Sample.proxyA; Sample.proxyA'])
      "main" "Cls.do" 1 "json" = [Sample.proxyA; Sample.proxyA']
  ∧ Cache.Retrieve
      (foldl Cache.Store (Cache.NewServiceCache "discovery.cache")
             [Sample.proxyA; Sample.proxyA'])
      (ident Sample.proxyA) = Some Sample.proxyA'
  ∧ Sample.proxyA ≠ Sample.proxyA'.
Proof.
  split; [|split_and!; by vm_compute].
  eexists. split; [vm_compute; reflexivity|]. split; by vm_compute.
Qed.

(** ** The packet router *)

Section RouterFacts.
Import Conn.
Context {wire : Wire}.

Lemma ackBytes_writes (conn : Connection) (msgno unackedByteCount : N) :
  (ackBytes conn msgno unackedByteCount).1
  = setReadWriter conn
      (afterAck (readWriter conn) (ackPacketFor msgno unackedByteCount)).
Proof.
  unfold ackBytes, afterAck.
  by destruct (pktWrite _ _ _) as [w [e|]].
Qed.

(** [bytesWritten] is the cumulative length of the bodies received: the
    router keeps every message [counted]. *)
Lemma Write_counted (msg : Message) (blob : string) :
  counted msg → counted (Msg.Write msg blob).
Proof.
  unfold counted, Msg.Write, wrap64. cbn. intros ->.
  rewrite str_length_app, Nat2N.inj_add. apply N.Div0.add_mod_idemp_l.
Qed.

Lemma routePacket_counted (conn : Connection) (pkt : Packet) :
  allCounted conn → allCounted (routePacket conn pkt).1.
Proof.
  intros [Htracked Hsent]. unfold routePacket.
  destruct (packetType pkt); try done.
  - case_bool_decide; [done|].
    destruct (pktToMsg conn !! msgNo pkt) eqn:Hmsg; [done|].
    split; [|done]. cbn. by apply map_Forall_insert_2.
  - destruct (pktToMsg conn !! msgNo pkt) as [msg|] eqn:Hmsg; [|done].
    destruct (ackBytes _ _ _) as [conn' e] eqn:Hack.
    apply (f_equal fst) in Hack. rewrite ackBytes_writes in Hack.
    cbn [fst] in Hack. subst conn'.
    split; [|done]. cbn. apply map_Forall_insert_2; [|done].
    apply Write_counted. by eapply (Htracked _ msg).
  - destruct (pktToMsg conn !! msgNo pkt) as [msg|] eqn:Hmsg; [|done].
    split; cbn.
    + by apply map_Forall_delete.
    + apply Forall_app. split; [done|]. constructor; [|done].
      by eapply (Htracked _ msg).
  - destruct (pktToMsg conn !! msgNo pkt) as [msg|] eqn:Hmsg; [|done].
    destruct (ackBytes _ _ _) as [conn' e] eqn:Hack.
    apply (f_equal fst) in Hack. rewrite ackBytes_writes in Hack.
    cbn [fst] in Hack. subst conn'.
    assert (counted msg) as Hcounted by (by eapply (Htracked _ msg)).
    split; cbn.
    + apply map_Forall_delete. apply map_Forall_insert_2; [|done].
      by apply Write_counted; case_bool_decide.
    + apply Forall_app. split; [done|]. constructor; [|done].
      by apply Write_counted; case_bool_decide.
Qed.

Lemma routeAll_counted (conn : Connection) (pkts : list Packet) :
  allCounted conn → allCounted (routeAll conn pkts).1.
Proof.
  revert conn. induction pkts as [|pkt pkts IH]; intros conn Hconn; [done|].
  cbn [routeAll]. pose proof (routePacket_counted conn pkt Hconn) as Hstep.
  destruct (routePacket conn pkt) as [conn' [e|]]; [done|]. by apply IH.
Qed.

(** C5.  A HEADER whose number is not the expected one is refused as out
    of sequence, which ends the read loop; one whose number is already
    tracked is refused as a duplicate; any other allocates a message with
    the packet's header fields, tracks it under the packet's number and
    adds one to [incomingmsgno]. *)
Theorem routePacket_HEADER (conn : Connection) (pkt : Packet) :
  packetType pkt = HEADER →
  (msgNo pkt ≠ incomingmsgno conn →
     routePacket conn pkt
       = (conn, Some ("out of sequence msgno: expected "
                        +:+ pretty (incomingmsgno conn)
                        +:+ " but got " +:+ pretty (msgNo pkt)))
     ∧ ∀ rest, (routeAll conn (pkt :: rest)).2 ≠ None
               ∧ (routeAll conn (pkt :: rest)).1 = conn)
  ∧ (msgNo pkt = incomingmsgno conn →
     is_Some (pktToMsg conn !! msgNo pkt) →
     routePacket conn pkt
       = (conn, Some ("Bad HEADER; already tracking msgno "
                        +:+ pretty (msgNo pkt))))
  ∧ (msgNo pkt = incomingmsgno conn →
     pktToMsg conn !! msgNo pkt = None →
     ∃ msg,
       carriesHeader msg (packetHeader pkt)
       ∧ bytes msg = "" ∧ bytesWritten msg = 0%N
       ∧ routePacket conn pkt
         = (mkConnection _ (readWriter conn)
              (wrap64 (incomingmsgno conn + 1)) (outgoingmsgno conn)
              (<[msgNo pkt := msg]> (pktToMsg conn)) (msgs conn)
              (isClosed conn), None)
       ∧ ((incomingmsgno conn + 1 < 2 ^ 64)%N →
          wrap64 (incomingmsgno conn + 1) = (incomingmsgno conn + 1)%N)).
Proof.
  intros Htype. split_and!.
  - intros Hseq.
    assert (routePacket conn pkt
       = (conn, Some ("out of sequence msgno: expected "
                        +:+ pretty (incomingmsgno conn)
                        +:+ " but got " +:+ pretty (msgNo pkt)))) as Hroute.
    { unfold routePacket. rewrite Htype. by rewrite bool_decide_eq_true_2. }
    split; [done|]. intros rest. cbn [routeAll]. by rewrite Hroute.
  - intros Hseq [tracked Htracked].
    unfold routePacket. rewrite Htype, Htracked.
    by rewrite bool_decide_eq_false_2 by (by intros []).
  - intros Hseq Hfree. eexists. split_and!; last first.
    + intros Hmax. unfold wrap64. by apply N.mod_small.
    + unfold routePacket. rewrite Htype, Hfree.
      rewrite bool_decide_eq_false_2 by (by intros []). reflexivity.
    + done.
    + done.
    + by repeat split.
Qed.

(** C6.  A DATA packet for a tracked message appends its body to the
    message and hands the codec one ACK packet, with the message's number
    and the decimal rendering of the message's byte count after the
    append, which is the length of all the bodies received so far; the
    next packet is routed from the state that results. *)
Theorem routePacket_DATA (conn : Connection) (pkt : Packet) (msg : Message) :
  packetType pkt = DATA →
  pktToMsg conn !! msgNo pkt = Some msg →
  ∃ msg' ack,
    msg' = Msg.Write msg (body pkt)
    ∧ bytes msg' = bytes msg +:+ body pkt
    ∧ bytesWritten msg'
      = wrap64 (bytesWritten msg + N.of_nat (String.length (body pkt)))
    ∧ (counted msg → counted msg')
    ∧ carriesHeader msg'
        (PacketHeader.mk (Action msg) (Envelope msg) (Version msg)
           (MessageType msg) (RequestId msg) (Error msg) (ErrorCode msg)
           (Ticket msg))
    ∧ ack = {| packetType := ACK; msgNo := msgNo pkt;
               packetHeader := PacketHeader.zero;
               body := pretty (bytesWritten msg') |}
    ∧ routePacket conn pkt
      = (mkConnection _ (afterAck (readWriter conn) ack)
           (incomingmsgno conn) (outgoingmsgno conn)
           (<[msgNo pkt := msg']> (pktToMsg conn)) (msgs conn)
           (isClosed conn), None)
    ∧ ∀ rest,
        routeAll conn (pkt :: rest)
        = routeAll (mkConnection _ (afterAck (readWriter conn) ack)
                      (incomingmsgno conn) (outgoingmsgno conn)
                      (<[msgNo pkt := msg']> (pktToMsg conn)) (msgs conn)
                      (isClosed conn)) rest.
Proof.
  intros Htype Htracked.
  exists (Msg.Write msg (body pkt)),
    (ackPacketFor (msgNo pkt) (Msg.BytesWritten (Msg.Write msg (body pkt)))).
  assert (routePacket conn pkt
      = (mkConnection _
           (afterAck (readWriter conn)
              (ackPacketFor (msgNo pkt)
                 (Msg.BytesWritten (Msg.Write msg (body pkt)))))
           (incomingmsgno conn) (outgoingmsgno conn)
           (<[msgNo pkt := Msg.Write msg (body pkt)]> (pktToMsg conn))
           (msgs conn) (isClosed conn), None)) as Hroute.
  { unfold routePacket. rewrite Htype, Htracked.
    destruct (ackBytes _ _ _) as [conn' e] eqn:Hack.
    apply (f_equal fst) in Hack. rewrite ackBytes_writes in Hack.
    cbn in Hack. by subst conn'. }
  split_and!; try done; [apply Write_counted|].
  intros rest. cbn [routeAll]. by rewrite Hroute.
Qed.

(** C7.  A TXERR packet for a tracked message sets the message's error to
    the body, or, when the body is empty, to the text "There was an unkown
    error with the connection"; it appends the body, acknowledges as for
    DATA, stops tracking the message and sends it on the channel. *)
Theorem routePacket_TXERR (conn : Connection) (pkt : Packet) (msg : Message) :
  packetType pkt = TXERR →
  pktToMsg conn !! msgNo pkt = Some msg →
  ∃ msg' ack,
    msg' = Msg.Write
             (Msg.SetError msg
                (if decide (body pkt = "")
                 then "There was an unkown error with the connection"
                 else body pkt))
             (body pkt)
    ∧ Error msg' = (if decide (body pkt = "")
                    then "There was an unkown error with the connection"
                    else body pkt)
    ∧ bytes msg' = bytes msg +:+ body pkt
    ∧ bytesWritten msg'
      = wrap64 (bytesWritten msg + N.of_nat (String.length (body pkt)))
    ∧ ack = {| packetType := ACK; msgNo := msgNo pkt;
               packetHeader := PacketHeader.zero;
               body := pretty (bytesWritten msg') |}
    ∧ routePacket conn pkt
      = (mkConnection _ (afterAck (readWriter conn) ack)
           (incomingmsgno conn) (outgoingmsgno conn)
           (delete (msgNo pkt) (pktToMsg conn)) (msgs conn ++ [msg'])
           (isClosed conn), None).
Proof.
  intros Htype Htracked.
  exists (Msg.Write
            (Msg.SetError msg
               (if decide (body pkt = "")
                then "There was an unkown error with the connection"
                else body pkt))
            (body pkt)).
  eexists. split_and!; [done|done|done|done|reflexivity|].
  assert ((if bool_decide (0 < String.length (body pkt))
           then Msg.SetError msg (body pkt)
           else Msg.SetError msg unknownError)
          = Msg.SetError msg
              (if decide (body pkt = "")
               then "There was an unkown error with the connection"
               else body pkt))
    as Herror.
  { destruct (body pkt) as [|c b]; [done|].
    rewrite bool_decide_eq_true_2 by (cbn; lia). done. }
  unfold routePacket. rewrite Htype, Htracked, Herror.
  destruct (ackBytes _ _ _) as [conn' e] eqn:Hack.
  apply (f_equal fst) in Hack. rewrite ackBytes_writes in Hack.
  cbn in Hack. subst conn'. unfold deliver, setPktToMsg, setReadWriter. cbn.
  by rewrite delete_insert_eq.
Qed.

End RouterFacts.

(** ** [Send] *)

Section SendFacts.
Import Conn.
Context {wire : Wire}.

(** The retry loop ends with the first write that succeeds. *)
Lemma writeRetrying_success (fuel : nat) (w w' : Writer) (pkt : Packet) :
  pktWrite false w pkt = (w', None) → writeRetrying (S fuel) w pkt = Some w'.
Proof. intros Hw. cbn. by rewrite Hw. Qed.

(** C8.  [Send] of a message whose request id is 0 returns the error and
    the connection as it was: nothing written, no number taken. *)
Theorem Send_rejects_zero_requestId (fuel : nat) (conn : Connection) (msg : Message) :
  RequestId msg = 0%N →
  Send fuel conn msg = Some (conn, Some missingRequestId).
Proof. intros Hreq. unfold Send. by rewrite bool_decide_eq_true_2. Qed.

End SendFacts.

(** ** Concrete runs *)

Lemma routePacket_HEADER_witness :
  packetType (Sample.headerPacket 0) = HEADER
  ∧ msgNo (Sample.headerPacket 0)
    = Conn.incomingmsgno (Sample.freshConnection Sample.openWire [])
  ∧ ∃ msg,
      carriesHeader msg (Sample.headerOf 42)
      ∧ bytes msg = "" ∧ bytesWritten msg = 0%N
      ∧ Conn.routePacket (Sample.freshConnection Sample.openWire [])
          (Sample.headerPacket 0)
        = (Conn.mkConnection Sample.openWire [] 1 0 {[ 0%N := msg ]} [] false,
           None).
Proof.
  split; [reflexivity|]. split; [reflexivity|].
  destruct (routePacket_HEADER (Sample.freshConnection Sample.openWire [])
              (Sample.headerPacket 0) eq_refl) as (_ & _ & Hnew).
  destruct (Hnew eq_refl eq_refl) as (msg & Hhdr & Hbytes & Hcount & Hroute & _).
  exists msg. split_and!; [exact Hhdr|exact Hbytes|exact Hcount|exact Hroute].
Defined.

Lemma routePacket_DATA_witness :
  ∃ msg',
    bytes msg' = "partial{}" ∧ bytesWritten msg' = 9%N
    ∧ (Conn.routePacket Sample.midMessage (Sample.bodyPacket DATA 0 "{}")).1
      = Conn.mkConnection Sample.openWire [Sample.bodyPacket ACK 0 "9"]
          1 0 {[ 0%N := msg' ]} [] false.
Proof.
  destruct (routePacket_DATA Sample.midMessage (Sample.bodyPacket DATA 0 "{}")
              (Sample.request 42 "partial") eq_refl eq_refl)
    as (msg' & ack & _ & Hbytes & Hcount & _ & _ & Hack & Hroute & _).
  exists msg'. split_and!; [exact Hbytes|exact Hcount|].
  rewrite Hroute, Hack, Hcount. cbn [fst].
  f_equal; first [reflexivity|apply insert_singleton_eq].
Defined.

Lemma routePacket_TXERR_witness :
  ∃ msg',
    Error msg' = "There was an unkown error with the connection"
    ∧ bytes msg' = "partial"
    ∧ (Conn.routePacket Sample.midMessage (Sample.bodyPacket TXERR 0 "")).1
      = Conn.mkConnection Sample.openWire [Sample.bodyPacket ACK 0 "7"]
          1 0 ∅ [msg'] false.
Proof.
  destruct (routePacket_TXERR Sample.midMessage (Sample.bodyPacket TXERR 0 "")
              (Sample.request 42 "partial") eq_refl eq_refl)
    as (msg' & ack & _ & Herror & Hbytes & Hcount & Hack & Hroute).
  exists msg'. split_and!; [exact Herror|exact Hbytes|].
  rewrite Hroute, Hack, Hcount. cbn [fst].
  f_equal; first [reflexivity|apply delete_singleton_eq].
Defined.

Lemma Send_rejects_zero_requestId_witness :
  RequestId (Sample.request 0 "{}") = 0%N
  ∧ Conn.Send 1 (Sample.freshConnection Sample.openWire []) (Sample.request 0 "{}")
    = Some (Sample.freshConnection Sample.openWire [], Some Conn.missingRequestId).
Proof.
  split; [reflexivity|].
  apply (Send_rejects_zero_requestId (wire := Sample.openWire)). reflexivity.
Defined.

(** ** Runs of the spec's scenarios on the sample collaborators *)

(** HEADER(0), DATA(0, "{}"), EOF(0): one message is delivered, with the
    body "{}", and ACK(0, "2") is the one packet written back. *)
Example small_request_is_delivered :
  Conn.routeAll (Sample.freshConnection Sample.openWire [])
    [ Sample.headerPacket 0; Sample.bodyPacket DATA 0 "{}";
      Sample.bodyPacket EOF 0 "" ]
  = (Conn.mkConnection Sample.openWire [Sample.bodyPacket ACK 0 "2"]
       1 0 ∅ [Sample.request 42 "{}"] false, None).
Proof. by vm_compute. Qed.

(** A body in two chunks is acknowledged with the running total. *)
Example chunks_are_acknowledged_cumulatively :
  Conn.readWriter
    (Conn.routeAll (Sample.freshConnection Sample.openWire [])
       [ Sample.headerPacket 0; Sample.bodyPacket DATA 0 "aaaa";
         Sample.bodyPacket DATA 0 "bbbbbb"; Sample.bodyPacket EOF 0 "" ]).1
  = [Sample.bodyPacket ACK 0 "4"; Sample.bodyPacket ACK 0 "10"].
Proof. by vm_compute. Qed.

(** HEADER(0), DATA(0, "partial"), TXERR(0, "boom"): the message is
    delivered with the error "boom" and the body "partialboom". *)
Example txerr_delivers_the_message :
  Conn.msgs
    (Conn.routeAll (Sample.freshConnection Sample.openWire [])
       [ Sample.headerPacket 0; Sample.bodyPacket DATA 0 "partial";
         Sample.bodyPacket TXERR 0 "boom" ]).1
  = [ mkMessage "Foo.bar" EnvelopeJSON 1 MessageTypeRequest 42 "boom" "" ""
                "partialboom" 11 ].
Proof. by vm_compute. Qed.

(** A HEADER that skips a number stops the read loop; nothing is
    delivered. *)
Example skipped_header_stops_the_reader :
  Conn.routeAll (Sample.freshConnection Sample.openWire [])
    [ Sample.headerPacket 1; Sample.bodyPacket DATA 1 "{}";
      Sample.bodyPacket EOF 1 "" ]
  = (Sample.freshConnection Sample.openWire [],
     Some "out of sequence msgno: expected 0 but got 1").
Proof. by vm_compute. Qed.

(** [Send] on an open stream writes the packets of the message under the
    number it took and returns no error. *)
Example Send_writes_the_packets :
  Conn.Send 1 (Sample.freshConnection Sample.openWire []) (Sample.request 42 "{}")
  = Some (Conn.mkConnection Sample.openWire
            (Sample.packetsOf (Sample.request 42 "{}") 0) 0 1 ∅ [] false,
          None).
Proof. by vm_compute. Qed.

(** A file of two well-formed blocks: both proxies are indexed. *)
Example two_records_are_indexed :
  ∃ cache,
    Cache.Refresh (codec := Sample.trustingCodec)
        (Cache.NewServiceCache "discovery.cache")
        (Cache.RegularFile Sample.twoRecords)
      = Some (Cache.Returned None cache)
    ∧ Cache.Size cache = 2
    ∧ Cache.Retrieve cache "A" = Some Sample.proxyA
    ∧ Cache.Retrieve cache "B"
      = Some (Sample.proxyOf "B"
                ("CERT-B1" +:+ Cache.newline +:+ "CERT-B2")
                ("SIG-B1" +:+ Cache.newline +:+ "SIG-B2"))
    ∧ length (Cache.SearchByAction cache "main" "Cls.do" 1 "json") = 2.
Proof. eexists. split; [vm_compute; reflexivity|]. split_and!; by vm_compute. Qed.

(** * Properties of the rest of the code *)

(** ** The cache: store, remove, list *)

Section StoreFacts.
Import Cache.

Lemma indexUnder_extends (instance : ServiceProxy)
    (index0 index : gmap string (list ServiceProxy)) (mungedName : string) :
  extends index0 index → extends index0 (indexUnder instance index mungedName).
Proof.
  intros Hext key. specialize (Hext key). unfold indexUnder.
  destruct (decide (mungedName = key)) as [-> | Hne].
  - rewrite lookup_insert_eq. destruct (index !! key); cbn in *.
    + by apply prefix_app_r.
    + apply prefix_nil_inv in Hext. rewrite Hext. apply prefix_nil.
  - by rewrite lookup_insert_ne.
Qed.

Lemma storeNoLock_extends (cache : ServiceCache) (instance : ServiceProxy) :
  extends (actionIndex cache) (actionIndex (storeNoLock cache instance)).
Proof.
  cbn. apply foldl_keeps; [by intros ?|]. intros ? class ?.
  apply foldl_keeps; [done|]. intros ? action ?.
  apply foldl_keeps; [done|]. intros ? protocol ?.
  by apply indexUnder_extends.
Qed.

(** X1.  [Store] binds the ident of the instance to the instance, whatever
    was bound to it before, and leaves every other ident as it was; the
    cache grows by one entry exactly when the ident was new. *)
Theorem Store_binds_ident (cache : ServiceCache) (instance : ServiceProxy) :
  Retrieve (Store cache instance) (ident instance) = Some instance
  ∧ (∀ other, other ≠ ident instance →
       Retrieve (Store cache instance) other = Retrieve cache other)
  ∧ Size (Store cache instance)
    = (if Retrieve cache (ident instance) is Some _
       then Size cache else S (Size cache)).
Proof.
  unfold Store, Retrieve, Size. rewrite storeNoLock_identIndex. split_and!.
  - apply lookup_insert_eq.
  - intros other Hother. by rewrite lookup_insert_ne.
  - destruct (identIndex cache !! ident instance) eqn:Hold.
    + by erewrite map_size_insert_Some.
    + by rewrite map_size_insert_None.
Qed.

(** X2.  [Store] never takes anything out of [actionIndex] and never
    reorders it: what [SearchByAction] returned before is the beginning of
    what it returns after, for every key. *)
Theorem Store_only_appends (cache : ServiceCache) (instance : ServiceProxy)
    (sector action : string) (version : Z) (envelope : string) :
  SearchByAction cache sector action version envelope
    `prefix_of` SearchByAction (Store cache instance) sector action version envelope.
Proof. unfold SearchByAction. cbn zeta. apply storeNoLock_extends. Qed.

(** X3.  A stored proxy is found by [SearchByAction] under each of its
    classes, actions and protocols, when the caller joins class and action
    name with a dot. *)
Theorem Store_then_SearchByAction (cache : ServiceCache) (instance : ServiceProxy)
    (class : ServiceProxyClass) (action : ActionDescription) (protocol : string) :
  class ∈ classes instance → action ∈ actions class →
  protocol ∈ protocols instance →
  instance ∈ SearchByAction (Store cache instance) (sector instance)
               (className class +:+ "." +:+ actionName action)
               (version action) protocol.
Proof.
  intros Hclass Haction Hprotocol.
  assert (listedUnder instance
            (storeKey (sector instance) (className class) (actionName action)
                      (version action) protocol)
            (actionIndex (Store cache instance))) as (proxies & Hkey & Hin).
  { cbn.
    apply (foldl_reaches _ _ _ _ class Hclass).
    - intros index.
      apply (foldl_reaches _ _ _ _ action Haction).
      + intros index'.
        apply (foldl_reaches _ _ _ _ protocol Hprotocol).
        * intros ?. apply indexUnder_lists.
        * intros ???. by apply indexUnder_keeps.
      + intros ???. apply foldl_keeps; [done|].
        intros ???. by apply indexUnder_keeps.
    - intros ???. apply foldl_keeps; [done|].
      intros ???. apply foldl_keeps; [done|].
      intros ???. by apply indexUnder_keeps. }
  unfold SearchByAction. cbn zeta.
  rewrite storeKey_joined in Hkey. by rewrite Hkey.
Qed.

(** X4.  [removeNoLock] of a proxy whose ident is not tracked returns an
    error and leaves the cache as it was; otherwise it returns no error,
    takes that one ident out of [identIndex], so that the cache has one
    entry less, and leaves [actionIndex] alone: [SearchByAction] still
    returns the removed proxy wherever it was listed. *)
Theorem removeNoLock_removes_the_ident (cache : ServiceCache)
    (instance : ServiceProxy) :
  (Retrieve cache (ident instance) = None →
     (removeNoLock cache instance).1 = cache
     ∧ (removeNoLock cache instance).2 ≠ None)
  ∧ (is_Some (Retrieve cache (ident instance)) →
     (removeNoLock cache instance).2 = None
     ∧ Retrieve (removeNoLock cache instance).1 (ident instance) = None
     ∧ (∀ other, other ≠ ident instance →
          Retrieve (removeNoLock cache instance).1 other = Retrieve cache other)
     ∧ S (Size (removeNoLock cache instance).1) = Size cache)
  ∧ (∀ sector action version envelope,
       SearchByAction (removeNoLock cache instance).1 sector action version envelope
       = SearchByAction cache sector action version envelope).
Proof.
  unfold Retrieve, Size, removeNoLock, SearchByAction. split_and!.
  - by intros ->.
  - intros [old Hold]. rewrite Hold. cbn. split_and!; [done| | |].
    + apply lookup_delete_eq.
    + intros other Hother. by rewrite lookup_delete_ne.
    + erewrite map_size_delete_Some by done.
      assert (size (identIndex cache) ≠ 0); [|lia].
      intros Hempty%map_size_empty_inv. by rewrite Hempty in Hold.
  - intros. by destruct (identIndex cache !! ident instance).
Qed.

(** X5.  [All], [Size] and [Retrieve] agree: [All] has [Size] elements, and
    a proxy is in [All] exactly when [Retrieve] returns it for some
    ident. *)
Theorem All_lists_what_Retrieve_finds (cache : ServiceCache) :
  length (All cache) = Size cache
  ∧ ∀ proxy, proxy ∈ All cache ↔ ∃ key, Retrieve cache key = Some proxy.
Proof.
  unfold All, Size, Retrieve. split.
  - by rewrite length_fmap, length_map_to_list.
  - intros proxy. rewrite list_elem_of_fmap. split.
    + intros ([key proxy'] & -> & Hin%elem_of_map_to_list). by exists key.
    + intros [key Hkey]. exists (key, proxy). by rewrite elem_of_map_to_list.
Qed.

End StoreFacts.

Lemma Store_binds_ident_witness :
  Cache.Retrieve (Cache.Store (Cache.NewServiceCache "discovery.cache") Sample.proxyA)
    "B" = None.
Proof.
  rewrite (proj1 (proj2 (Store_binds_ident
             (Cache.NewServiceCache "discovery.cache") Sample.proxyA)) "B");
    [reflexivity|discriminate].
Defined.

Lemma Store_then_SearchByAction_witness :
  Sample.proxyA
  ∈ Cache.SearchByAction
      (Cache.Store (Cache.NewServiceCache "discovery.cache") Sample.proxyA)
      "main" "Cls.do" 1 "json".
Proof.
  apply (Store_then_SearchByAction (Cache.NewServiceCache "discovery.cache")
           Sample.proxyA (mkClass "Cls" [mkAction "do" "" 1])
           (mkAction "do" "" 1) "json"); cbn; constructor.
Defined.

Lemma removeNoLock_removes_the_ident_witness :
  Cache.Retrieve
    (Cache.removeNoLock
       (Cache.Store (Cache.NewServiceCache "discovery.cache") Sample.proxyA)
       Sample.proxyA).1 "A" = None.
Proof.
  refine (proj1 (proj2 (proj1 (proj2 (removeNoLock_removes_the_ident
            (Cache.Store (Cache.NewServiceCache "discovery.cache") Sample.proxyA)
            Sample.proxyA)) _))).
  vm_compute. eauto.
Defined.

(** ** The cache: what a scan does to it *)

Section ScanFacts.
Import bufio Cache.
Context {codec : ProxyCodec}.

Lemma storeNoLock_keyed (cache : ServiceCache) (instance : ServiceProxy) :
  keyedByIdent cache → keyedByIdent (storeNoLock cache instance).
Proof.
  intros Hkeyed key proxy. rewrite storeNoLock_identIndex.
  destruct (decide (ident instance = key)) as [<- | Hne].
  - rewrite lookup_insert_eq. by intros [= <-].
  - rewrite lookup_insert_ne by done. apply Hkeyed.
Qed.

Lemma removeNoLock_keyed (cache : ServiceCache) (instance : ServiceProxy) :
  keyedByIdent cache → keyedByIdent (removeNoLock cache instance).1.
Proof.
  intros Hkeyed key proxy. unfold removeNoLock.
  destruct (identIndex cache !! ident instance); cbn; [|apply Hkeyed].
  intros [_ Hkey]%lookup_delete_Some. by apply Hkeyed.
Qed.

Lemma removeNoLock_actionIndex (cache : ServiceCache) (instance : ServiceProxy) :
  actionIndex (removeNoLock cache instance).1 = actionIndex cache
  ∧ verifyRecords (removeNoLock cache instance).1 = verifyRecords cache
  ∧ path (removeNoLock cache instance).1 = path cache.
Proof. unfold removeNoLock. by destruct (identIndex cache !! ident instance). Qed.

(** What holds of the cache when the loop starts and is kept by storing
    and by removing a proxy holds of the cache the loop leaves. *)
Lemma scanBlocks_keeps (P : ServiceCache → Prop) (fuel : nat)
    (cache : ServiceCache) (s : Scanner) (outcome : Outcome) :
  (∀ cache instance, P cache → P (storeNoLock cache instance)) →
  (∀ cache instance, P cache → P (removeNoLock cache instance).1) →
  P cache → scanBlocks fuel cache s = Some outcome → P (cacheOf outcome).
Proof.
  intros Hstore Hremove. revert cache s.
  induction fuel as [|fuel IH]; intros cache s Hcache; [done|].
  cbn [scanBlocks].
  repeat (case_match; simplify_eq/=; try done);
    try (by intros; simplify_eq/=); apply IH; auto.
  match goal with
  | H : removeNoLock ?c ?p = (?c', _) |- _ =>
      replace c' with (removeNoLock c p).1 by (by rewrite H)
  end.
  auto.
Qed.

(** X6.  Whatever the cache held and whatever the input is, the cache a
    scan leaves binds every proxy under its own ident: [Retrieve] never
    returns a proxy of another ident. *)
Theorem DoScan_leaves_proxies_under_their_ident (cache : ServiceCache)
    (s : Scanner) (outcome : Outcome) (key : string) (proxy : ServiceProxy) :
  DoScan cache s = Some outcome →
  Retrieve (cacheOf outcome) key = Some proxy →
  ident proxy = key.
Proof.
  intros Hscan. revert key proxy.
  change (keyedByIdent (cacheOf outcome)).
  eapply (scanBlocks_keeps keyedByIdent); [..|exact Hscan].
  - apply storeNoLock_keyed.
  - apply removeNoLock_keyed.
  - intros key proxy. cbn. by rewrite lookup_empty.
Qed.

(** X7.  A scan ends on every input: each round of its loop that does not
    leave the loop takes at least one line, so the loop runs at most once
    more than there are unread lines, and ends in a return or in a
    panic. *)
Theorem DoScan_ends_within_the_lines (cache : ServiceCache) (s : Scanner) :
  ∃ outcome,
    DoScan cache s = Some outcome
    ∧ ∀ fuel, length (unread s) < fuel →
        scanBlocks fuel (clearNoLock cache) s = Some outcome.
Proof.
  destruct (scanBlocks_fuel (scanFuel s) (clearNoLock cache) s) as [outcome Hout];
    [unfold scanFuel; lia|].
  exists outcome. split; [done|]. intros fuel Hfuel.
  destruct (scanBlocks_fuel fuel (clearNoLock cache) s Hfuel) as [outcome' Hout'].
  rewrite Hout'. f_equal.
  destruct (decide (fuel ≤ scanFuel s)).
  - eapply scanBlocks_more_fuel in Hout'; [|done]. congruence.
  - eapply scanBlocks_more_fuel in Hout; [|apply Nat.lt_le_incl, Nat.lt_nge; done].
    congruence.
Qed.

(** X8.  A scan never takes anything out of [actionIndex] and changes
    neither the path nor the verification flag: what [SearchByAction]
    returned before the scan is the beginning of what it returns after,
    for every key, also when the scan ends in an error or a panic. *)
Theorem DoScan_only_appends_actions (cache : ServiceCache) (s : Scanner)
    (outcome : Outcome) :
  DoScan cache s = Some outcome →
  path (cacheOf outcome) = path cache
  ∧ verifyRecords (cacheOf outcome) = verifyRecords cache
  ∧ ∀ sector action version envelope,
      SearchByAction cache sector action version envelope
        `prefix_of` SearchByAction (cacheOf outcome) sector action version envelope.
Proof.
  intros Hscan.
  assert (path (cacheOf outcome) = path cache
          ∧ verifyRecords (cacheOf outcome) = verifyRecords cache
          ∧ extends (actionIndex cache) (actionIndex (cacheOf outcome)))
    as (Hpath & Hverify & Hext).
  { eapply (scanBlocks_keeps (λ c,
        path c = path cache ∧ verifyRecords c = verifyRecords cache
        ∧ extends (actionIndex cache) (actionIndex c))); [..|exact Hscan].
    - intros c instance (Hp & Hv & He). split_and!; [done|done|].
      intros key. etrans; [apply He|apply storeNoLock_extends].
    - intros c instance (Hp & Hv & He).
      destruct (removeNoLock_actionIndex c instance) as (-> & -> & ->). done.
    - split_and!; [done|done|]. by intros ?. }
  split_and!; [done|done|]. intros. unfold SearchByAction. cbn zeta. apply Hext.
Qed.

End ScanFacts.

(** X9.  With the verification flag off the scan does not consult
    [Validate]: two validators give the same outcome on every input. *)
Theorem DoScan_unverified_ignores_Validate
    (newServiceProxy : string → string → string → ServiceProxy + string)
    (validate validate' : ServiceProxy → error)
    (cache : Cache.ServiceCache) (s : bufio.Scanner) :
  Cache.verifyRecords cache = false →
  Cache.DoScan (codec := Build_ProxyCodec newServiceProxy validate) cache s
  = Cache.DoScan (codec := Build_ProxyCodec newServiceProxy validate') cache s.
Proof.
  intros Hoff. unfold Cache.DoScan.
  assert (Cache.verifyRecords (Cache.clearNoLock cache) = false) as Hoff' by done.
  revert Hoff'. generalize (Cache.clearNoLock cache) (Cache.scanFuel s).
  clear cache Hoff. intros cache fuel. revert cache s.
  induction fuel as [|fuel IH]; intros cache s Hoff; [done|].
  cbn [Cache.scanBlocks NewServiceProxy Validate]. rewrite Hoff.
  repeat (case_match; simplify_eq/=; try done); by apply IH.
Qed.

Lemma DoScan_leaves_proxies_under_their_ident_witness :
  ident Sample.proxyA = "A".
Proof.
  apply (DoScan_leaves_proxies_under_their_ident (codec := Sample.trustingCodec)
           (Cache.NewServiceCache "discovery.cache")
           (bufio.NewScanner Sample.twoRecords)
           (Cache.Returned None
              (Cache.Store
                 (Cache.Store
                    (Cache.clearNoLock (Cache.NewServiceCache "discovery.cache"))
                    Sample.proxyA)
                 (Sample.proxyOf "B"
                    ("CERT-B1" +:+ Cache.newline +:+ "CERT-B2")
                    ("SIG-B1" +:+ Cache.newline +:+ "SIG-B2"))))
           "A" Sample.proxyA); by vm_compute.
Defined.

Lemma DoScan_only_appends_actions_witness :
  Cache.SearchByAction
    (Cache.Store (Cache.NewServiceCache "discovery.cache") Sample.proxyA)
    "main" "Cls.do" 1 "json"
  `prefix_of`
  Cache.SearchByAction
    (Cache.clearNoLock
       (Cache.Store (Cache.NewServiceCache "discovery.cache") Sample.proxyA))
    "main" "Cls.do" 1 "json".
Proof.
  refine (proj2 (proj2 (DoScan_only_appends_actions (codec := Sample.trustingCodec)
            (Cache.Store (Cache.NewServiceCache "discovery.cache") Sample.proxyA)
            (bufio.NewScanner "")
            (Cache.Returned None
               (Cache.clearNoLock
                  (Cache.Store (Cache.NewServiceCache "discovery.cache")
                               Sample.proxyA)))
            _)) "main" "Cls.do" 1%Z "json").
  by vm_compute.
Defined.

Lemma DoScan_unverified_ignores_Validate_witness :
  Cache.DoScan
    (codec := Build_ProxyCodec (λ r c g, inl (Sample.proxyOf r c g))
                               (λ _, Some "crypto/rsa: verification error"))
    (Cache.EnableRecordVerification (Cache.NewServiceCache "discovery.cache"))
    (bufio.NewScanner Sample.twoRecords)
  = Cache.DoScan
      (codec := Build_ProxyCodec (λ r c g, inl (Sample.proxyOf r c g)) (λ _, None))
      (Cache.EnableRecordVerification (Cache.NewServiceCache "discovery.cache"))
      (bufio.NewScanner Sample.twoRecords).
Proof.
  apply (DoScan_unverified_ignores_Validate
           (λ r c g, inl (Sample.proxyOf r c g))
           (λ _, Some "crypto/rsa: verification error") (λ _, None)).
  reflexivity.
Defined.

(** ** The cache: files of well-formed blocks *)

Section BlockFacts.
Import bufio Cache.
Context {codec : ProxyCodec}.

Lemma readSig_until (stop : string) (sig rest : list string) (o : option string)
    (sigBuffer : string) :
  stop = "" ∨ stop = sep →
  Forall (λ line, line ≠ "" ∧ line ≠ sep) sig →
  readSig (sig ++ stop :: rest) o sigBuffer
  = (sigBuffer +:+ buffered sig, scanning rest stop o).
Proof.
  intros Hstop Hsig. revert sigBuffer.
  induction Hsig as [|line sig [Hline Hsep] _ IH]; intros sigBuffer; cbn.
  - rewrite str_app_nil_r. by destruct Hstop as [-> | ->].
  - rewrite bool_decide_eq_false_2 by (by rewrite str_length_0).
    rewrite bool_decide_eq_false_2 by done.
    by rewrite IH, !str_app_assoc.
Qed.

Lemma joinLines_buffered (lines : list string) :
  lines ≠ [] → joinLines lines +:+ newline = buffered lines.
Proof.
  induction lines as [|line [|line' lines] IH]; [done| |]; intros _.
  - cbn. by rewrite str_app_nil_r.
  - change (joinLines (line :: line' :: lines))
      with (line +:+ newline +:+ joinLines (line' :: lines)).
    change (buffered (line :: line' :: lines))
      with ((line +:+ newline) +:+ buffered (line' :: lines)).
    rewrite <- IH by done. by rewrite !str_app_assoc.
Qed.

Lemma sliceTo_buffered (lines : list string) :
  lines ≠ [] →
  GoString.sliceTo (buffered lines)
    (Z.of_nat (String.length (buffered lines)) - 1) = Some (joinLines lines).
Proof.
  intros Hlines. destruct (buffered_strip lines Hlines) as (raw & Hraw & ->).
  f_equal. eapply str_app_inv_tail. by rewrite Hraw, joinLines_buffered.
Qed.

Lemma skipSlop_no_separator (lines : list string) (o : option string) :
  Forall (λ line, line ≠ sep) lines → skipSlop lines o = (false, exhausted o).
Proof.
  induction 1 as [|line lines Hline _ IH]; [done|].
  cbn. by rewrite bool_decide_eq_false_2.
Qed.

(** A round of the loop on a block whose signature is ended by a blank
    line or by a separator line. *)
Lemma scanBlocks_round (stop : string) (fuel : nat) (cache : ServiceCache)
    (slop : list string) (classRecordsRaw : string) (cert sig rest : list string)
    (tok : string) :
  stop = "" ∨ stop = sep →
  Forall (λ line, line ≠ sep) slop → classRecordsRaw ≠ "" →
  cert ≠ [] → Forall (λ line, line ≠ "") cert →
  sig ≠ [] → Forall (λ line, line ≠ "" ∧ line ≠ sep) sig →
  scanBlocks (S fuel) cache
    (mkScanner (slop ++ sep :: classRecordsRaw :: ""
                  :: cert ++ "" :: sig ++ stop :: rest) tok)
  = match NewServiceProxy classRecordsRaw (joinLines cert) (joinLines sig) with
    | inr err => Some (Returned (Some ("NewServiceProxy: " +:+ err)) cache)
    | inl serviceProxy =>
        scanBlocks fuel (takeIn cache serviceProxy) (mkScanner rest stop)
    end.
Proof.
  intros Hstop Hslop Hrecords Hcert0 Hcert Hsig0 Hsig.
  cbn [scanBlocks unread].
  rewrite skipSlop_to_separator by done. cbn [negb Scan unread Bytes token].
  rewrite bool_decide_eq_false_2 by (by rewrite str_length_0).
  rewrite bool_decide_eq_false_2 by (cbn; lia).
  rewrite readCert_lines by done. cbn [unread].
  change ("" +:+ buffered cert) with (buffered cert).
  rewrite sliceTo_buffered by done.
  rewrite readSig_until by done.
  change ("" +:+ buffered sig) with (buffered sig).
  rewrite sliceTo_buffered by done.
  destruct (NewServiceProxy _ _ _) as [serviceProxy|err]; [|done].
  unfold takeIn. destruct (verifyRecords cache); [|done].
  destruct (Validate serviceProxy); [|done].
  by destruct (removeNoLock cache serviceProxy).
Qed.

Lemma scanBlocks_blocks (fuel : nat) (cache : ServiceCache) (blocks : list Block)
    (proxies : list ServiceProxy) (trailing : list string) (tok : string) :
  Forall wellFormedBlock blocks →
  Forall2 (λ block proxy,
             NewServiceProxy (blockRecords block) (joinLines (blockCert block))
                             (joinLines (blockSig block)) = inl proxy)
          blocks proxies →
  Forall (λ line, line ≠ sep) trailing →
  length blocks < fuel →
  scanBlocks fuel cache
    (mkScanner (concat (blockLines <$> blocks) ++ trailing) tok)
  = Some (Returned None (foldl takeIn cache proxies)).
Proof.
  intros Hwf Hnew Htrailing. revert fuel cache tok Hwf.
  induction Hnew as [|block proxy blocks proxies Hproxy _ IH];
    intros fuel cache tok Hwf Hfuel.
  - destruct fuel as [|fuel]; [cbn in Hfuel; lia|].
    cbn [scanBlocks unread fmap list_fmap concat app].
    by rewrite skipSlop_no_separator.
  - destruct fuel as [|fuel]; [cbn in Hfuel; lia|].
    apply Forall_cons in Hwf as [(Hslop & Hrec & Hc0 & Hc & Hs0 & Hs) Hwf].
    rewrite fmap_cons. cbn [concat]. unfold blockLines at 1.
    repeat (rewrite <- !(assoc_L (++)); cbn [app]).
    rewrite (scanBlocks_round "") by auto.
    rewrite Hproxy. cbn [foldl]. apply IH; [done|]. cbn in Hfuel. lia.
Qed.

(** X10.  A file of well-formed blocks, with whatever lines but separators
    between and after them, is read to its end without error: each block's
    class-records line, certificate and signature, the lines of the last
    two joined by newlines, go to [NewServiceProxy], and when every block
    gives a proxy the cache is left with [identIndex] emptied and then each
    proxy, in the order of the file, stored, or removed if verification is
    on and it does not validate. *)
Theorem DoScan_reads_well_formed_blocks (cache : ServiceCache)
    (blocks : list Block) (proxies : list ServiceProxy)
    (trailing : list string) (tok : string) :
  Forall wellFormedBlock blocks →
  Forall2 (λ block proxy,
             NewServiceProxy (blockRecords block) (joinLines (blockCert block))
                             (joinLines (blockSig block)) = inl proxy)
          blocks proxies →
  Forall (λ line, line ≠ sep) trailing →
  DoScan cache (mkScanner (concat (blockLines <$> blocks) ++ trailing) tok)
  = Some (Returned None (foldl takeIn (clearNoLock cache) proxies)).
Proof.
  intros Hwf Hnew Htrailing. unfold DoScan. apply scanBlocks_blocks; try done.
  unfold scanFuel. cbn [unread]. rewrite length_app.
  assert (length blocks ≤ length (concat (blockLines <$> blocks))); [|lia].
  clear. induction blocks as [|block blocks IH]; [done|].
  rewrite fmap_cons. cbn [concat]. rewrite length_app. unfold blockLines at 1.
  rewrite length_app. cbn. lia.
Qed.

(** Lines that hold no separator, in front of well-formed blocks, are
    passed over as the lines in front of the first block's separator. *)
Lemma scanBlocks_resumes (fuel : nat) (cache : ServiceCache)
    (skipped : list string) (blocks : list Block) (proxies : list ServiceProxy)
    (trailing : list string) (tok : string) :
  Forall (λ line, line ≠ sep) skipped →
  Forall wellFormedBlock blocks →
  Forall2 (λ block proxy,
             NewServiceProxy (blockRecords block) (joinLines (blockCert block))
                             (joinLines (blockSig block)) = inl proxy)
          blocks proxies →
  Forall (λ line, line ≠ sep) trailing →
  length blocks < fuel →
  scanBlocks fuel cache
    (mkScanner (skipped ++ concat (blockLines <$> blocks) ++ trailing) tok)
  = Some (Returned None (foldl takeIn cache proxies)).
Proof.
  intros Hskipped Hwf Hnew Htrailing Hfuel.
  destruct Hnew as [|block proxy blocks proxies Hproxy Hnew].
  - apply (scanBlocks_blocks fuel cache [] [] (skipped ++ trailing) tok);
      [done|constructor|by apply Forall_app|done].
  - apply Forall_cons in Hwf as [(Hslop & Hrec & Hc0 & Hc & Hs0 & Hs) Hwf].
    pose (block' := mkBlock (skipped ++ blockSlop block) (blockRecords block)
                            (blockCert block) (blockSig block)).
    replace (skipped ++ concat (blockLines <$> block :: blocks) ++ trailing)
      with (concat (blockLines <$> block' :: blocks) ++ trailing).
    2:{ rewrite !fmap_cons. cbn [concat]. unfold blockLines at 1 3, block'.
        cbn [blockSlop blockRecords blockCert blockSig].
        by rewrite <- !(assoc_L (++)). }
    apply (scanBlocks_blocks fuel cache (block' :: blocks) (proxy :: proxies));
      [|by constructor|done|done].
    constructor; [|done]. unfold wellFormedBlock, block'. cbn.
    split; [by apply Forall_app|]. done.
Qed.

(** X11.  When the signature of a block is ended by a separator line and
    not by a blank line, the block itself is read, but the separator is
    taken with it: the lines behind it are passed over up to the next
    separator line, whatever they are, so that a record that follows the
    signature at once is lost; the scan resumes with the block at the next
    separator line and reads the rest of the file. *)
Theorem DoScan_passes_over_what_follows_a_separator (cache : ServiceCache)
    (block : Block) (proxy : ServiceProxy) (skipped : list string)
    (blocks : list Block) (proxies : list ServiceProxy)
    (trailing : list string) (tok : string) :
  wellFormedBlock block →
  NewServiceProxy (blockRecords block) (joinLines (blockCert block))
                  (joinLines (blockSig block)) = inl proxy →
  Forall (λ line, line ≠ sep) skipped →
  Forall wellFormedBlock blocks →
  Forall2 (λ block proxy,
             NewServiceProxy (blockRecords block) (joinLines (blockCert block))
                             (joinLines (blockSig block)) = inl proxy)
          blocks proxies →
  Forall (λ line, line ≠ sep) trailing →
  DoScan cache
    (mkScanner (blockSlop block ++ sep :: blockRecords block :: ""
                  :: blockCert block ++ "" :: blockSig block ++ sep
                  :: skipped ++ concat (blockLines <$> blocks) ++ trailing) tok)
  = Some (Returned None (foldl takeIn (clearNoLock cache) (proxy :: proxies))).
Proof.
  intros (Hslop & Hrec & Hc0 & Hc & Hs0 & Hs) Hproxy Hskipped Hwf Hnew Htrailing.
  unfold DoScan, scanFuel. cbn [unread].
  rewrite (scanBlocks_round sep) by auto. rewrite Hproxy. cbn [foldl].
  apply scanBlocks_resumes; try done.
  repeat (rewrite ?length_app; cbn [length]).
  assert (length blocks ≤ length (concat (blockLines <$> blocks))); [|lia].
  clear. induction blocks as [|block blocks IH]; [done|].
  rewrite fmap_cons. cbn [concat]. rewrite length_app. unfold blockLines at 1.
  rewrite length_app. cbn. lia.
Qed.

End BlockFacts.

(** ** The cache: a malformed block behind well-formed ones *)

Section MalformedFacts.
Import bufio Cache.
Context {codec : ProxyCodec}.

Lemma scanBlocks_blocks_then (fuel : nat) (cache : ServiceCache)
    (blocks : list Block) (proxies : list ServiceProxy)
    (malformed : list string) (err tok : string) :
  Forall wellFormedBlock blocks →
  Forall2 (λ block proxy,
             NewServiceProxy (blockRecords block) (joinLines (blockCert block))
                             (joinLines (blockSig block)) = inl proxy)
          blocks proxies →
  Malformed malformed err →
  length blocks < fuel →
  scanBlocks fuel cache
    (mkScanner (concat (blockLines <$> blocks) ++ malformed) tok)
  = Some (Returned (Some err) (foldl takeIn cache proxies)).
Proof.
  intros Hwf Hnew Hbad. revert fuel cache tok Hwf.
  induction Hnew as [|block proxy blocks proxies Hproxy _ IH];
    intros fuel cache tok Hwf Hfuel.
  - destruct fuel as [|fuel]; [cbn in Hfuel; lia|].
    cbn [fmap list_fmap concat app foldl].
    destruct Hbad as [slop records junk rest Hslop Hrecords Hjunk
                     |block reason rest (Hslop & Hrec & Hc0 & Hc & Hs0 & Hs) Hrefused].
    + by apply scanBlocks_malformed_block.
    + unfold blockLines. repeat (rewrite <- !(assoc_L (++)); cbn [app]).
      rewrite (scanBlocks_round "") by auto. by rewrite Hrefused.
  - destruct fuel as [|fuel]; [cbn in Hfuel; lia|].
    apply Forall_cons in Hwf as [(Hslop & Hrec & Hc0 & Hc & Hs0 & Hs) Hwf].
    rewrite fmap_cons. cbn [concat]. unfold blockLines at 1.
    repeat (rewrite <- !(assoc_L (++)); cbn [app]).
    rewrite (scanBlocks_round "") by auto.
    rewrite Hproxy. cbn [foldl]. apply IH; [done|]. cbn in Hfuel. lia.
Qed.

Lemma takeIn_verifyRecords (cache : ServiceCache) (proxy : ServiceProxy) :
  verifyRecords (takeIn cache proxy) = verifyRecords cache.
Proof.
  unfold takeIn. destruct (verifyRecords cache) eqn:Hverify; [|done].
  destruct (Validate proxy); [|done].
  by destruct (removeNoLock_actionIndex cache proxy) as (_ & -> & _).
Qed.

Lemma accepted_takeIn (cache : ServiceCache) (proxy other : ServiceProxy) :
  accepted (takeIn cache other) proxy = accepted cache proxy.
Proof. unfold accepted. by rewrite takeIn_verifyRecords. Qed.

Lemma takeIn_identIndex (cache : ServiceCache) (proxy : ServiceProxy) :
  identIndex (takeIn cache proxy)
  = if accepted cache proxy then <[ident proxy := proxy]> (identIndex cache)
    else delete (ident proxy) (identIndex cache).
Proof.
  unfold takeIn, accepted. destruct (verifyRecords cache); cbn [negb orb].
  - destruct (Validate proxy) as [e|].
    + rewrite bool_decide_eq_false_2 by done. unfold removeNoLock.
      destruct (identIndex cache !! ident proxy) eqn:Hold; cbn; [done|].
      by rewrite delete_id.
    + rewrite bool_decide_eq_true_2 by done. apply storeNoLock_identIndex.
  - apply storeNoLock_identIndex.
Qed.

(** From an [identIndex] that binds none of their idents, proxies of
    different idents leave the accepted ones bound, each under its
    ident. *)
Lemma foldl_takeIn_identIndex (proxies : list ServiceProxy) (cache : ServiceCache) :
  NoDup (ident <$> proxies) →
  Forall (λ proxy, identIndex cache !! ident proxy = None) proxies →
  identIndex (foldl takeIn cache proxies)
  = list_to_map ((λ proxy, (ident proxy, proxy))
                   <$> filter (λ proxy, accepted cache proxy) proxies)
      ∪ identIndex cache.
Proof.
  revert cache. induction proxies as [|proxy proxies IH]; intros cache Hdup Hfree.
  - cbn. by rewrite (left_id_L ∅ (∪)).
  - rewrite fmap_cons in Hdup. apply NoDup_cons in Hdup as [Hnew Hdup].
    apply Forall_cons in Hfree as [Hproxy Hfree].
    assert (Forall (λ q, ident q ≠ ident proxy) proxies) as Hother.
    { apply Forall_forall. intros q Hq Heq. apply Hnew.
      rewrite <- Heq. by apply list_elem_of_fmap_2. }
    assert ((list_to_map ((λ q, (ident q, q))
                            <$> filter (λ q, accepted cache q) proxies)
               : gmap string ServiceProxy) !! ident proxy = None) as Hfresh.
    { apply not_elem_of_list_to_map_1. rewrite <- list_fmap_compose.
      intros (q & Heq & Hq%list_elem_of_filter)%list_elem_of_fmap.
      destruct Hq as [_ Hq]. cbn in Heq.
      rewrite Forall_forall in Hother. by apply (Hother q Hq). }
    cbn [foldl]. rewrite IH; [|done|].
    2:{ rewrite takeIn_identIndex. rewrite Forall_forall in Hfree, Hother.
        apply Forall_forall. intros q Hq.
        pose proof (Hfree q Hq) as Hnone. pose proof (Hother q Hq) as Hne.
        destruct (accepted cache proxy).
        - by rewrite lookup_insert_ne.
        - by rewrite lookup_delete_ne. }
    rewrite (list_filter_iff _ (λ q, accepted cache q))
      by (intros q; by rewrite accepted_takeIn).
    rewrite takeIn_identIndex, filter_cons.
    destruct (accepted cache proxy) eqn:Hacc.
    + rewrite decide_True by done. rewrite fmap_cons, list_to_map_cons.
      rewrite <- insert_union_l. by rewrite insert_union_r.
    + rewrite decide_False by (intros Hfalse; exact Hfalse).
      by rewrite delete_id.
Qed.

Lemma storeNoLock_lists (cache : ServiceCache) (instance : ServiceProxy)
    (class : ServiceProxyClass) (action : ActionDescription) (protocol : string) :
  class ∈ classes instance → action ∈ actions class →
  protocol ∈ protocols instance →
  listedUnder instance
    (storeKey (sector instance) (className class) (actionName action)
              (version action) protocol)
    (actionIndex (storeNoLock cache instance)).
Proof.
  intros Hclass Haction Hprotocol. cbn.
  apply (foldl_reaches _ _ _ _ class Hclass).
  - intros index.
    apply (foldl_reaches _ _ _ _ action Haction).
    + intros index'.
      apply (foldl_reaches _ _ _ _ protocol Hprotocol).
      * intros ?. apply indexUnder_lists.
      * intros ???. by apply indexUnder_keeps.
    + intros ???. apply foldl_keeps; [done|].
      intros ???. by apply indexUnder_keeps.
  - intros ???. apply foldl_keeps; [done|].
    intros ???. apply foldl_keeps; [done|].
    intros ???. by apply indexUnder_keeps.
Qed.

Lemma takeIn_keeps_listed (cache : ServiceCache) (proxy other : ServiceProxy)
    (key : string) :
  listedUnder proxy key (actionIndex cache) →
  listedUnder proxy key (actionIndex (takeIn cache other)).
Proof.
  intros (proxies & Hkey & Hin).
  assert (listedUnder proxy key (actionIndex (storeNoLock cache other))) as Hstore.
  { pose proof (storeNoLock_extends cache other key) as Hext.
    rewrite Hkey in Hext. destruct Hext as [more Hmore].
    destruct (actionIndex (storeNoLock cache other) !! key) as [proxies'|] eqn:Hkey';
      cbn [default from_option id] in Hmore.
    - exists proxies'. split; [done|]. rewrite Hmore. set_solver.
    - symmetry in Hmore. apply app_eq_nil in Hmore as [-> _].
      by apply elem_of_nil in Hin. }
  unfold takeIn. destruct (verifyRecords cache); [|done].
  destruct (Validate other); [|done].
  destruct (removeNoLock_actionIndex cache other) as (-> & _ & _). by exists proxies.
Qed.

Lemma foldl_takeIn_lists (proxies : list ServiceProxy) (cache : ServiceCache)
    (proxy : ServiceProxy) (class : ServiceProxyClass)
    (action : ActionDescription) (protocol : string) :
  proxy ∈ proxies → accepted cache proxy →
  class ∈ classes proxy → action ∈ actions class → protocol ∈ protocols proxy →
  listedUnder proxy
    (storeKey (sector proxy) (className class) (actionName action)
              (version action) protocol)
    (actionIndex (foldl takeIn cache proxies)).
Proof.
  intros Hin Hacc Hclass Haction Hprotocol. revert cache Hacc.
  induction proxies as [|other proxies IH]; intros cache Hacc;
    [by apply elem_of_nil in Hin|].
  cbn [foldl]. apply elem_of_cons in Hin as [<- | Hin].
  - apply foldl_keeps; [|intros ???; by apply takeIn_keeps_listed].
    unfold takeIn, accepted in *. destruct (verifyRecords cache); cbn in Hacc.
    + apply bool_decide_unpack in Hacc. rewrite Hacc.
      by apply storeNoLock_lists.
    + by apply storeNoLock_lists.
  - apply IH; [done|]. by rewrite accepted_takeIn.
Qed.

(** C2, as the code has it.  When well-formed blocks are followed by a
    malformed one, [DoScan] returns the error of that block and stops
    there, and nothing is taken back: the cache is left with [identIndex]
    emptied and then each proxy of the blocks before, in the order of the
    file, stored, or removed if verification is on and it does not
    validate.  So every proxy that was stored is still found by
    [SearchByAction] under each of its actions, and when the proxies have
    different idents, [Retrieve] finds each stored proxy under its ident,
    and [Size] and [All] count and list exactly the stored ones. *)
Theorem DoScan_stops_at_malformed_block (cache : ServiceCache)
    (blocks : list Block) (proxies : list ServiceProxy)
    (malformed : list string) (err tok : string) :
  Forall wellFormedBlock blocks →
  Forall2 (λ block proxy,
             NewServiceProxy (blockRecords block) (joinLines (blockCert block))
                             (joinLines (blockSig block)) = inl proxy)
          blocks proxies →
  Malformed malformed err →
  ∃ left,
    DoScan cache (mkScanner (concat (blockLines <$> blocks) ++ malformed) tok)
    = Some (Returned (Some err) left)
    ∧ left = foldl takeIn (clearNoLock cache) proxies
    ∧ (∀ proxy class action protocol,
         proxy ∈ proxies → accepted cache proxy →
         class ∈ classes proxy → action ∈ actions class →
         protocol ∈ protocols proxy →
         proxy ∈ SearchByAction left (sector proxy)
                   (className class +:+ "." +:+ actionName action)
                   (version action) protocol)
    ∧ (NoDup (ident <$> proxies) →
       Size left = length (filter (λ proxy, accepted cache proxy) proxies)
       ∧ All left ≡ₚ filter (λ proxy, accepted cache proxy) proxies
       ∧ ∀ proxy, proxy ∈ proxies → accepted cache proxy →
           Retrieve left (ident proxy) = Some proxy).
Proof.
  intros Hwf Hnew Hbad. eexists. split; [|split; [reflexivity|]].
  { unfold DoScan. apply scanBlocks_blocks_then; try done.
    unfold scanFuel. cbn [unread]. rewrite length_app.
    assert (length blocks ≤ length (concat (blockLines <$> blocks))); [|lia].
    clear. induction blocks as [|block blocks IH]; [done|].
    rewrite fmap_cons. cbn [concat]. rewrite length_app. unfold blockLines at 1.
    rewrite length_app. cbn. lia. }
  split.
  - intros proxy class action protocol Hin Hacc Hclass Haction Hprotocol.
    destruct (foldl_takeIn_lists proxies (clearNoLock cache) proxy class action
                protocol Hin Hacc Hclass Haction Hprotocol)
      as (listed & Hkey & Hlisted).
    unfold SearchByAction. cbn zeta.
    rewrite storeKey_joined in Hkey. by rewrite Hkey.
  - intros Hdup.
    assert (identIndex (foldl takeIn (clearNoLock cache) proxies)
            = list_to_map ((λ proxy, (ident proxy, proxy))
                             <$> filter (λ proxy, accepted cache proxy) proxies))
      as Hindex.
    { rewrite foldl_takeIn_identIndex; [|done|].
      - cbn [clearNoLock identIndex]. by rewrite (right_id_L ∅ (∪)).
      - apply Forall_forall. intros proxy _. cbn. apply lookup_empty. }
    assert (NoDup ((λ proxy, (ident proxy, proxy))
                     <$> filter (λ proxy, accepted cache proxy) proxies).*1)
      as Hkeys.
    { rewrite <- list_fmap_compose.
      eapply sublist_NoDup; [exact Hdup|].
      apply (fmap_sublist ident), sublist_filter. }
    unfold Size, All, Retrieve. rewrite Hindex. split_and!.
    + by rewrite map_size_list_to_map, length_fmap.
    + rewrite map_to_list_to_map by done.
      rewrite <- list_fmap_compose. by rewrite list_fmap_id.
    + intros proxy Hin Hacc. apply elem_of_list_to_map_1; [done|].
      apply (list_elem_of_fmap_2 (λ proxy, (ident proxy, proxy))).
      by apply list_elem_of_filter.
Qed.

End MalformedFacts.

Lemma DoScan_stops_at_malformed_block_witness :
  ∃ left,
    Cache.DoScan (codec := Sample.trustingCodec)
      (Cache.NewServiceCache "discovery.cache")
      (bufio.mkScanner
         (concat (blockLines <$> [Demo.blockA; Demo.blockB])
            ++ [] ++ ["%%%"; "C"; "oops"; "CERT-C"]) "")
    = Some (Cache.Returned (Some "expected newline after class records") left)
    ∧ Cache.Size left = 2
    ∧ Cache.Retrieve left "A" = Some Sample.proxyA
    ∧ Sample.proxyA ∈ Cache.SearchByAction left "main" "Cls.do" 1 "json".
Proof.
  destruct (DoScan_stops_at_malformed_block (codec := Sample.trustingCodec)
              (Cache.NewServiceCache "discovery.cache")
              [Demo.blockA; Demo.blockB]
              [ Sample.proxyA;
                Sample.proxyOf "B" (joinLines ["CERT-B1"; "CERT-B2"])
                               (joinLines ["SIG-B1"; "SIG-B2"]) ]
              ([] ++ ["%%%"; "C"; "oops"; "CERT-C"])
              "expected newline after class records" "")
    as (left & Hscan & _ & Hsearch & Hident).
  - repeat constructor; discriminate.
  - repeat constructor.
  - apply (NoBlankLine (codec := Sample.trustingCodec) [] "C" "oops" ["CERT-C"]);
      [constructor|discriminate|discriminate].
  - exists left. split; [exact Hscan|].
    destruct Hident as (Hsize & _ & Hretrieve).
    { apply (bool_decide_unpack _). by vm_compute. }
    split; [exact Hsize|]. split.
    + apply (Hretrieve Sample.proxyA); [by left|done].
    + apply (Hsearch Sample.proxyA
               {| className := "Cls";
                  actions := [ {| actionName := "do"; crudTags := "";
                                  version := 1 |} ] |}
               {| actionName := "do"; crudTags := ""; version := 1 |} "json");
        first [by left | done].
Defined.

(** ** Lines and rows *)

Section LineFacts.
Import bufio.

Lemma hasChar_app (c : ascii) (s t : string) :
  hasChar c (s +:+ t) = hasChar c s || hasChar c t.
Proof.
  induction s as [|c' s IH]; [done|].
  rewrite str_app_cons. cbn. by rewrite IH, orb_assoc.
Qed.

Lemma plain_app (s t : string) : plain s → plain t → plain (s +:+ t).
Proof.
  intros [Hs Hs'] [Ht Ht']. split; rewrite hasChar_app.
  - by rewrite Hs, Ht.
  - by rewrite Hs', Ht'.
Qed.

Lemma dropCR_plain (s : string) : hasChar crChar s = false → dropCR s = s.
Proof.
  induction s as [|c s IH]; [done|]. cbn [hasChar].
  intros [Hc Hs]%orb_false_elim. apply bool_decide_eq_false in Hc.
  destruct s as [|c' s].
  - unfold dropCR. by destruct (decide (c = crChar)).
  - change (dropCR (String c (String c' s)))
      with (String c (dropCR (String c' s))).
    by rewrite IH.
Qed.

(** [ScanLines] cuts a line that has no line feed in it, and fits the
    buffer, at the line feed that ends it. *)
Lemma scanLines_line (line acc rest : string) :
  hasChar newlineChar line = false →
  fitsBuffer (acc +:+ line) = true →
  scanLines acc (line +:+ Cache.newline +:+ rest)
  = (dropCR (acc +:+ line) :: (scanLines "" rest).1, (scanLines "" rest).2).
Proof.
  revert acc. induction line as [|c line IH]; intros acc Hline Hfits.
  - rewrite str_app_nil_r in *.
    change ("" +:+ Cache.newline +:+ rest) with (String newlineChar rest).
    cbn [scanLines]. rewrite decide_True by done. rewrite Hfits.
    by destruct (scanLines "" rest).
  - cbn [hasChar] in Hline. apply orb_false_elim in Hline as [Hc Hline].
    apply bool_decide_eq_false in Hc.
    rewrite str_app_cons. cbn [scanLines].
    rewrite decide_False by (by intros ->).
    rewrite IH; [by rewrite str_app_assoc|done|by rewrite str_app_assoc].
Qed.

(** The scanner gives back the lines a text was written from, when they
    fit its buffer. *)
Lemma scanLines_unlines (lines : list string) :
  Forall plain lines →
  Forall (λ line, (Z.of_nat (String.length line) < MaxScanTokenSize)%Z) lines →
  scanLines "" (Sample.unlines lines) = (lines, None).
Proof.
  induction 1 as [|line lines [Hlf Hcr] _ IH]; [done|].
  intros [Hfits Hrest]%Forall_cons.
  change (Sample.unlines (line :: lines))
    with (line +:+ Cache.newline +:+ Sample.unlines lines).
  rewrite scanLines_line; [|done|by apply bool_decide_eq_true_2].
  change ("" +:+ line) with line. rewrite dropCR_plain by done.
  by rewrite (IH Hrest).
Qed.

(** At a line that does not fit the buffer the scanner gives up: nothing
    is delivered from there on but what the buffer holds. *)
Lemma scanLines_too_long (line acc rest : string) :
  hasChar newlineChar line = false →
  fitsBuffer (acc +:+ line) = false →
  scanLines acc (line +:+ Cache.newline +:+ rest)
  = ([], Some (dropCR (GoString.take (Z.to_nat MaxScanTokenSize) (acc +:+ line)))).
Proof.
  revert acc. induction line as [|c line IH]; intros acc Hline Hlong.
  - rewrite str_app_nil_r in *.
    change ("" +:+ Cache.newline +:+ rest) with (String newlineChar rest).
    cbn [scanLines]. rewrite decide_True by done. by rewrite Hlong.
  - cbn [hasChar] in Hline. apply orb_false_elim in Hline as [Hc Hline].
    apply bool_decide_eq_false in Hc.
    rewrite str_app_cons. cbn [scanLines].
    rewrite decide_False by (by intros ->).
    rewrite IH; [by rewrite str_app_assoc|done|by rewrite str_app_assoc].
Qed.

Lemma unlines_app (xs ys : list string) :
  Sample.unlines (xs ++ ys) = Sample.unlines xs +:+ Sample.unlines ys.
Proof.
  unfold Sample.unlines. induction xs as [|x xs IH]; [done|].
  cbn [app foldr]. by rewrite IH, !str_app_assoc.
Qed.

Lemma unlines_joinLines (lines : list string) :
  lines ≠ [] → Sample.unlines lines = joinLines lines +:+ Cache.newline.
Proof.
  induction lines as [|line [|line' lines] IH]; [done| |]; intros _.
  - cbn. by rewrite str_app_nil_r.
  - change (joinLines (line :: line' :: lines))
      with (line +:+ Cache.newline +:+ joinLines (line' :: lines)).
    change (Sample.unlines (line :: line' :: lines))
      with (line +:+ Cache.newline +:+ Sample.unlines (line' :: lines)).
    rewrite IH by done. by rewrite !str_app_assoc.
Qed.

Lemma foldl_write_lines (buf : string) (parts : list string) :
  foldl (λ buf part, (buf +:+ part) +:+ Cache.newline) buf parts
  = buf +:+ Sample.unlines parts.
Proof.
  revert buf. induction parts as [|part parts IH]; intros buf.
  - cbn. by rewrite str_app_nil_r.
  - cbn [foldl]. rewrite IH. cbn [Sample.unlines foldr].
    by rewrite !str_app_assoc.
Qed.

End LineFacts.

Section RowShape.
Import Rows.

Lemma length_drop_sub (n : nat) (s : string) :
  String.length (GoString.drop n s) = String.length s - n.
Proof.
  revert s. induction n as [|n IH]; intros [|c s]; try done.
  cbn. by rewrite IH.
Qed.

Lemma stringToRows_loop_shape (output : list string) (substr : string) :
  substr ≠ "" →
  ∃ full lastRow,
    stringToRows_loop output substr = output ++ full ++ [lastRow]
    ∧ Forall (λ row, String.length row = 76) full
    ∧ 0 < String.length lastRow ≤ 76
    ∧ String.length substr = 76 * length full + String.length lastRow.
Proof.
  funelim (stringToRows_loop output substr); intros Hsubstr.
  - match goal with
    | IH : _ → ∃ _ _, _ |- _ =>
        destruct IH as (full & lastRow & Hrows & Hfull & Hlast & Hlen)
    end.
    { intros Hempty%str_length_0. rewrite length_drop_sub in Hempty. lia. }
    exists (GoString.take 76 substr :: full), lastRow.
    split; [|split; [|split; [done|]]].
    + rewrite Hrows. by rewrite <- !(assoc_L (++)).
    + constructor; [|done]. rewrite length_take_min. lia.
    + rewrite length_drop_sub in Hlen. cbn [length]. lia.
  - exists [], substr.
    split; [done|]. split; [constructor|]. split; [|cbn; lia].
    split; [|lia]. destruct substr; [done|cbn; lia].
Qed.

(** X12.  The rows of [stringToRows] are all but the last exactly 76 bytes
    long; the last has at most 76 bytes and is empty only when the input
    is; so an input of n bytes comes in ceil(n/76) rows, and in one row
    when it is empty. *)
Theorem stringToRows_row_shape (input : string) (rowlen : Z) :
  ∃ full lastRow,
    stringToRows input rowlen = full ++ [lastRow]
    ∧ Forall (λ row, String.length row = 76) full
    ∧ String.length lastRow ≤ 76
    ∧ (input ≠ "" → lastRow ≠ "")
    ∧ String.length input = 76 * length full + String.length lastRow.
Proof.
  unfold stringToRows. case_decide as Hlen.
  - exists [], input.
    split; [done|]. split; [constructor|]. split; [done|].
    split; [done|cbn; lia].
  - destruct (stringToRows_loop_shape [] input)
      as (full & lastRow & Hrows & Hfull & Hlast & Hsum).
    { intros ->. cbn in Hlen. lia. }
    exists full, lastRow.
    split; [done|]. split; [done|]. split; [lia|]. split; [|done].
    intros _ ->. cbn in Hlast. lia.
Qed.

Lemma stringToRows_join (input : string) (rowlen : Z) :
  GoString.join (stringToRows input rowlen) = input.
Proof.
  unfold stringToRows. case_decide; [apply str_app_nil_r|].
  by destruct (stringToRows_loop_spec [] input) as (rows & -> & Hjoin & _).
Qed.

Lemma hasChar_join (c : ascii) (rows : list string) (row : string) :
  row ∈ rows → hasChar c (GoString.join rows) = false → hasChar c row = false.
Proof.
  induction rows as [|row' rows IH]; [by intros ?%elem_of_nil|].
  change (GoString.join (row' :: rows)) with (row' +:+ GoString.join rows).
  rewrite hasChar_app. intros Hin [H1 H2]%orb_false_elim.
  apply elem_of_cons in Hin as [-> | Hin]; auto.
Qed.

(** A character that is not in the input is in none of its rows. *)
Lemma stringToRows_hasChar (c : ascii) (input row : string) (rowlen : Z) :
  hasChar c input = false → row ∈ stringToRows input rowlen →
  hasChar c row = false.
Proof.
  intros Hc Hrow. eapply hasChar_join; [done|]. by rewrite stringToRows_join.
Qed.

Lemma stringToRows_nonempty_rows (input row : string) (rowlen : Z) :
  input ≠ "" → row ∈ stringToRows input rowlen → row ≠ "".
Proof.
  intros Hinput. unfold stringToRows. case_decide as Hlen.
  - by intros ->%list_elem_of_singleton.
  - destruct (stringToRows_loop_shape [] input Hinput)
      as (full & lastRow & -> & Hfull & Hlast & _).
    cbn [app]. intros [Hrow | Hrow]%elem_of_app.
    + rewrite Forall_forall in Hfull. apply Hfull in Hrow. by intros ->.
    + apply list_elem_of_singleton in Hrow as ->. intros ->. cbn in Hlast. lia.
Qed.

End RowShape.

(** ** Writing a record and reading it back *)

Section AnnounceFacts.
Import bufio Cache Svc.
Context {announcer : Announcer} {codec : ProxyCodec}.

Lemma stringToRows_not_nil (input : string) (rowlen : Z) :
  Rows.stringToRows input rowlen ≠ [].
Proof.
  unfold Rows.stringToRows. case_decide; [done|].
  destruct (stringToRows_loop_spec [] input) as (rows & -> & _ & _ & Hrows).
  done.
Qed.

Lemma str_app_nil_l (s : string) : "" +:+ s = s.
Proof. reflexivity. Qed.

(** The text [MarshalText] writes, as lines. *)
Lemma MarshalText_lines (buf classRecord : string) (certLines rows : list string) :
  certLines ≠ [] →
  (sep +:+ newline)
    +:+ (foldl (λ buf part, (buf +:+ part) +:+ newline)
           (((("" +:+ classRecord) +:+ (newline +:+ newline))
               +:+ joinLines certLines) +:+ (newline +:+ newline)) rows
         +:+ newline)
  = Sample.unlines ([sep; classRecord; ""] ++ certLines ++ [""] ++ rows ++ [""]).
Proof.
  intros Hcert. rewrite foldl_write_lines, !unlines_app.
  rewrite (unlines_joinLines certLines) by done.
  cbn [Sample.unlines foldr].
  by rewrite ?str_app_assoc, ?str_app_nil_l, ?str_app_nil_r.
Qed.

(** A record whose class-records line does not fit the scanner's buffer
    is not read: the scanner gives up at that line with an empty token,
    and [DoScan] takes the end of the separator's block for the end of the
    file and returns no error, with nothing stored. *)
Lemma DoScan_gives_up_at_long_records (cache : ServiceCache)
    (classRecord rest : string) :
  hasChar newlineChar classRecord = false →
  (MaxScanTokenSize ≤ Z.of_nat (String.length classRecord))%Z →
  DoScan cache
    (NewScanner (sep +:+ newline +:+ classRecord +:+ newline +:+ rest))
  = Some (Returned None (clearNoLock cache)).
Proof.
  intros Hline Hlong. unfold NewScanner.
  rewrite (scanLines_line sep "") by done.
  rewrite (scanLines_too_long classRecord "")
    by (done || by apply bool_decide_eq_false_2, Z.le_ngt).
  reflexivity.
Qed.

Lemma stringToRows_rowsOk (input : string) (rowlen : Z) :
  rowsOk (Rows.stringToRows input rowlen).
Proof.
  unfold Rows.stringToRows. case_decide as Hlen.
  - constructor; [done|constructor].
  - by destruct (stringToRows_loop_spec [] input) as (rows & -> & _ & Hok & _).
Qed.


End AnnounceFacts.

Lemma DoScan_reads_well_formed_blocks_witness :
  Cache.DoScan (codec := Sample.trustingCodec)
    (Cache.NewServiceCache "discovery.cache")
    (bufio.mkScanner
       (concat (blockLines <$> [Demo.blockA; Demo.blockB]) ++ ["# end"]) "")
  = Some (Cache.Returned None
            (foldl (takeIn (codec := Sample.trustingCodec))
               (Cache.clearNoLock (Cache.NewServiceCache "discovery.cache"))
               [ Sample.proxyA;
                 Sample.proxyOf "B" (joinLines ["CERT-B1"; "CERT-B2"])
                                (joinLines ["SIG-B1"; "SIG-B2"]) ])).
Proof.
  apply (DoScan_reads_well_formed_blocks (codec := Sample.trustingCodec)).
  - repeat constructor; discriminate.
  - repeat constructor.
  - repeat constructor; discriminate.
Defined.

Lemma DoScan_passes_over_what_follows_a_separator_witness :
  Cache.DoScan (codec := Sample.trustingCodec)
    (Cache.NewServiceCache "discovery.cache")
    (bufio.mkScanner
       ([] ++ ["%%%"; "A"; ""] ++ ["CERT"] ++ "" :: ["SIG"]
           ++ "%%%" :: ["LOST"; ""; "CERT-LOST"; ""; "SIG-LOST"; ""]
           ++ concat (blockLines <$> [Demo.blockB]) ++ ["# end"]) "")
  = Some (Cache.Returned None
            (foldl (takeIn (codec := Sample.trustingCodec))
               (Cache.clearNoLock (Cache.NewServiceCache "discovery.cache"))
               [ Sample.proxyA;
                 Sample.proxyOf "B" (joinLines ["CERT-B1"; "CERT-B2"])
                                (joinLines ["SIG-B1"; "SIG-B2"]) ])).
Proof.
  apply (DoScan_passes_over_what_follows_a_separator
           (codec := Sample.trustingCodec)
           (Cache.NewServiceCache "discovery.cache") Demo.blockA Sample.proxyA
           ["LOST"; ""; "CERT-LOST"; ""; "SIG-LOST"; ""] [Demo.blockB]
           [ Sample.proxyOf "B" (joinLines ["CERT-B1"; "CERT-B2"])
                            (joinLines ["SIG-B1"; "SIG-B2"]) ]
           ["# end"] "").
  - repeat constructor; discriminate.
  - reflexivity.
  - repeat constructor; discriminate.
  - repeat constructor; discriminate.
  - repeat constructor.
  - repeat constructor; discriminate.
Defined.


Lemma stringToRows_row_shape_witness :
  ∃ full lastRow,
    Rows.stringToRows Demo.longSignature 76 = full ++ [lastRow]
    ∧ Forall (λ row, String.length row = 76) full
    ∧ String.length lastRow ≤ 76
    ∧ (Demo.longSignature ≠ "" → lastRow ≠ "")
    ∧ String.length Demo.longSignature = 76 * length full + String.length lastRow.
Proof. apply (stringToRows_row_shape Demo.longSignature 76). Defined.

(** ** The certificate splitter *)

Section CertFacts.
Import Certs.

Lemma HasPrefix_true (s sub : string) :
  HasPrefix s sub = true ↔ ∃ after, s = sub +:+ after.
Proof.
  revert s. induction sub as [|p sub IH]; intros s.
  - split; [intros _; by exists s|by destruct s].
  - destruct s as [|c s]; cbn.
    + split; [done|]. by intros [after [=]].
    + case_decide as Hpc.
      * subst c. rewrite IH. split.
        -- intros [after ->]. by exists after.
        -- intros [after Heq]. rewrite str_app_cons in Heq.
           injection Heq as ->. by exists after.
      * split; [done|]. intros [after Heq]. rewrite str_app_cons in Heq.
        by injection Heq as -> _.
Qed.

Lemma Index_unfold (s sub : string) :
  Index s sub
  = if HasPrefix s sub then 0%Z
    else match s with
         | "" => (-1)%Z
         | String _ s' =>
             if decide (Index s' sub = -1)%Z then (-1)%Z
             else (Index s' sub + 1)%Z
         end.
Proof. by destruct s. Qed.

Lemma Index_range (s sub : string) : (-1 ≤ Index s sub)%Z.
Proof.
  induction s as [|c s IH]; rewrite Index_unfold; repeat case_match; lia.
Qed.

(** [Index] finds an occurrence, *)
Lemma Index_occurs (s sub : string) :
  (0 ≤ Index s sub)%Z → occursAt sub s (Z.to_nat (Index s sub)).
Proof.
  induction s as [|c s IH]; rewrite Index_unfold.
  - destruct (HasPrefix "" sub) eqn:Hp; [|lia]. intros _.
    apply HasPrefix_true in Hp as [after ->]. by exists "", after.
  - destruct (HasPrefix (String c s) sub) eqn:Hp.
    + intros _. apply HasPrefix_true in Hp as [after ->]. by exists "", after.
    + case_decide as Hi; [lia|]. intros _.
      pose proof (Index_range s sub).
      destruct IH as (before & after & -> & Hlen); [lia|].
      exists (String c before), after. split; [done|]. cbn. lia.
Qed.

(** and it is the first one. *)
Lemma Index_first (s sub : string) (i : nat) :
  occursAt sub s i → (0 ≤ Index s sub ≤ Z.of_nat i)%Z.
Proof.
  revert i. induction s as [|c s IH]; intros i (before & after & Heq & Hlen);
    rewrite Index_unfold.
  - destruct before; [|done]. cbn in Heq.
    rewrite (proj2 (HasPrefix_true "" sub)) by eauto. lia.
  - destruct (HasPrefix (String c s) sub) eqn:Hp; [lia|].
    destruct before as [|c' before].
    + rewrite (proj2 (HasPrefix_true (String c s) sub)) in Hp by eauto. done.
    + rewrite str_app_cons in Heq. injection Heq as -> ->.
      destruct i as [|i]; [done|]. cbn in Hlen.
      destruct (IH i) as [Hlo Hhi]; [exists before, after; split; [done|lia]|].
      case_decide; lia.
Qed.

(** X14.  [scanCertficates] never fails on its slice.  When it yields a
    token, the token is the beginning of the data up to and including the
    first end marker, the advance is the length of the token, which is not
    zero, and a start marker is somewhere in the data; when it yields none
    it does not advance.  It yields a token as soon as the data hold a
    start marker and an end marker, wherever they are. *)
Theorem scanCertficates_contract (data : string) (atEOF : bool) :
  match scanCertficates data atEOF with
  | SplitPanics => False
  | Split advance None => advance = 0%Z
  | Split advance (Some token) =>
      ∃ before rest,
        token = before +:+ endCert
        ∧ data = token +:+ rest
        ∧ advance = Z.of_nat (String.length token)
        ∧ (0 < advance)%Z
        ∧ (∀ i, occursAt endCert data i → String.length before ≤ i)
        ∧ ∃ i, occursAt startCert data i
  end
  ∧ ((∃ i, occursAt startCert data i) → (∃ i, occursAt endCert data i) →
     ∃ advance token, scanCertficates data atEOF = Split advance (Some token)).
Proof.
  assert (∀ i, occursAt endCert data i →
            ∃ before rest,
              GoString.sliceTo data
                (Index data endCert + Z.of_nat (String.length endCert))
              = Some (before +:+ endCert)
              ∧ data = (before +:+ endCert) +:+ rest
              ∧ Z.of_nat (String.length before) = Index data endCert)
    as Hslice.
  { intros i Hi. pose proof (Index_first _ _ _ Hi) as [Hlo _].
    destruct (Index_occurs data endCert Hlo) as (before & rest & Hdata & Hlen).
    exists before, rest. rewrite <- str_app_assoc in Hdata.
    split_and!; [|done|lia].
    pose proof (f_equal String.length Hdata) as Hsize.
    rewrite !str_length_app in Hsize.
    unfold GoString.sliceTo. rewrite decide_True by lia.
    f_equal.
    replace (Z.to_nat (Index data endCert + Z.of_nat (String.length endCert)))
      with (String.length (before +:+ endCert))
      by (rewrite str_length_app; lia).
    rewrite Hdata. apply take_app_exact. }
  split.
  - unfold scanCertficates.
    destruct (atEOF && _); [done|].
    case_decide as Hstart; [done|].
    case_decide as Hend; [|done].
    destruct (Hslice _ (Index_occurs data endCert Hend))
      as (before & rest & -> & Hdata & Hlen).
    exists before, rest. split_and!; [done|done| | | |].
    + rewrite str_length_app. lia.
    + cbn. lia.
    + intros i Hi. apply Index_first in Hi. lia.
    + exists (Z.to_nat (Index data startCert)). apply Index_occurs.
      pose proof (Index_range data startCert). lia.
  - intros [i Hi] [j Hj]. unfold scanCertficates.
    assert (data ≠ "") as Hdata.
    { destruct Hi as (before & after & -> & _). by destruct before. }
    rewrite (bool_decide_eq_false_2 (String.length data = 0))
      by (by rewrite str_length_0).
    rewrite andb_false_r.
    pose proof (Index_first _ _ _ Hi). pose proof (Index_first _ _ _ Hj).
    rewrite decide_False by lia. rewrite decide_True by lia.
    destruct (Hslice _ Hj) as (before & rest & -> & _). eauto.
Qed.

End CertFacts.

(** ** The clients of a service *)

Section ClientFacts.
Import Svc.

Lemma findClient_absent (client : ClientRef) (entries : list ClientRef) (i : Z) :
  client ∉ entries → findClient client entries i = (-1)%Z.
Proof.
  revert i. induction entries as [|entry entries IH]; intros i Hnot; [done|].
  apply not_elem_of_cons in Hnot as [Hne Hnot]. cbn.
  rewrite decide_False by done. by apply IH.
Qed.

Lemma findClient_first (client : ClientRef) (entries : list ClientRef) (i : Z) :
  client ∈ entries →
  ∃ before after,
    entries = before ++ client :: after
    ∧ (client ∉ before)
    ∧ findClient client entries i = (i + Z.of_nat (length before))%Z.
Proof.
  revert i. induction entries as [|entry entries IH]; intros i Hin;
    [by apply elem_of_nil in Hin|].
  cbn. case_decide as Hentry.
  - subst entry. exists [], entries. split_and!; [done|apply not_elem_of_nil|].
    cbn. lia.
  - apply elem_of_cons in Hin as [? | Hin]; [done|].
    destruct (IH (i + 1)%Z Hin) as (before & after & -> & Hnot & Hfound).
    exists (entry :: before), after. split_and!; [done| |].
    + by apply not_elem_of_cons.
    + rewrite Hfound. cbn [length]. lia.
Qed.

(** X15.  [RemoveClient] of a client the service does not list returns the
    error "unknown client", closes nothing and leaves the service as it
    was.  Otherwise it closes the client and takes its first entry, and
    only that one, out of the list, the others keeping their order. *)
Theorem RemoveClient_takes_the_first_entry (serv : Service) (client : ClientRef) :
  (client ∉ clients serv →
     RemoveClient serv client = (serv, [], Some "unknown client"))
  ∧ (client ∈ clients serv →
     ∃ before after,
       clients serv = before ++ client :: after
       ∧ (client ∉ before)
       ∧ RemoveClient serv client
         = (mkService (sector serv) (name serv) (humanName serv)
              (isRunning serv) (before ++ after) (pemCert serv)
              (privateKey serv),
            [client], None)).
Proof.
  unfold RemoveClient. split.
  - intros Hnot. rewrite findClient_absent by done. by rewrite decide_True.
  - intros Hin.
    destruct (findClient_first client (clients serv) 0 Hin)
      as (before & after & Hclients & Hnot & Hfound).
    exists before, after. split_and!; [done|done|].
    rewrite Hfound, decide_False by lia. rewrite Hclients.
    replace (Z.to_nat (0 + Z.of_nat (length before))) with (length before) by lia.
    replace (Z.to_nat (0 + Z.of_nat (length before) + 1))
      with (length (before ++ [client])) by (rewrite length_app; cbn; lia).
    rewrite take_app_length.
    rewrite (cons_middle client before after), (assoc_L (++)).
    by rewrite drop_app_length.
Qed.

End ClientFacts.

Lemma RemoveClient_takes_the_first_entry_witness :
  ∃ before after,
    Svc.clients Demo.service = before ++ 7%N :: after
    ∧ (7%N ∉ before)
    ∧ Svc.RemoveClient Demo.service 7%N
      = (Svc.mkService "main" "helloworld-c2NhbXA" "helloworld" false
           (before ++ after) (joinLines Demo.certLines) "key",
         [7%N], None).
Proof.
  apply (RemoveClient_takes_the_first_entry Demo.service 7%N).
  vm_compute. constructor.
Defined.

(** ** The packet router: the other cases, and whole messages *)

Section ReaderFacts.
Import Conn.
Context {wire : Wire}.

Ltac ack_step :=
  let conn' := fresh "conn'" in
  let e := fresh "e" in
  let Hack := fresh "Hack" in
  destruct (ackBytes _ _ _) as [conn' e] eqn:Hack;
  apply (f_equal fst) in Hack; rewrite ackBytes_writes in Hack;
  cbn [fst] in Hack; subst conn'.

Ltac refusal :=
  split;
  [ intros ?; first [done | left; split; [done|]; first [by left | by right]
                     | right; split; [|done]; auto ]
  | intros [[? [? | [? ?]]] | [[? | [? | ?]] ?]]; done || congruence ].

(** X16.  The packets the reader refuses, and what a refusal leaves.  A
    packet is refused exactly when it is a HEADER whose number is not the
    expected one or is already tracked, or a DATA, EOF or TXERR packet
    whose number is not tracked; an ACK is never refused.  A refused packet
    changes nothing in the connection, nothing is acknowledged for it, and
    the read loop stops at it: the packets behind it are not routed. *)
Theorem routePacket_refusals (conn : Connection) (pkt : Packet) :
  ((routePacket conn pkt).2 ≠ None
   ↔ (packetType pkt = HEADER
      ∧ (msgNo pkt ≠ incomingmsgno conn
         ∨ is_Some (pktToMsg conn !! msgNo pkt)))
     ∨ ((packetType pkt = DATA ∨ packetType pkt = EOF ∨ packetType pkt = TXERR)
        ∧ pktToMsg conn !! msgNo pkt = None))
  ∧ ((routePacket conn pkt).2 ≠ None →
     (routePacket conn pkt).1 = conn
     ∧ ∀ rest, routeAll conn (pkt :: rest) = routePacket conn pkt).
Proof.
  assert ((routePacket conn pkt).2 ≠ None → (routePacket conn pkt).1 = conn)
    as Hsame.
  { unfold routePacket. destruct (packetType pkt); try done.
    - case_bool_decide; [done|]. by destruct (pktToMsg conn !! msgNo pkt).
    - destruct (pktToMsg conn !! msgNo pkt); [|done]. by ack_step.
    - by destruct (pktToMsg conn !! msgNo pkt).
    - destruct (pktToMsg conn !! msgNo pkt); [|done]. by ack_step. }
  split; [|intros Herr; split; [by apply Hsame|]].
  - unfold routePacket. destruct (packetType pkt) eqn:Htype.
    + case_bool_decide as Hseq; [cbn; refusal|].
      destruct (pktToMsg conn !! msgNo pkt) eqn:Hmsg; cbn; refusal.
    + destruct (pktToMsg conn !! msgNo pkt) eqn:Hmsg; [ack_step|];
        cbn; refusal.
    + destruct (pktToMsg conn !! msgNo pkt) eqn:Hmsg; cbn; refusal.
    + destruct (pktToMsg conn !! msgNo pkt) eqn:Hmsg; [ack_step|];
        cbn; refusal.
    + cbn. refusal.
  - intros rest. cbn [routeAll].
    destruct (routePacket conn pkt) as [conn' [e|]]; done.
Qed.

Lemma routePacket_eof_step (conn : Connection) (pkt : Packet) (msg : Message) :
  packetType pkt = EOF →
  pktToMsg conn !! msgNo pkt = Some msg →
  routePacket conn pkt
  = (mkConnection _ (readWriter conn) (incomingmsgno conn) (outgoingmsgno conn)
       (delete (msgNo pkt) (pktToMsg conn)) (msgs conn ++ [msg])
       (isClosed conn), None).
Proof. intros Htype Htracked. unfold routePacket. by rewrite Htype, Htracked. Qed.

Lemma routePacket_data_step (conn : Connection) (pkt : Packet) (msg : Message) :
  packetType pkt = DATA →
  pktToMsg conn !! msgNo pkt = Some msg →
  routePacket conn pkt
  = (mkConnection _
       (afterAck (readWriter conn)
          (ackPacketFor (msgNo pkt)
             (wrap64 (bytesWritten msg + N.of_nat (String.length (body pkt))))))
       (incomingmsgno conn) (outgoingmsgno conn)
       (<[msgNo pkt := Msg.Write msg (body pkt)]> (pktToMsg conn))
       (msgs conn) (isClosed conn), None).
Proof.
  intros Htype Htracked. unfold routePacket. rewrite Htype, Htracked.
  destruct (ackBytes _ _ _) as [conn' e] eqn:Hack.
  apply (f_equal fst) in Hack. rewrite ackBytes_writes in Hack.
  cbn in Hack. by subst conn'.
Qed.

(** DATA packets for one tracked message, one after the other. *)
Lemma routeAll_data (conn : Connection) (n : N) (msg : Message)
    (datas rest : list Packet) :
  Forall (λ pkt, packetType pkt = DATA ∧ msgNo pkt = n) datas →
  pktToMsg conn !! n = Some msg →
  routeAll conn (datas ++ rest)
  = routeAll
      (mkConnection _
         (foldl afterAck (readWriter conn)
                (acksFor n (bytesWritten msg) (body <$> datas)))
         (incomingmsgno conn) (outgoingmsgno conn)
         (<[n := foldl Msg.Write msg (body <$> datas)]> (pktToMsg conn))
         (msgs conn) (isClosed conn))
      rest.
Proof.
  intros Hdatas. revert conn msg.
  induction Hdatas as [|pkt datas [Htype Hno] _ IH]; intros conn msg Htracked.
  - cbn. rewrite insert_id by done. by destruct conn.
  - cbn [app routeAll]. subst n.
    rewrite (routePacket_data_step conn pkt msg Htype Htracked).
    rewrite (IH _ (Msg.Write msg (body pkt))) by (cbn; apply lookup_insert_eq).
    cbn. by rewrite insert_insert_eq.
Qed.

Lemma foldl_Write (msg : Message) (bodies : list string) :
  bytes (foldl Msg.Write msg bodies) = bytes msg +:+ GoString.join bodies
  ∧ carriesHeader (foldl Msg.Write msg bodies)
      (PacketHeader.mk (Action msg) (Envelope msg) (Version msg)
         (MessageType msg) (RequestId msg) (Error msg) (ErrorCode msg)
         (Ticket msg)).
Proof.
  revert msg. induction bodies as [|blob bodies IH]; intros msg.
  - split; [by rewrite str_app_nil_r|by repeat split].
  - cbn [foldl]. destruct (IH (Msg.Write msg blob)) as [Hbytes Hheader].
    split; [|done]. rewrite Hbytes. cbn.
    change (GoString.join (blob :: bodies)) with (blob +:+ GoString.join bodies).
    by rewrite str_app_assoc.
Qed.

(** X17.  A message that arrives whole is delivered whole.  When a HEADER
    with the expected number is followed by DATA packets and an EOF for
    that number, the reader delivers one message, with the header fields
    of the HEADER and the bodies of the DATA packets, in their order, as
    its body; it acknowledges every DATA packet with the running total of
    the bytes; and it tracks afterwards what it tracked before, expecting
    the next number. *)
Theorem routeAll_whole_message (conn : Connection) (header eof : Packet)
    (datas : list Packet) :
  packetType header = HEADER →
  msgNo header = incomingmsgno conn →
  pktToMsg conn !! msgNo header = None →
  Forall (λ pkt, packetType pkt = DATA ∧ msgNo pkt = msgNo header) datas →
  packetType eof = EOF → msgNo eof = msgNo header →
  ∃ msg,
    carriesHeader msg (packetHeader header)
    ∧ bytes msg = GoString.join (body <$> datas)
    ∧ bytesWritten msg = wrap64 (N.of_nat (String.length (bytes msg)))
    ∧ routeAll conn (header :: datas ++ [eof])
      = (mkConnection _
           (foldl afterAck (readWriter conn)
                  (acksFor (msgNo header) 0 (body <$> datas)))
           (wrap64 (incomingmsgno conn + 1)) (outgoingmsgno conn)
           (pktToMsg conn) (msgs conn ++ [msg]) (isClosed conn), None).
Proof.
  intros Htype Hseq Hfree Hdatas Heof Hno.
  set (msg0 :=
    Msg.SetTicket
      (Msg.SetErrorCode
         (Msg.SetError
            (Msg.SetRequestId
               (Msg.SetMessageType
                  (Msg.SetVersion
                     (Msg.SetEnvelope
                        (Msg.SetAction Msg.NewMessage
                           (PacketHeader.Action (packetHeader header)))
                        (PacketHeader.Envelope (packetHeader header)))
                     (PacketHeader.Version (packetHeader header)))
                  (PacketHeader.MessageType (packetHeader header)))
               (PacketHeader.RequestId (packetHeader header)))
            (PacketHeader.Error (packetHeader header)))
         (PacketHeader.ErrorCode (packetHeader header)))
      (PacketHeader.Ticket (packetHeader header))).
  assert (routePacket conn header
          = (mkConnection _ (readWriter conn) (wrap64 (incomingmsgno conn + 1))
               (outgoingmsgno conn) (<[msgNo header := msg0]> (pktToMsg conn))
               (msgs conn) (isClosed conn), None)) as Hheader.
  { unfold routePacket. rewrite Htype, Hfree.
    by rewrite bool_decide_eq_false_2 by (by intros []). }
  destruct (foldl_Write msg0 (body <$> datas)) as [Hbytes Hfields].
  assert (counted (foldl Msg.Write msg0 (body <$> datas))) as Hcounted.
  { clear. generalize (body <$> datas). intros bodies.
    assert (counted msg0) as H0 by done. revert H0. generalize msg0.
    induction bodies as [|blob bodies IH]; intros msg Hmsg; [done|].
    cbn [foldl]. by apply IH, Write_counted. }
  exists (foldl Msg.Write msg0 (body <$> datas)).
  split; [exact Hfields|]. split; [exact Hbytes|]. split; [exact Hcounted|].
  cbn [routeAll]. rewrite Hheader.
  rewrite (routeAll_data _ (msgNo header) msg0) by (done || apply lookup_insert_eq).
  cbn [routeAll]. unfold routePacket at 1. rewrite Heof, Hno. cbn.
  rewrite lookup_insert_eq. cbn.
  by rewrite insert_insert_eq, delete_insert_eq, delete_id.
Qed.

Lemma size_delete_tracked (m : gmap N Message) (n : N) (msg : Message) :
  m !! n = Some msg → size m = S (size (delete n m)).
Proof.
  intros Hmsg. rewrite <- (insert_delete_id m n msg) at 1 by done.
  rewrite map_size_insert_None by apply lookup_delete_eq. done.
Qed.

Lemma routePacket_inSequence (conn : Connection) (pkt : Packet) :
  inSequence conn → (incomingmsgno conn + 1 < 2 ^ 64)%N →
  inSequence (routePacket conn pkt).1
  ∧ (incomingmsgno conn ≤ incomingmsgno (routePacket conn pkt).1
       ≤ incomingmsgno conn + 1)%N.
Proof.
  intros [Hbelow Hcount] Hroom.
  assert (wrap64 (incomingmsgno conn + 1) = (incomingmsgno conn + 1)%N) as Hwrap
    by (by apply N.mod_small).
  unfold routePacket.
  destruct (packetType pkt) eqn:Htype.
  - case_bool_decide as Hseq; [split; [done|cbn; lia]|].
    destruct (pktToMsg conn !! msgNo pkt) eqn:Hmsg; [split; [done|cbn; lia]|].
    unfold bumpIncoming, setPktToMsg, inSequence. cbn. rewrite Hwrap.
    split; [split|lia].
    + intros n msg [[<- _] | [_ Hn]]%lookup_insert_Some; [lia|].
      apply Hbelow in Hn. lia.
    + rewrite map_size_insert_None by done. lia.
  - destruct (pktToMsg conn !! msgNo pkt) as [msg|] eqn:Hmsg;
      [|split; [done|cbn; lia]].
    ack_step. unfold setReadWriter, setPktToMsg, inSequence. cbn.
    split; [split|lia].
    + intros n msg' [[<- _] | [_ Hn]]%lookup_insert_Some; eauto.
    + by erewrite map_size_insert_Some.
  - destruct (pktToMsg conn !! msgNo pkt) as [msg|] eqn:Hmsg;
      [|split; [done|cbn; lia]].
    unfold deliver, setPktToMsg, inSequence. cbn. split; [split|lia].
    + intros n msg' [_ Hn]%lookup_delete_Some. eauto.
    + rewrite length_app. cbn.
      pose proof (size_delete_tracked _ _ _ Hmsg). lia.
  - destruct (pktToMsg conn !! msgNo pkt) as [msg|] eqn:Hmsg;
      [|split; [done|cbn; lia]].
    ack_step. unfold deliver, setReadWriter, setPktToMsg, inSequence. cbn.
    rewrite delete_insert_eq. split; [split|lia].
    + intros n msg' [_ Hn]%lookup_delete_Some. eauto.
    + rewrite length_app. cbn.
      pose proof (size_delete_tracked _ _ _ Hmsg). lia.
  - split; [done|cbn; lia].
Qed.

(** X18.  Message numbers are taken in order and no message is lost.
    Short of 2^64 headers, the reader keeps this: every tracked message
    has a number below the next expected one, and the next expected number
    is the count of the messages tracked and delivered.  So a HEADER with
    the expected number is never refused: the duplicate-header error
    cannot occur. *)
Theorem routeAll_keeps_sequence (conn : Connection) (pkts : list Packet) :
  inSequence conn →
  (incomingmsgno conn + N.of_nat (length pkts) < 2 ^ 64)%N →
  inSequence (routeAll conn pkts).1
  ∧ (∀ header, packetType header = HEADER →
       msgNo header = incomingmsgno (routeAll conn pkts).1 →
       (routePacket (routeAll conn pkts).1 header).2 = None).
Proof.
  intros Hconn Hroom.
  assert (inSequence (routeAll conn pkts).1) as Hafter.
  { revert conn Hconn Hroom.
    induction pkts as [|pkt pkts IH]; intros conn Hconn Hroom; [done|].
    cbn [routeAll length] in *.
    destruct (routePacket_inSequence conn pkt Hconn) as [Hstep Hbound]; [lia|].
    destruct (routePacket conn pkt) as [conn' [e|]]; [done|].
    apply IH; [done|]. cbn in Hbound. lia. }
  split; [done|]. intros header Htype Hseq.
  destruct Hafter as [Hbelow _]. unfold routePacket. rewrite Htype.
  rewrite bool_decide_eq_false_2 by (by intros []).
  destruct (pktToMsg _ !! msgNo header) as [msg|] eqn:Hmsg; [|done].
  apply Hbelow in Hmsg. lia.
Qed.

Lemma routePacket_msgs (conn : Connection) (pkt : Packet) :
  msgs conn `prefix_of` msgs (routePacket conn pkt).1.
Proof.
  unfold routePacket. destruct (packetType pkt); try done.
  - case_bool_decide; [done|]. by destruct (pktToMsg conn !! msgNo pkt).
  - destruct (pktToMsg conn !! msgNo pkt); [|done]. by ack_step.
  - destruct (pktToMsg conn !! msgNo pkt); [|done]. cbn. by apply prefix_app_r.
  - destruct (pktToMsg conn !! msgNo pkt); [|done]. ack_step. cbn.
    by apply prefix_app_r.
Qed.

(** X19.  What the reader has delivered stays delivered, in its order:
    the messages on the channel before a run of the reader are the
    beginning of those on it after.  And if every message tracked or
    delivered had its byte count equal to the length of its body, in 64
    bits, that is so afterwards as well. *)
Theorem routeAll_only_delivers (conn : Connection) (pkts : list Packet) :
  msgs conn `prefix_of` msgs (routeAll conn pkts).1
  ∧ (allCounted conn → allCounted (routeAll conn pkts).1).
Proof.
  split; [|apply routeAll_counted].
  revert conn. induction pkts as [|pkt pkts IH]; intros conn; [done|].
  cbn [routeAll]. pose proof (routePacket_msgs conn pkt) as Hstep.
  destruct (routePacket conn pkt) as [conn' [e|]]; [done|].
  etrans; [exact Hstep|apply IH].
Qed.

End ReaderFacts.

(** ** [Send]: the stream that takes the packets, and what is left alone *)

Section SendMore.
Import Conn.
Context {wire : Wire}.

Lemma sendPackets_accepting (fuel : nat) (w : Writer) (pkts : list Packet) :
  (∀ w pkt, pkt ∈ pkts → (pktWrite enableWriteTee w pkt).2 = None) →
  sendPackets (S fuel) w pkts = Some (afterPackets w pkts, None).
Proof.
  revert w. induction pkts as [|pkt pkts IH]; intros w Hopen; [done|].
  assert ((pktWrite enableWriteTee w pkt).2 = None) as Hpkt
    by (apply Hopen; by left).
  assert (∀ w p, p ∈ pkts → (pktWrite enableWriteTee w p).2 = None) as Hrest
    by (intros w' p Hp; apply Hopen; by right).
  unfold afterPackets in *. cbn [sendPackets foldl writeRetrying].
  destruct enableWriteTee.
  - destruct (pktWrite true w pkt) as [w' err]. cbn in Hpkt. subst err.
    cbn [fst]. by apply IH.
  - destruct (pktWrite false w pkt) as [w' err]. cbn in Hpkt. subst err.
    cbn [fst]. by apply IH.
Qed.

Lemma sendPackets_retrying (fuel : nat) (w w' : Writer) (pkts : list Packet)
    (err : error) :
  enableWriteTee = false →
  sendPackets fuel w pkts = Some (w', err) → err = None.
Proof.
  intros Htee. revert w. induction pkts as [|pkt pkts IH]; intros w.
  - cbn. congruence.
  - cbn [sendPackets]. rewrite Htee.
    destruct (writeRetrying fuel w pkt) as [w''|]; [apply IH|done].
Qed.

(** X20.  On a stream that takes the packets of the message, [Send] of a
    message with a request id returns no error, whether the write tee is on
    or not: it has written the packets of the message in their order,
    numbered with the outgoing number it found, each followed by the
    debugger's newline if the tee is on, and then flushed the stream; the
    outgoing number is one more, in 64 bits, and nothing else has
    changed. *)
Theorem Send_on_accepting_stream (fuel : nat) (conn : Connection) (msg : Message) :
  RequestId msg ≠ 0%N →
  (∀ w pkt, pkt ∈ toPackets msg (outgoingmsgno conn) →
            (pktWrite enableWriteTee w pkt).2 = None) →
  Send (S fuel) conn msg
  = Some (mkConnection _
            (Flush (afterPackets (readWriter conn)
                      (toPackets msg (outgoingmsgno conn))))
            (incomingmsgno conn) (wrap64 (outgoingmsgno conn + 1))
            (pktToMsg conn) (msgs conn) (isClosed conn), None).
Proof.
  intros Hreq Hopen. unfold Send. rewrite bool_decide_eq_false_2 by done.
  cbn zeta. unfold bumpOutgoing. cbn [readWriter outgoingmsgno].
  by rewrite sendPackets_accepting.
Qed.

(** X21.  Whenever [Send] returns, it has touched the write half and the
    outgoing number only: the expected incoming number, the tracked
    messages, the channel and the closed flag are as before.  The outgoing
    number is consumed as soon as the message has a request id, also when
    the send ends in a write error.  And without the write tee [Send]
    never returns a write error: the only error it can return is the one
    for a missing request id. *)
Theorem Send_touches_only_the_writer (fuel : nat) (conn conn' : Connection)
    (msg : Message) (err : error) :
  Send fuel conn msg = Some (conn', err) →
  incomingmsgno conn' = incomingmsgno conn
  ∧ pktToMsg conn' = pktToMsg conn
  ∧ msgs conn' = msgs conn
  ∧ isClosed conn' = isClosed conn
  ∧ outgoingmsgno conn'
    = (if bool_decide (RequestId msg = 0%N) then outgoingmsgno conn
       else wrap64 (outgoingmsgno conn + 1))
  ∧ (enableWriteTee = false →
     err = None ∨ (RequestId msg = 0%N ∧ err = Some missingRequestId)).
Proof.
  unfold Send. case_bool_decide as Hreq.
  - intros [= <- <-]. repeat split; auto.
  - cbn zeta.
    destruct (sendPackets _ _ _) as [[w [e|]]|] eqn:Hsend; [| |done].
    + intros [= <- <-]. repeat split; try done.
      intros Htee. by apply sendPackets_retrying in Hsend.
    + intros [= <- <-]. repeat split; try done. by left.
Qed.

End SendMore.

(** ** Concrete runs of the reader and of [Send] *)

Lemma routeAll_whole_message_witness :
  ∃ msg,
    carriesHeader msg (Sample.headerOf 42)
    ∧ bytes msg = "aaaabb"
    ∧ Conn.routeAll (Sample.freshConnection Sample.openWire [])
        [ Sample.headerPacket 0; Sample.bodyPacket DATA 0 "aaaa";
          Sample.bodyPacket DATA 0 "bb"; Sample.bodyPacket EOF 0 "" ]
      = (Conn.mkConnection Sample.openWire
           [ Sample.bodyPacket ACK 0 "4"; Sample.bodyPacket ACK 0 "6" ]
           1 0 ∅ [msg] false, None).
Proof.
  destruct (routeAll_whole_message (wire := Sample.openWire)
              (Sample.freshConnection Sample.openWire [])
              (Sample.headerPacket 0) (Sample.bodyPacket EOF 0 "")
              [ Sample.bodyPacket DATA 0 "aaaa"; Sample.bodyPacket DATA 0 "bb" ])
    as (msg & Hfields & Hbytes & _ & Hroute);
    [reflexivity|reflexivity|reflexivity|by repeat constructor
    |reflexivity|reflexivity|].
  exists msg. split; [exact Hfields|]. split; [exact Hbytes|]. exact Hroute.
Defined.

Lemma routeAll_keeps_sequence_witness :
  inSequence
    (Conn.routeAll (Sample.freshConnection Sample.openWire [])
       [ Sample.headerPacket 0; Sample.bodyPacket DATA 0 "{}";
         Sample.headerPacket 1; Sample.bodyPacket EOF 0 "" ]).1
  ∧ (Conn.routePacket
       (Conn.routeAll (Sample.freshConnection Sample.openWire [])
          [ Sample.headerPacket 0; Sample.bodyPacket DATA 0 "{}";
            Sample.headerPacket 1; Sample.bodyPacket EOF 0 "" ]).1
       (Sample.headerPacket 2)).2 = None.
Proof.
  destruct (routeAll_keeps_sequence (wire := Sample.openWire)
              (Sample.freshConnection Sample.openWire [])
              [ Sample.headerPacket 0; Sample.bodyPacket DATA 0 "{}";
                Sample.headerPacket 1; Sample.bodyPacket EOF 0 "" ])
    as [Hseq Hnext].
  - split; [|reflexivity].
    intros n msg Hmsg. cbn in Hmsg. by rewrite lookup_empty in Hmsg.
  - by vm_compute.
  - split; [exact Hseq|]. apply Hnext; reflexivity.
Defined.

Lemma Send_on_accepting_stream_witness :
  Conn.Send 1 (Sample.freshConnection Sample.openWire [])
            (Sample.request 42 "{}")
  = Some (Conn.mkConnection Sample.openWire
            (Sample.packetsOf (Sample.request 42 "{}") 0) 0 1 ∅ [] false, None).
Proof.
  rewrite (Send_on_accepting_stream (wire := Sample.openWire) 0).
  - reflexivity.
  - discriminate.
  - intros w pkt _. reflexivity.
Defined.

Lemma Send_touches_only_the_writer_witness :
  Conn.Send 1 (Sample.freshConnection (Sample.closedWire true) [])
            (Sample.request 42 "{}")
  = Some (Conn.mkConnection (Sample.closedWire true) [] 0 1 ∅ [] false,
          Some "use of closed network connection")
  ∧ Conn.outgoingmsgno (Conn.mkConnection (Sample.closedWire true) [] 0 1 ∅ [] false)
    = wrap64 (0 + 1).
Proof.
  split; [reflexivity|].
  destruct (Send_touches_only_the_writer (wire := Sample.closedWire true) 1
              (Sample.freshConnection (Sample.closedWire true) [])
              (Conn.mkConnection (Sample.closedWire true) [] 0 1 ∅ [] false)
              (Sample.request 42 "{}")
              (Some "use of closed network connection") eq_refl)
    as (_ & _ & _ & _ & Hout & _).
  exact Hout.
Defined.

(** ** [Send] on a connection that has been closed *)

Section StreamFacts.
Import Conn.

Lemma writeLoop_ends (b : Stream.bufioWriter) (p : string) (nn : nat) :
  ¬ (Stream.Available b < String.length p ∧ Stream.err b = None) →
  Stream.writeLoop b p nn = (b, p, nn).
Proof. intros Hstop. funelim (Stream.writeLoop b p nn); done. Qed.

(** A writer that has kept an error takes nothing and returns it. *)
Lemma Write_stuck (b : Stream.bufioWriter) (p e : string) :
  Stream.err b = Some e → Stream.Write b p = (b, 0, Some e).
Proof.
  intros Herr. unfold Stream.Write.
  rewrite writeLoop_ends by (rewrite Herr; by intros [_ ?]). by rewrite Herr.
Qed.

(** What fits the buffer goes into the buffer, whatever the state of the
    connection is. *)
Lemma Write_fits (b : Stream.bufioWriter) (p : string) :
  Stream.err b = None → String.length p ≤ Stream.Available b →
  Stream.Write b p
  = (Stream.mkWriter (Stream.wr b) (Stream.buf b +:+ p) None,
     String.length p, None).
Proof.
  intros Herr Hfits. unfold Stream.Write.
  rewrite writeLoop_ends by lia. rewrite Herr.
  rewrite Nat.min_l by done.
  replace (GoString.take (String.length p) p) with p; [done|].
  clear. induction p as [|c p IH]; [done|]. cbn. by rewrite <- IH.
Qed.

Lemma writeFrames_stuck (b : Stream.bufioWriter) (frame : string)
    (frames : list string) (e : string) :
  Stream.err b = Some e →
  Stream.writeFrames b (frame :: frames) = (b, Some e).
Proof. intros Herr. cbn [Stream.writeFrames]. by rewrite (Write_stuck b frame e). Qed.

Lemma writeFrames_fit (b : Stream.bufioWriter) (frames : list string) :
  Stream.err b = None →
  String.length (Stream.buf b) + String.length (GoString.join frames)
    ≤ Stream.defaultBufSize →
  Stream.writeFrames b frames
  = (Stream.mkWriter (Stream.wr b) (Stream.buf b +:+ GoString.join frames) None,
     None).
Proof.
  revert b. induction frames as [|frame frames IH]; intros b Herr Hfit.
  - cbn. rewrite str_app_nil_r. by destruct b; cbn in *; subst.
  - change (GoString.join (frame :: frames))
      with (frame +:+ GoString.join frames) in *.
    rewrite str_length_app in Hfit.
    cbn [Stream.writeFrames]. rewrite Write_fits;
      [|done|unfold Stream.Available, Stream.Buffered; lia].
    rewrite IH; [|done|cbn [Stream.buf]; rewrite str_length_app; lia].
    cbn [Stream.wr Stream.buf]. by rewrite str_app_assoc.
Qed.

(** On a closed connection the flush of a buffer that is not empty fails,
    and the writer keeps the error and the bytes. *)
Lemma Flush_closed (b : Stream.bufioWriter) :
  Stream.err b = None → Stream.closed (Stream.wr b) = true →
  (Stream.Flush b).1
  = Stream.mkWriter (Stream.wr b) (Stream.buf b)
      (if decide (Stream.buf b = "") then None else Some Stream.closedError).
Proof.
  intros Herr Hclosed. unfold Stream.Flush, Stream.connWrite, Stream.Buffered.
  rewrite Herr, Hclosed.
  destruct (decide (Stream.buf b = "")) as [Hempty|Hfull].
  - rewrite decide_True by (by rewrite Hempty).
    by destruct b; cbn in *; subst.
  - rewrite decide_False by (by rewrite str_length_0). cbn.
    rewrite decide_False by (by intros [_ ?]). done.
Qed.

Lemma join_app (xs ys : list string) :
  GoString.join (xs ++ ys) = GoString.join xs +:+ GoString.join ys.
Proof.
  induction xs as [|x xs IH]; [done|].
  change (GoString.join ((x :: xs) ++ ys)) with (x +:+ GoString.join (xs ++ ys)).
  change (GoString.join (x :: xs)) with (x +:+ GoString.join xs).
  by rewrite IH, str_app_assoc.
Qed.

(** Packets that fit the free part of the buffer are written without an
    error, with the tee and without it: nothing reaches the connection. *)
Lemma sendPackets_buffered (tee : bool) (frames : Packet → list string)
    (packets : Message → N → list Packet) (fuel : nat) (b : Stream.bufioWriter)
    (pkts : list Packet) :
  Stream.err b = None →
  String.length (Stream.buf b) + String.length (wireBytes frames pkts)
    ≤ Stream.defaultBufSize →
  sendPackets (wire := bufioWire tee frames packets) (S fuel) b pkts
  = Some (Stream.mkWriter (Stream.wr b)
            (Stream.buf b +:+ wireBytes frames pkts) None, None).
Proof.
  revert b. induction pkts as [|pkt pkts IH]; intros b Herr Hfit.
  - cbn. rewrite str_app_nil_r. by destruct b; cbn in *; subst.
  - assert (wireBytes frames (pkt :: pkts)
            = GoString.join (frames pkt) +:+ wireBytes frames pkts) as Hbytes
      by apply join_app.
    rewrite Hbytes in *. rewrite str_length_app in Hfit.
    assert (Stream.writeFrames b (frames pkt)
            = (Stream.mkWriter (Stream.wr b)
                 (Stream.buf b +:+ GoString.join (frames pkt)) None, None))
      as Hpkt by (apply writeFrames_fit; [done|lia]).
    cbn [sendPackets writeRetrying enableWriteTee pktWrite debuggerNewline
         bufioWire].
    destruct tee; rewrite Hpkt; rewrite IH;
      first [done | cbn [Stream.buf]; rewrite str_length_app; lia
            | cbn [Stream.wr Stream.buf]; by rewrite str_app_assoc].
Qed.

(** With the error kept by the writer, the retry loop of [Send] writes
    the same packet to the same writer again and again. *)
Lemma writeRetrying_stuck (tee : bool) (frames : Packet → list string)
    (packets : Message → N → list Packet) (fuel : nat) (b : Stream.bufioWriter)
    (pkt : Packet) (e : string) :
  Stream.err b = Some e → frames pkt ≠ [] →
  writeRetrying (wire := bufioWire tee frames packets) fuel b pkt = None.
Proof.
  intros Herr Hframes. induction fuel as [|fuel IH]; [done|].
  cbn [writeRetrying pktWrite bufioWire].
  destruct (frames pkt) as [|frame rest]; [done|].
  by rewrite (writeFrames_stuck b frame rest e).
Qed.

(** [Send] of a message that fits the free part of the buffer, on a
    connection that has been closed. *)
Lemma Send_buffers (tee : bool) (frames : Packet → list string)
    (packets : Message → N → list Packet)
    (conn : Connection (wire := bufioWire tee frames packets)) (msg : Message)
    (fuel : nat) :
  RequestId msg ≠ 0%N →
  Stream.closed (Stream.wr (readWriter conn)) = true →
  Stream.err (readWriter conn) = None →
  String.length (Stream.buf (readWriter conn))
    + String.length (wireBytes frames (packets msg (outgoingmsgno conn)))
    ≤ Stream.defaultBufSize →
  Send (S fuel) conn msg
  = Some (mkConnection (bufioWire tee frames packets)
            (Stream.mkWriter (Stream.wr (readWriter conn))
               (Stream.buf (readWriter conn)
                  +:+ wireBytes frames (packets msg (outgoingmsgno conn)))
               (if decide (Stream.buf (readWriter conn)
                             +:+ wireBytes frames
                                   (packets msg (outgoingmsgno conn)) = "")
                then None else Some Stream.closedError))
            (incomingmsgno conn) (wrap64 (outgoingmsgno conn + 1))
            (pktToMsg conn) (msgs conn) (isClosed conn), None).
Proof.
  intros Hreq Hclosed Herr Hfit. unfold Send.
  rewrite bool_decide_eq_false_2 by done.
  cbn [bumpOutgoing readWriter outgoingmsgno toPackets bufioWire].
  rewrite sendPackets_buffered by done.
  unfold setReadWriter. cbn [Flush bufioWire readWriter incomingmsgno
    outgoingmsgno pktToMsg msgs isClosed].
  by rewrite Flush_closed.
Qed.

(** [Send] once the writer has kept an error. *)
Lemma Send_stuck (tee : bool) (frames : Packet → list string)
    (packets : Message → N → list Packet)
    (conn : Connection (wire := bufioWire tee frames packets)) (msg : Message)
    (e : string) (pkt : Packet) (rest : list Packet) (fuel : nat) :
  RequestId msg ≠ 0%N →
  Stream.err (readWriter conn) = Some e →
  packets msg (outgoingmsgno conn) = pkt :: rest → frames pkt ≠ [] →
  Send fuel conn msg
  = if tee
    then Some (mkConnection (bufioWire tee frames packets)
                 (readWriter conn) (incomingmsgno conn)
                 (wrap64 (outgoingmsgno conn + 1))
                 (pktToMsg conn) (msgs conn) (isClosed conn), Some e)
    else None.
Proof.
  intros Hreq Herr Hpkts Hframes. unfold Send.
  rewrite bool_decide_eq_false_2 by done.
  cbn [bumpOutgoing readWriter outgoingmsgno toPackets bufioWire].
  rewrite Hpkts. cbn [sendPackets enableWriteTee bufioWire].
  destruct tee.
  - cbn [pktWrite debuggerNewline bufioWire].
    destruct (frames pkt) as [|frame more]; [done|].
    by rewrite (writeFrames_stuck _ frame more e).
  - by rewrite (writeRetrying_stuck false frames packets fuel _ pkt e).
Qed.

(** C4, as the code has it.  [Send] does not look at [isClosed], writes
    through the buffered writer and drops the error of [Flush].  On a
    connection that has been closed, a message whose packets fit the free
    part of the buffer is sent without an error: the packets are buffered,
    the flush fails, and the writer keeps the error and the bytes.  Once
    the writer has kept an error, the first packet of a message cannot be
    written: with the write tee [Send] returns the error and leaves the
    other packets unwritten; without it [Send] retries the packet for
    ever and does not return.  The number of the message is taken in
    every case. *)
Theorem Send_on_closed_stream (tee : bool) (frames : Packet → list string)
    (packets : Message → N → list Packet)
    (conn : Connection (wire := bufioWire tee frames packets)) (msg : Message) :
  RequestId msg ≠ 0%N →
  Stream.closed (Stream.wr (readWriter conn)) = true →
  (Stream.err (readWriter conn) = None →
   String.length (Stream.buf (readWriter conn))
     + String.length (wireBytes frames (packets msg (outgoingmsgno conn)))
     ≤ Stream.defaultBufSize →
   ∀ fuel,
     Send (S fuel) conn msg
     = Some (mkConnection (bufioWire tee frames packets)
               (Stream.mkWriter (Stream.wr (readWriter conn))
                  (Stream.buf (readWriter conn)
                     +:+ wireBytes frames (packets msg (outgoingmsgno conn)))
                  (if decide (Stream.buf (readWriter conn)
                                +:+ wireBytes frames
                                      (packets msg (outgoingmsgno conn)) = "")
                   then None else Some Stream.closedError))
               (incomingmsgno conn) (wrap64 (outgoingmsgno conn + 1))
               (pktToMsg conn) (msgs conn) (isClosed conn), None))
  ∧ (∀ e pkt rest,
       Stream.err (readWriter conn) = Some e →
       packets msg (outgoingmsgno conn) = pkt :: rest → frames pkt ≠ [] →
       ∀ fuel,
         Send fuel conn msg
         = if tee
           then Some (mkConnection (bufioWire tee frames packets)
                        (readWriter conn) (incomingmsgno conn)
                        (wrap64 (outgoingmsgno conn + 1))
                        (pktToMsg conn) (msgs conn) (isClosed conn), Some e)
           else None).
Proof.
  intros Hreq Hclosed. split.
  - intros Herr Hfit fuel. by apply Send_buffers.
  - intros e pkt rest Herr Hpkts Hframes fuel.
    by apply (Send_stuck _ _ _ _ _ e pkt rest).
Qed.

End StreamFacts.

Lemma Send_on_closed_stream_witness :
  Conn.Send (wire := bufioWire false Sample.frames Sample.packetsOf) 1
    (Sample.freshConnection (bufioWire false Sample.frames Sample.packetsOf)
       Sample.closedStream)
    (Sample.request 42 "{}")
  = Some (Conn.mkConnection (bufioWire false Sample.frames Sample.packetsOf)
            (Stream.mkWriter (Stream.mkTlsConn true "")
               "HEADER 0 0:;DATA 0 2:{};EOF 0 0:;"
               (Some Stream.closedError))
            0 1 ∅ [] false, None)
  ∧ Conn.Send (wire := bufioWire false Sample.frames Sample.packetsOf) 1000
      (Conn.mkConnection (bufioWire false Sample.frames Sample.packetsOf)
         (Stream.mkWriter (Stream.mkTlsConn true "")
            "HEADER 0 0:;DATA 0 2:{};EOF 0 0:;"
            (Some Stream.closedError))
         0 1 ∅ [] false)
      (Sample.request 43 "{}")
    = None.
Proof.
  split.
  - apply (proj1 (Send_on_closed_stream false Sample.frames Sample.packetsOf
                    (Sample.freshConnection
                       (bufioWire false Sample.frames Sample.packetsOf)
                       Sample.closedStream)
                    (Sample.request 42 "{}") ltac:(discriminate) eq_refl)
                 eq_refl).
    vm_compute. lia.
  - refine (proj2 (Send_on_closed_stream false Sample.frames Sample.packetsOf
                     (Conn.mkConnection
                        (bufioWire false Sample.frames Sample.packetsOf)
                        (Stream.mkWriter (Stream.mkTlsConn true "")
                           "HEADER 0 0:;DATA 0 2:{};EOF 0 0:;"
                           (Some Stream.closedError))
                        0 1 ∅ [] false)
                     (Sample.request 43 "{}") ltac:(discriminate) eq_refl)
                  Stream.closedError _ _ eq_refl eq_refl _ 1000).
    discriminate.
Defined.

(** With the write tee, the second [Send] on the closed connection returns
    the error the writer has kept; its packets are not written. *)
Example Send_with_tee_reports_the_kept_error :
  Conn.Send (wire := bufioWire true Sample.frames Sample.packetsOf) 1
    (Conn.mkConnection (bufioWire true Sample.frames Sample.packetsOf)
       (Stream.mkWriter (Stream.mkTlsConn true "")
          "HEADER 0 0:;DATA 0 2:{};EOF 0 0:;" (Some Stream.closedError))
       0 1 ∅ [] false)
    (Sample.request 43 "{}")
  = Some (Conn.mkConnection (bufioWire true Sample.frames Sample.packetsOf)
            (Stream.mkWriter (Stream.mkTlsConn true "")
               "HEADER 0 0:;DATA 0 2:{};EOF 0 0:;" (Some Stream.closedError))
            0 2 ∅ [] false,
          Some Stream.closedError).
Proof.
  refine (Send_stuck true Sample.frames Sample.packetsOf
            (Conn.mkConnection (bufioWire true Sample.frames Sample.packetsOf)
               (Stream.mkWriter (Stream.mkTlsConn true "")
                  "HEADER 0 0:;DATA 0 2:{};EOF 0 0:;"
                  (Some Stream.closedError))
               0 1 ∅ [] false)
            (Sample.request 43 "{}")
            Stream.closedError _ _ 1 _ eq_refl eq_refl _); discriminate.
Qed.

(** C4, as the claim has it, fails: on a new connection that has been
    closed, [Send] of a request returns no error: its three packets are in
    the buffer, nothing has reached the connection, and no packet was given
    up.  The next [Send] returns nothing at all, with however many
    retries.  No error reaches the caller. *)
Lemma Send_never_reports_closed_stream :
  Conn.Send (wire := bufioWire false Sample.frames Sample.packetsOf) 1
    (Sample.freshConnection (bufioWire false Sample.frames Sample.packetsOf)
       Sample.closedStream)
    (Sample.request 42 "{}")
  = Some (Conn.mkConnection (bufioWire false Sample.frames Sample.packetsOf)
            (Stream.mkWriter (Stream.mkTlsConn true "")
               "HEADER 0 0:;DATA 0 2:{};EOF 0 0:;"
               (Some Stream.closedError))
            0 1 ∅ [] false, None)
  ∧ ¬ ∃ fuel outcome,
        Conn.Send (wire := bufioWire false Sample.frames Sample.packetsOf) fuel
          (Conn.mkConnection (bufioWire false Sample.frames Sample.packetsOf)
             (Stream.mkWriter (Stream.mkTlsConn true "")
                "HEADER 0 0:;DATA 0 2:{};EOF 0 0:;"
                (Some Stream.closedError))
             0 1 ∅ [] false)
          (Sample.request 43 "{}")
        = Some outcome.
Proof.
  split.
  { apply (Send_buffers false Sample.frames Sample.packetsOf
             (Sample.freshConnection
                (bufioWire false Sample.frames Sample.packetsOf)
                Sample.closedStream)
             (Sample.request 42 "{}") 0);
      [discriminate|reflexivity|reflexivity|vm_compute; lia]. }
  intros (fuel & outcome & Hsend).
  pose proof (Send_stuck false Sample.frames Sample.packetsOf
                (Conn.mkConnection
                   (bufioWire false Sample.frames Sample.packetsOf)
                   (Stream.mkWriter (Stream.mkTlsConn true "")
                      "HEADER 0 0:;DATA 0 2:{};EOF 0 0:;"
                      (Some Stream.closedError))
                   0 1 ∅ [] false)
                (Sample.request 43 "{}") Stream.closedError _ _ fuel
                ltac:(discriminate) eq_refl eq_refl ltac:(discriminate))
    as Hstuck.
  rewrite Hstuck in Hsend. discriminate Hsend.
Qed.
